(** * SafeInsert: the ledger, the recurrence materializer and the backup codec

    A shallow embedding of the [Store] object of [app.js] together with the
    two helpers of the presentation layer that carry ledger logic
    ([groupByCat] of the report view and the installment branch of
    [submitHomeExpense]), the handlers of [Actions] that change the store,
    and the figures that the views compute from it.

    Conventions of the embedding.
    - Monetary amounts are JavaScript numbers in the source.  They are
      embedded as exact rationals [Q]; equalities between amounts are stated
      with [==].  [NaN] (an unparsable form field) is [None].
    - A JavaScript [Date] is embedded by what it reads on the host's clock:
      year, month (0..11), day of the month and milliseconds since local
      midnight.  The offset of the host's clock from UTC, in minutes,
      enters where a date-only text is parsed ([new_Date tz]: the offset in
      force at the midnight UTC that the text denotes) and where a day is
      written with [toISOString] ([iso_date_part tz]: the offset in force
      at the date written).  The report filter and the start of the page
      in [Page] take the offset from a function [zone] of the date; the
      other functions are embedded for a host that keeps the one offset
      [tz] at all the dates they read.
    - [crypto.randomUUID()] is the sequence [randomUUID 0], [randomUUID 1], ...
      and the world records how many identifiers were drawn.
    - An exception is an explicit [Throw] result.
    - [save] ends with a re-rendering of the current view, which can raise
      and then ends the handler that is running.  The functions of the
      store are embedded twice: as the change of the store that a call
      makes, and, in the module [Page], as the call with its re-rendering.
      Where a raw imported object is rendered (the backup codec) the call
      that can raise is part of the model as well.  [localStorage] is taken
      to have room for what is written. *)

From Stdlib Require Import ZArith QArith List String Ascii Bool Lia.
From Stdlib Require Import Permutation Sorted DecimalString Lqa.
Import ListNotations.

Local Open Scope Z_scope.

(** ** Completion records

    A call either returns or raises; in both cases the store is left in some
    state, which the completion carries. *)

Inductive Completion (S : Type) : Type :=
| Normal (s : S)
| Throw (error : string) (s : S).
Arguments Normal {S} s.
Arguments Throw {S} error s.

(** ** Dates *)

Module JSDate.

Definition msPerDay : Z := 86400000.

Definition InLeapYear (y : Z) : bool :=
  ((y mod 4 =? 0) && negb (y mod 100 =? 0)) || (y mod 400 =? 0).

(** Months are numbered from 0 (January) to 11 (December). *)
Definition DaysInMonth (y m : Z) : Z :=
  if m =? 1 then (if InLeapYear y then 29 else 28)
  else if (m =? 3) || (m =? 5) || (m =? 8) || (m =? 10) then 30
  else 31.

Record Date : Type := mkDate
  { getFullYear : Z;
    getMonth : Z;
    getDate : Z;
    getTimeInDay : Z }.

Definition validb (d : Date) : bool :=
  (0 <=? getMonth d) && (getMonth d <=? 11)
  && (1 <=? getDate d) && (getDate d <=? DaysInMonth (getFullYear d) (getMonth d))
  && (0 <=? getTimeInDay d) && (getTimeInDay d <? msPerDay).

Definition valid (d : Date) : Prop :=
  0 <= getMonth d <= 11
  /\ 1 <= getDate d <= DaysInMonth (getFullYear d) (getMonth d)
  /\ 0 <= getTimeInDay d < msPerDay.

Definition next_month (y m : Z) : Z * Z := if m =? 11 then (y + 1, 0) else (y, m + 1).
Definition prev_month (y m : Z) : Z * Z := if m =? 0 then (y - 1, 11) else (y, m - 1).

(** Day numbers past the end of the month run into the following months. *)
Fixpoint roll_forward (fuel : nat) (y m d : Z) : Z * Z * Z :=
  if d <=? DaysInMonth y m then (y, m, d)
  else match fuel with
       | O => (y, m, d)
       | S fuel' =>
           let '(y', m') := next_month y m in
           roll_forward fuel' y' m' (d - DaysInMonth y m)
       end.

(** Day numbers below 1 run back into the preceding months: day 0 is the last
    day of the month before. *)
Fixpoint roll_backward (fuel : nat) (y m d : Z) : Z * Z * Z :=
  if 1 <=? d then (y, m, d)
  else match fuel with
       | O => (y, m, d)
       | S fuel' =>
           let '(y', m') := prev_month y m in
           roll_backward fuel' y' m' (d + DaysInMonth y' m')
       end.

(** ECMAScript [MakeDay]: months outside 0..11 carry into the year, day
    numbers outside the month carry into the neighbouring months. *)
Definition MakeDay (year month date : Z) : Z * Z * Z :=
  let ym := year + month / 12 in
  let mn := month mod 12 in
  if 1 <=? date then roll_forward (Z.to_nat date) ym mn date
  else roll_backward (Z.to_nat (1 - date)) ym mn date.

Definition MakeTime (hour min sec ms : Z) : Z :=
  hour * 3600000 + min * 60000 + sec * 1000 + ms.

(** ECMAScript [MakeDate]: a time outside the day carries into the date. *)
Definition MakeDate (year month date time : Z) : Date :=
  let '(y, m, d) := MakeDay year month (date + time / msPerDay) in
  mkDate y m d (time mod msPerDay).

(** [new Date(year, month, date, hours, minutes, seconds)].  Years 0..99 are
    read as 1900..1999 by this constructor. *)
Definition Date_of_fields (year month date hours minutes seconds : Z) : Date :=
  let yr := if (0 <=? year) && (year <=? 99) then 1900 + year else year in
  MakeDate yr month date (MakeTime hours minutes seconds 0).

Definition setDate (this : Date) (date : Z) : Date :=
  MakeDate (getFullYear this) (getMonth this) date (getTimeInDay this).

Definition setHours (this : Date) (hour min sec ms : Z) : Date :=
  MakeDate (getFullYear this) (getMonth this) (getDate this) (MakeTime hour min sec ms).

(** The texts that the application stores and parses as dates. *)
Inductive DateString : Type :=
| ISOString (local : Date)      (* [toISOString()] of the instant that reads [local] on the host *)
| DateOnly (year month date : Z) (* 'YYYY-MM-DD', month counted from 0 in this embedding *)
| NotADate.                      (* the empty string and any other text *)

Section Host.

(** Minutes that the host's clock is ahead of UTC (negative west of Greenwich). *)
Variable tz : Z.

(** [new Date(text)].  A full ISO text denotes an instant; a date-only text
    denotes midnight UTC of that day, which the host reads [tz] minutes
    later on its own clock.  A date-only text is read as the engine of
    Chrome and Node reads it: a month from 1 to 12 and a day from 1 to 31
    are accepted, and a day that the month lacks runs over into the month
    after (ECMAScript leaves the reading of such a text to the engine).
    [None] is the Invalid Date.  [tz] is the offset in force at the instant
    that the text denotes; a function that parses several texts with the
    one [tz] is embedded for a host that keeps that offset at all of
    them. *)
Definition new_Date (text : DateString) : option Date :=
  match text with
  | ISOString local => if validb local then Some local else None
  | DateOnly y m d =>
      if (0 <=? m) && (m <=? 11) && (1 <=? d) && (d <=? 31)
      then Some (MakeDate y m d (tz * 60000)) else None
  | NotADate => None
  end.

End Host.

(** [a <= b] on Date objects compares the instants; on one host clock that
    is the order of the readings. *)
Definition day_compare (a b : Date) : comparison :=
  match getFullYear a ?= getFullYear b with
  | Eq => match getMonth a ?= getMonth b with
          | Eq => getDate a ?= getDate b
          | c => c
          end
  | c => c
  end.

Definition Date_compare (a b : Date) : comparison :=
  match day_compare a b with
  | Eq => getTimeInDay a ?= getTimeInDay b
  | c => c
  end.

Definition Date_leb (a b : Date) : bool :=
  match Date_compare a b with Gt => false | _ => true end.

Definition same_day (a b : Date) : Prop :=
  getFullYear a = getFullYear b /\ getMonth a = getMonth b /\ getDate a = getDate b.

(** The first calendar day of [a] is not after that of [b]. *)
Definition day_le (a b : Date) : Prop := day_compare a b <> Gt.

End JSDate.

(** ** Entities of the store *)

Import JSDate.

Local Open Scope string_scope.
Local Open Scope Z_scope.

(** [o === s] for a property that may be absent. *)
Definition opt_is (o : option string) (s : string) : bool :=
  match o with
  | Some x => (x =? s)%string
  | None => false
  end.

Module Tx.
(** A transaction.  The three flags are read by truthiness only, so an
    absent flag is [false]. *)
Record t : Type := mk
  { id : string;
    createdAt : DateString;
    type : string;
    amount : Q;
    description : option string;
    category : option string;
    date : DateString;
    accountId : option string;
    isHomeExpense : bool;
    isPaid : bool;
    recurringId : option string;
    installmentId : option string;
    isReminder : bool }.
End Tx.

Module Acc.
Record t : Type := mk
  { id : string;
    name : string;
    type : string;
    initialBalance : option Q }.
End Acc.

Module Rule.
(** A recurring bill.  [day] is read through [rule.day || 10]: 0 stands for
    every falsy day. *)
Record t : Type := mk
  { id : string;
    title : string;
    category : string;
    amount : Q;
    day : Z;
    type : string;
    active : bool }.
End Rule.

Record StoreData : Type := mkData
  { transactions : list Tx.t;
    customCategories : list string;
    homeCategories : list string;
    selectedDate : DateString;
    selectedMonth : DateString;
    reportFilter : string;
    reportStartDate : DateString;
    reportEndDate : DateString;
    accounts : list Acc.t;
    recurring : list Rule.t }.

(** The five keys that [save] writes; a key never written is [None]. *)
Record LocalStorage : Type := mkStorage
  { st_transactions : option (list Tx.t);
    st_customCategories : option (list string);
    st_homeCategories : option (list string);
    st_accounts : option (list Acc.t);
    st_recurring : option (list Rule.t) }.

Record World : Type := mkWorld
  { data : StoreData;
    localStorage : LocalStorage;
    drawn : nat;   (* identifiers handed out by [crypto.randomUUID] so far *)
    now : Date }.  (* what [new Date()] reads *)

Definition set_transactions (d : StoreData) (l : list Tx.t) : StoreData :=
  mkData l (customCategories d) (homeCategories d) (selectedDate d) (selectedMonth d)
         (reportFilter d) (reportStartDate d) (reportEndDate d) (accounts d) (recurring d).

Definition set_recurring (d : StoreData) (l : list Rule.t) : StoreData :=
  mkData (transactions d) (customCategories d) (homeCategories d) (selectedDate d)
         (selectedMonth d) (reportFilter d) (reportStartDate d) (reportEndDate d)
         (accounts d) l.

(** [x || 0] on a number that may be absent. *)
Definition or_zero (x : option Q) : Q :=
  match x with
  | Some q => if Qeq_bool q 0 then 0%Q else q
  | None => 0%Q
  end.

Definition Qgtb (a b : Q) : bool := negb (Qle_bool a b).

(** [list.reduce((acc, t) => acc + t.amount, 0)] *)
Definition reduce_amount (l : list Tx.t) : Q :=
  fold_left (fun acc t => (acc + Tx.amount t)%Q) l 0%Q.

(** ** The Store *)

Section Store.

Variable tz : Z.
Variable randomUUID : nat -> string.

Definition year_is (year : Z) (text : DateString) : bool :=
  match new_Date tz text with
  | Some d => getFullYear d =? year
  | None => false
  end.

Definition month_is (month : Z) (text : DateString) : bool :=
  match new_Date tz text with
  | Some d => getMonth d =? month
  | None => false
  end.

(** What [save] does to the store: the five collections go to
    [localStorage].  The re-rendering of the current view that ends [save]
    changes nothing more; it can raise, which [Page.save] below embeds.  The
    functions of this part give the store that a call leaves whether the
    re-rendering at its end returns or raises. *)
Definition save (w : World) : World :=
  let d := data w in
  mkWorld d
    (mkStorage (Some (transactions d)) (Some (customCategories d))
               (Some (homeCategories d)) (Some (accounts d)) (Some (recurring d)))
    (drawn w) (now w).

Definition push_transaction (w : World) (t : Tx.t) : World :=
  mkWorld (set_transactions (data w) (transactions (data w) ++ [t])%list)
          (localStorage w) (drawn w) (now w).

Definition draw (w : World) : World :=
  mkWorld (data w) (localStorage w) (S (drawn w)) (now w).

Definition addTransaction (t : Tx.t) (w : World) : World :=
  let t' := Tx.mk (randomUUID (drawn w)) (ISOString (now w)) (Tx.type t) (Tx.amount t)
                  (Tx.description t) (Tx.category t) (Tx.date t) (Tx.accountId t)
                  (Tx.isHomeExpense t) (Tx.isPaid t) (Tx.recurringId t)
                  (Tx.installmentId t) (Tx.isReminder t) in
  save (push_transaction (draw w) t').

(** The test of [ensureRecurringForMonth] for "this rule already has its
    transaction in this month of this year". *)
Definition materialized_in (ruleId : string) (month year : Z) (t : Tx.t) : bool :=
  opt_is (Tx.recurringId t) ruleId
  && month_is month (Tx.date t)
  && year_is year (Tx.date t).

(** The date given to a new materialization: [rule.day] of the month, and
    when that lands in another month, day 0 of the month it landed in. *)
Definition materialization_date (year month day : Z) : Date :=
  let newDate := Date_of_fields year month (if day =? 0 then 10 else day) 12 0 0 in
  if negb (getMonth newDate =? month) then setDate newDate 0 else newDate.

(** The body of the [forEach] over the rules. *)
Definition materialize_rule (month year : Z) (w : World) (rule : Rule.t) : World :=
  if negb (Rule.active rule) then w
  else if existsb (materialized_in (Rule.id rule) month year) (transactions (data w)) then w
  else
    let newDate := materialization_date year month (Rule.day rule) in
    let isReminder := (Rule.type rule =? "reminder")%string in
    push_transaction (draw w)
      (Tx.mk (randomUUID (drawn w)) (ISOString (now w)) "expense"
             (if isReminder then 0%Q else Rule.amount rule)
             (Some (Rule.title rule)) (Some (Rule.category rule))
             (ISOString newDate) None true false (Some (Rule.id rule)) None isReminder).

(** With an Invalid Date as target no transaction ever matches, and the
    first active rule fails in [toISOString] after its identifier was drawn. *)
Definition ensureRecurringForMonth (monthDateStr : DateString) (w : World) : Completion World :=
  match new_Date tz monthDateStr with
  | Some dateObj =>
      let month := getMonth dateObj in
      let year := getFullYear dateObj in
      Normal (save (fold_left (materialize_rule month year) (recurring (data w)) w))
  | None =>
      if existsb Rule.active (recurring (data w))
      then Throw "RangeError: Invalid time value" (draw w)
      else Normal (save w)
  end.

Record LimitStatus : Type := mkLimit
  { total : Q;
    limitSafe : Q;
    limitMax : Q;
    status : string;
    percent : Q }.

Definition find_account (accountId : string) (w : World) : option Acc.t :=
  find (fun a => (Acc.id a =? accountId)%string) (accounts (data w)).

Definition limit_status (total limitSafe limitMax : Q) : string :=
  if Qgtb total limitMax then "critical"
  else if Qgtb total limitSafe then "warning"
  else "safe".

Definition getAccountLimitStatus (accountId : string) (w : World) : option LimitStatus :=
  match find_account accountId w with
  | None => None
  | Some account =>
      if negb (Acc.type account =? "mei")%string then None
      else
        let currentYear := getFullYear (now w) in
        let yearIncome :=
          reduce_amount
            (filter (fun t => opt_is (Tx.accountId t) accountId
                              && (Tx.type t =? "income")%string
                              && year_is currentYear (Tx.date t))
                    (transactions (data w))) in
        let total := (or_zero (Acc.initialBalance account) + yearIncome)%Q in
        let limitSafe := 81000%Q in
        let limitMax := 97200%Q in
        Some (mkLimit total limitSafe limitMax (limit_status total limitSafe limitMax)
                      ((total / limitSafe) * 100)%Q)
  end.

Definition getAccountMonthlyStatus (accountId : string) (w : World) : option LimitStatus :=
  match find_account accountId w with
  | None => None
  | Some account =>
      if negb (Acc.type account =? "mei")%string then None
      else
        let currentMonth := getMonth (now w) in
        let currentYear := getFullYear (now w) in
        let monthIncome :=
          reduce_amount
            (filter (fun t => opt_is (Tx.accountId t) accountId
                              && (Tx.type t =? "income")%string
                              && month_is currentMonth (Tx.date t)
                              && year_is currentYear (Tx.date t))
                    (transactions (data w))) in
        let limitSafe := 6750%Q in
        let limitMax := 8100%Q in
        Some (mkLimit monthIncome limitSafe limitMax
                      (limit_status monthIncome limitSafe limitMax)
                      ((monthIncome / limitSafe) * 100)%Q)
  end.

Definition getAccountBalance (accountId : string) (w : World) : Q :=
  match find_account accountId w with
  | None => 0%Q
  | Some account =>
      let income :=
        reduce_amount
          (filter (fun t => opt_is (Tx.accountId t) accountId && (Tx.type t =? "income")%string)
                  (transactions (data w))) in
      let expenses :=
        reduce_amount
          (filter (fun t => opt_is (Tx.accountId t) accountId && (Tx.type t =? "expense")%string)
                  (transactions (data w))) in
      (or_zero (Acc.initialBalance account) + income - expenses)%Q
  end.

(** Comparisons with an Invalid Date are false. *)
Definition isWithinRange (dateStr startStr endStr : DateString) : bool :=
  match new_Date tz dateStr, new_Date tz startStr, new_Date tz endStr with
  | Some d, Some start0, Some end0 =>
      let start := setHours start0 0 0 0 0 in
      let end_ := setHours end0 23 59 59 999 in
      Date_leb start d && Date_leb d end_
  | _, _, _ => false
  end.

End Store.

(** ** The report view: [groupByCat] *)

(** What the object [map] of [groupByCat] comes to hold under a label: a
    number, or, once the label is a name that every object inherits, a
    text: the text of the inherited member followed by the amounts added to
    it, which is no numeral and not empty. *)
Inductive MapValue : Type :=
| Number (q : Q)
| NotANumber
| Text.

(** The own properties of [map], in the order in which they were created. *)
Definition PropertyMap : Type := list (string * MapValue).

Fixpoint get_property (m : PropertyMap) (key : string) : option MapValue :=
  match m with
  | [] => None
  | (k, v) :: rest => if (k =? key)%string then Some v else get_property rest key
  end.

(** Assignment keeps the place of a property that exists and appends a new one. *)
Fixpoint set_property (m : PropertyMap) (key : string) (v : MapValue) : PropertyMap :=
  match m with
  | [] => [(key, v)]
  | (k, v') :: rest =>
      if (k =? key)%string then (k, v) :: rest else (k, v') :: set_property rest key v
  end.

(** The names that the object [{}] inherits from [Object.prototype]. *)
Definition inherited (key : string) : bool :=
  existsb (String.eqb key)
    ["__proto__"; "constructor"; "hasOwnProperty"; "isPrototypeOf";
     "propertyIsEnumerable"; "toLocaleString"; "toString"; "valueOf";
     "__defineGetter__"; "__defineSetter__"; "__lookupGetter__"; "__lookupSetter__"].

(** [map[key]]: an own property, else a member of [Object.prototype] (a
    function, or the prototype itself for [__proto__]), else [undefined]. *)
Inductive Reading : Type :=
| Own (v : MapValue)
| Member
| Undefined.

Definition read (m : PropertyMap) (key : string) : Reading :=
  match get_property m key with
  | Some v => Own v
  | None => if inherited key then Member else Undefined
  end.

(** [!map[key]] *)
Definition falsy (r : Reading) : bool :=
  match r with
  | Own (Number q) => Qeq_bool q 0
  | Own NotANumber => true
  | Own Text => false
  | Member => false
  | Undefined => true
  end.

(** [map[key] = v] for a number or a text [v]: an own property is written,
    except under [__proto__], whose setter drops a value that is no object. *)
Definition assign_property (m : PropertyMap) (key : string) (v : MapValue) : PropertyMap :=
  if (key =? "__proto__")%string then m else set_property m key v.

(** [map[key] + amount]: a sum of numbers, or a text once a text, a function
    or an object is the left operand. *)
Definition plus (r : Reading) (amount : Q) : MapValue :=
  match r with
  | Own (Number q) => Number (q + amount)
  | Own NotANumber => NotANumber
  | Own Text => Text
  | Member => Text
  | Undefined => NotANumber
  end.

(** [!x] for a number that may be absent or [NaN]. *)
Definition falsy_number (v : option Q) : bool :=
  match v with
  | None => true
  | Some q => Qeq_bool q 0
  end.

Definition digit_value (c : ascii) : option N :=
  let n := N_of_ascii c in
  if ((48 <=? n) && (n <=? 57))%N then Some (n - 48)%N else None.

Fixpoint digits_value (acc : N) (s : string) : option N :=
  match s with
  | EmptyString => Some acc
  | String c rest =>
      match digit_value c with
      | Some d => digits_value (10 * acc + d)%N rest
      | None => None
      end
  end.

(** A property name is an array index when it is the canonical decimal text
    of an integer from 0 to 2^32 - 2. *)
Definition array_index (s : string) : option N :=
  match s with
  | EmptyString => None
  | String c rest =>
      if (c =? "0")%char
      then match rest with EmptyString => Some 0%N | _ => None end
      else match digits_value 0 s with
           | Some v => if (v <=? 4294967294)%N then Some v else None
           | None => None
           end
  end.

Definition is_array_index (p : string * MapValue) : bool :=
  match array_index (fst p) with Some _ => true | None => false end.

Definition index_of (p : string * MapValue) : N :=
  match array_index (fst p) with Some n => n | None => 0%N end.

Fixpoint insert_by_index (p : string * MapValue) (l : list (string * MapValue))
  : list (string * MapValue) :=
  match l with
  | [] => [p]
  | q :: rest =>
      if (index_of p <=? index_of q)%N then p :: q :: rest
      else q :: insert_by_index p rest
  end.

(** [Object.entries]: array-index names first, in ascending numeric order,
    then the other names in creation order. *)
Definition Object_entries (m : PropertyMap) : list (string * MapValue) :=
  (fold_right insert_by_index [] (filter is_array_index m)
   ++ filter (fun p => negb (is_array_index p)) m)%list.

(** [Array.prototype.sort] with a comparator: the stable rearrangement.  An
    element goes in front of the first one that the comparator puts after it. *)
Fixpoint sort_insert {A : Type} (cmp : A -> A -> Q) (x : A) (l : list A) : list A :=
  match l with
  | [] => [x]
  | y :: rest =>
      if Qgtb (cmp y x) 0 then x :: y :: rest else y :: sort_insert cmp x rest
  end.

Definition Array_sort {A : Type} (cmp : A -> A -> Q) (l : list A) : list A :=
  fold_left (fun sorted x => sort_insert cmp x sorted) l [].

(** [(a, b) => b[1] - a[1]] as the sort reads it: a difference that is
    [NaN], as every difference with a text is, counts as +0.  (With a text
    among the values the comparator is not consistent and the order of the
    result is the engine's own; the order given here is then one of the
    orders that the standard allows.) *)
Definition compare_entries (a b : string * MapValue) : Q :=
  match snd b, snd a with
  | Number y, Number x => (y - x)%Q
  | _, _ => 0%Q
  end.

Module Group.
(** [percent] is [None] when it is [NaN]. *)
Record t : Type := mk { name : string; val : MapValue; percent : option Q }.
End Group.

(** [t.category || 'Outros'] *)
Definition category_label (t : Tx.t) : string :=
  match Tx.category t with
  | Some c => if (c =? "")%string then "Outros" else c
  | None => "Outros"
  end.

(** The body of the [forEach] of [groupByCat], on the pair [(map, total)]. *)
Definition group_step (acc : PropertyMap * Q) (t : Tx.t) : PropertyMap * Q :=
  let '(map, total) := acc in
  let cat := category_label t in
  let map1 := if falsy (read map cat) then assign_property map cat (Number 0) else map in
  (assign_property map1 cat (plus (read map1 cat) (Tx.amount t)),
   (total + Tx.amount t)%Q).

Definition groupByCat (txs : list Tx.t) : list Group.t :=
  let '(map, total) := fold_left group_step txs ([], 0%Q) in
  List.map
    (fun entry : string * MapValue =>
       let '(name, val) := entry in
       Group.mk name val
         (if Qgtb total 0
          then match val with
               | Number q => Some (q / total * 100)%Q
               | _ => None
               end
          else Some 0%Q))
    (Array_sort compare_entries (Object_entries map)).

(** ** The household form: [submitHomeExpense] *)

(** What the handler reads from the form: [parseFloat] and [parseInt]
    results are [None] for [NaN]. *)
Record HomeForm : Type := mkForm
  { inp_home_type : string;
    inp_home_amount : option Q;
    inp_home_cat : string;
    inp_is_paid : bool;
    inp_recur_day : option Z;
    inp_remind_day : option Z;
    inp_install_qty : option Z;
    inp_install_mode : string }.

(** [parseInt(text) || fallback] *)
Definition int_or (v : option Z) (fallback : Z) : Z :=
  match v with
  | Some n => if n =? 0 then fallback else n
  | None => fallback
  end.

(** The decimal text of an integer inside a template literal. *)
Definition decimal (n : Z) : string := NilZero.string_of_int (Z.to_int n).

Section Actions.

Variable tz : Z.
Variable randomUUID : nat -> string.

(** The [i]-th turn of the installment loop. *)
Definition installment (category : string) (parcelValue : Q) (qty : Z) (isPaid : bool)
    (startYear startMonth day : Z) (groupId : string) (i : Z) : Tx.t :=
  let date := Date_of_fields startYear (startMonth + i) day 12 0 0 in
  Tx.mk "" NotADate "expense" parcelValue None
        (Some (category ++ " (" ++ decimal (i + 1) ++ "/" ++ decimal qty ++ ")"))
        (ISOString date) None true (if i =? 0 then isPaid else false)
        None (Some groupId) false.

End Actions.

(** ** The backup codec

    [loadBackupData] puts whatever [JSON.parse] returns in [Store.data], so
    this part of the store is embedded on untyped JSON values. *)

Module Backup.

Set Warnings "-register-all".

Inductive JSValue : Type :=
| JUndefined
| JNull
| JBool (b : bool)
| JNumber (q : Q)
| JString (s : string)
| JArray (items : list JSValue)
| JObject (props : list (string * JSValue)).

(** The value of a property of a parsed object, in which each name occurs once. *)
Fixpoint lookup (props : list (string * JSValue)) (key : string) : JSValue :=
  match props with
  | [] => JUndefined
  | (k, v) :: rest => if (k =? key)%string then v else lookup rest key
  end.

(** [v.key] for the names of the store's collections: reading a property of
    [null] or [undefined] raises (here [None]); numbers, booleans, strings
    and arrays have no property of these names. *)
Definition get (v : JSValue) (key : string) : option JSValue :=
  match v with
  | JUndefined | JNull => None
  | JObject props => Some (lookup props key)
  | _ => Some JUndefined
  end.

Definition truthy (v : JSValue) : bool :=
  match v with
  | JUndefined | JNull => false
  | JBool b => b
  | JNumber q => negb (Qeq_bool q 0)
  | JString s => negb (s =? "")%string
  | JArray _ | JObject _ => true
  end.

Record World : Type := mkWorld
  { data : JSValue;                        (* [Store.data] *)
    localStorage : list (string * string); (* key and stored text *)
    current : string }.                    (* [router.current] *)

Fixpoint setItem (storage : list (string * string)) (key text : string)
  : list (string * string) :=
  match storage with
  | [] => [(key, text)]
  | (k, v) :: rest =>
      if (k =? key)%string then (k, text) :: rest else (k, v) :: setItem rest key text
  end.

Section Codec.

Variable JSON_parse : string -> option JSValue.   (* [None]: SyntaxError *)
Variable JSON_stringify : JSValue -> string.

(** What the rest of a view does once the collection it starts from is an
    array: [true] when it returns, [false] when it raises. *)
Variable view_body : string -> JSValue -> bool.

(** [JSON.stringify(undefined)] is [undefined], which [setItem] stores as text. *)
Definition stored_text (v : JSValue) : string :=
  match v with
  | JUndefined => "undefined"
  | _ => JSON_stringify v
  end.

(** [router.renderResults]: [true] when the current view returns.  The work,
    home and report views start with [Store.data.transactions.filter], the
    account view with [Store.data.accounts.map]; on anything but an array
    that call raises a TypeError, and mapping the empty array runs no
    callback. *)
Definition renderResults (w : World) : bool :=
  let route := current w in
  if ((route =? "work") || (route =? "home") || (route =? "reports"))%string then
    match get (data w) "transactions" with
    | Some (JArray _) => view_body route (data w)
    | _ => false
    end
  else if (route =? "mei")%string then
    match get (data w) "accounts" with
    | Some (JArray []) => true
    | Some (JArray _) => view_body route (data w)
    | _ => false
    end
  else false.

Definition persist (d : JSValue) (storage : list (string * string))
  : option (list (string * string)) :=
  match get d "transactions", get d "customCategories", get d "homeCategories",
        get d "accounts", get d "recurring" with
  | Some t, Some c, Some h, Some a, Some r =>
      Some (setItem (setItem (setItem (setItem (setItem storage
              "st_transactions" (stored_text t))
              "st_customCategories" (stored_text c))
              "st_homeCategories" (stored_text h))
              "st_accounts" (stored_text a))
              "st_recurring" (stored_text r))
  | _, _, _, _, _ => None
  end.

Definition save (w : World) : Completion World :=
  match persist (data w) (localStorage w) with
  | None => Throw "TypeError" w
  | Some storage =>
      let w' := mkWorld (data w) storage (current w) in
      if renderResults w' then Normal w' else Throw "TypeError" w'
  end.

Definition getBackupData (w : World) : string := JSON_stringify (data w).

(** The result and the world that the call leaves.  Every exception inside
    the [try] block ends in [return false]. *)
Definition loadBackupData (jsonString : string) (w : World) : bool * World :=
  match JSON_parse jsonString with
  | None => (false, w)
  | Some parsed =>
      match get parsed "transactions", get parsed "accounts" with
      | Some t, Some a =>
          if negb (truthy t) || negb (truthy a) then (false, w)
          else match save (mkWorld parsed (localStorage w) (current w)) with
               | Normal w' => (true, w')
               | Throw _ w' => (false, w')
               end
      | _, _ => (false, w)
      end
  end.

End Codec.

End Backup.

(** ** The rest of the Store *)

Definition set_accounts (d : StoreData) (l : list Acc.t) : StoreData :=
  mkData (transactions d) (customCategories d) (homeCategories d) (selectedDate d)
         (selectedMonth d) (reportFilter d) (reportStartDate d) (reportEndDate d)
         l (recurring d).

Definition set_customCategories (d : StoreData) (l : list string) : StoreData :=
  mkData (transactions d) l (homeCategories d) (selectedDate d)
         (selectedMonth d) (reportFilter d) (reportStartDate d) (reportEndDate d)
         (accounts d) (recurring d).

Definition set_selectedDate (d : StoreData) (text : DateString) : StoreData :=
  mkData (transactions d) (customCategories d) (homeCategories d) text
         (selectedMonth d) (reportFilter d) (reportStartDate d) (reportEndDate d)
         (accounts d) (recurring d).

Definition set_selectedMonth (d : StoreData) (text : DateString) : StoreData :=
  mkData (transactions d) (customCategories d) (homeCategories d) (selectedDate d)
         text (reportFilter d) (reportStartDate d) (reportEndDate d)
         (accounts d) (recurring d).

Definition set_report (d : StoreData) (filter : string) (startText endText : DateString)
  : StoreData :=
  mkData (transactions d) (customCategories d) (homeCategories d) (selectedDate d)
         (selectedMonth d) filter startText endText (accounts d) (recurring d).

Definition with_data (w : World) (d : StoreData) : World :=
  mkWorld d (localStorage w) (drawn w) (now w).

(** [array.findIndex(p)]; [None] is -1. *)
Fixpoint findIndex {A : Type} (p : A -> bool) (l : list A) : option nat :=
  match l with
  | [] => None
  | x :: rest => if p x then Some O else option_map S (findIndex p rest)
  end.

(** [array[index] = x] for an index that [findIndex] returned, which lies
    inside the array. *)
Fixpoint assign {A : Type} (l : list A) (index : nat) (x : A) : list A :=
  match l, index with
  | [], _ => []
  | _ :: rest, O => x :: rest
  | y :: rest, S i => y :: assign rest i x
  end.

(** The object passed as [updates]: a key that is not in it is [None]. *)
Module TxPatch.
Record t : Type := mk
  { id : option string;
    createdAt : option DateString;
    type : option string;
    amount : option Q;
    description : option (option string);
    category : option (option string);
    date : option DateString;
    accountId : option (option string);
    isHomeExpense : option bool;
    isPaid : option bool;
    recurringId : option (option string);
    installmentId : option (option string);
    isReminder : option bool }.
End TxPatch.

Module AccPatch.
Record t : Type := mk
  { id : option string;
    name : option string;
    type : option string;
    initialBalance : option (option Q) }.
End AccPatch.

Definition pick {A : Type} (update : option A) (old : A) : A :=
  match update with
  | Some v => v
  | None => old
  end.

(** [{ ...old, ...updates }] *)
Definition merge_transaction (old : Tx.t) (updates : TxPatch.t) : Tx.t :=
  Tx.mk (pick (TxPatch.id updates) (Tx.id old))
        (pick (TxPatch.createdAt updates) (Tx.createdAt old))
        (pick (TxPatch.type updates) (Tx.type old))
        (pick (TxPatch.amount updates) (Tx.amount old))
        (pick (TxPatch.description updates) (Tx.description old))
        (pick (TxPatch.category updates) (Tx.category old))
        (pick (TxPatch.date updates) (Tx.date old))
        (pick (TxPatch.accountId updates) (Tx.accountId old))
        (pick (TxPatch.isHomeExpense updates) (Tx.isHomeExpense old))
        (pick (TxPatch.isPaid updates) (Tx.isPaid old))
        (pick (TxPatch.recurringId updates) (Tx.recurringId old))
        (pick (TxPatch.installmentId updates) (Tx.installmentId old))
        (pick (TxPatch.isReminder updates) (Tx.isReminder old)).

Definition merge_account (old : Acc.t) (updates : AccPatch.t) : Acc.t :=
  Acc.mk (pick (AccPatch.id updates) (Acc.id old))
         (pick (AccPatch.name updates) (Acc.name old))
         (pick (AccPatch.type updates) (Acc.type old))
         (pick (AccPatch.initialBalance updates) (Acc.initialBalance old)).

(** The empty [updates] object, to be filled key by key. *)
Definition no_updates : TxPatch.t :=
  TxPatch.mk None None None None None None None None None None None None None.

Definition updateTransaction (id : string) (updates : TxPatch.t) (w : World) : World :=
  let txs := transactions (data w) in
  match findIndex (fun t => (Tx.id t =? id)%string) txs with
  | Some index =>
      match nth_error txs index with
      | Some old =>
          save (with_data w (set_transactions (data w)
                               (assign txs index (merge_transaction old updates))))
      | None => w
      end
  | None => w
  end.

Definition updateAccount (id : string) (updates : AccPatch.t) (w : World) : World :=
  let accs := accounts (data w) in
  match findIndex (fun a => (Acc.id a =? id)%string) accs with
  | Some idx =>
      match nth_error accs idx with
      | Some old =>
          save (with_data w (set_accounts (data w)
                               (assign accs idx (merge_account old updates))))
      | None => w
      end
  | None => w
  end.

Definition deleteAccount (id : string) (w : World) : World :=
  save (with_data w (set_accounts (data w)
                       (filter (fun a => negb (Acc.id a =? id)%string) (accounts (data w))))).

Definition deleteRecurring (id : string) (w : World) : World :=
  save (with_data w (set_recurring (data w)
                       (filter (fun r => negb (Rule.id r =? id)%string) (recurring (data w))))).

(** [array.includes(name)] *)
Definition includes (l : list string) (name : string) : bool :=
  existsb (fun x => (x =? name)%string) l.

Definition addCustomCategory (name : string) (w : World) : World :=
  if negb (includes (customCategories (data w)) name)
  then save (with_data w (set_customCategories (data w)
                            (customCategories (data w) ++ [name])%list))
  else w.

Definition default_customCategories : list string :=
  ["Transporte"; "Alimentação"; "Hospedagem"].

Definition default_homeCategories : list string :=
  ["Água"; "Luz"; "Internet"; "Aluguel"; "Cartão de Crédito"].

Definition default_accounts : list Acc.t :=
  [Acc.mk "cash-1" "Dinheiro (Não Fiscal)" "cash" (Some 0%Q)].

Section StoreRest.

Variable tz : Z.
Variable randomUUID : nat -> string.

Definition addAccount (account : Acc.t) (w : World) : World :=
  let account' := Acc.mk (randomUUID (drawn w)) (Acc.name account) (Acc.type account)
                         (Acc.initialBalance account) in
  let w1 := draw w in
  save (with_data w1 (set_accounts (data w1) (accounts (data w1) ++ [account'])%list)).

(** [date.toDateString()]: the text names the calendar day, so two texts
    are equal exactly when the days are; [None] is the text 'Invalid Date'. *)
Definition toDateString (d : option Date) : option (Z * Z * Z) :=
  match d with
  | Some d => Some (getFullYear d, getMonth d, getDate d)
  | None => None
  end.

Definition isSameDay (d1Str d2Str : DateString) : bool :=
  match toDateString (new_Date tz d1Str), toDateString (new_Date tz d2Str) with
  | Some (y1, m1, d1), Some (y2, m2, d2) => (y1 =? y2) && (m1 =? m2) && (d1 =? d2)
  | None, None => true
  | _, _ => false
  end.

Definition isSameMonth (d1Str d2Str : DateString) : bool :=
  match new_Date tz d1Str, new_Date tz d2Str with
  | Some d1, Some d2 =>
      (getMonth d1 =? getMonth d2) && (getFullYear d1 =? getFullYear d2)
  | _, _ => false
  end.

(** [date.toISOString().split('T')[0]]: the calendar day that the instant
    has in UTC, [tz] minutes behind the host's clock; [tz] is the offset in
    force at the date. *)
Definition iso_date_part (d : Date) : DateString :=
  let utc := MakeDate (getFullYear d) (getMonth d) (getDate d)
                      (getTimeInDay d - tz * 60000) in
  DateOnly (getFullYear utc) (getMonth utc) (getDate utc).

(** [init], on a store object that holds [data w] when it is called: the
    store that the start of the page leaves on a host that keeps the one
    offset [tz].  On a page without saved accounts that is so when the
    re-rendering at the end of the [save] of the default account returns;
    [Page.init] has the call with that re-rendering, and with the offsets in
    force at the two days that it writes. *)
Definition init (w : World) : Completion World :=
  let ls := localStorage w in
  let d := data w in
  let d1 := set_transactions d (pick (st_transactions ls) (transactions d)) in
  let d2 := set_customCategories d1 (pick (st_customCategories ls) (customCategories d1)) in
  let d3 := mkData (transactions d2) (customCategories d2)
                   (pick (st_homeCategories ls) (homeCategories d2))
                   (selectedDate d2) (selectedMonth d2) (reportFilter d2)
                   (reportStartDate d2) (reportEndDate d2) (accounts d2) (recurring d2) in
  let d4 := set_recurring d3 (pick (st_recurring ls) (recurring d3)) in
  let w1 :=
    match st_accounts ls with
    | Some saved => with_data w (set_accounts d4 saved)
    | None => save (with_data w (set_accounts d4 default_accounts))
    end in
  let firstDay := Date_of_fields (getFullYear (now w)) (getMonth (now w)) 1 0 0 0 in
  let lastDay := Date_of_fields (getFullYear (now w)) (getMonth (now w) + 1) 0 0 0 0 in
  let w2 := with_data w1 (set_report (data w1) (reportFilter (data w1))
                            (iso_date_part firstDay) (iso_date_part lastDay)) in
  ensureRecurringForMonth tz randomUUID (selectedMonth (data w2)) w2.

(** [clearAllData], up to the reload of the page: [this.data.recurring] is
    not among the collections that are emptied.  The re-renderings inside it
    are on a store without business transactions, on which the views
    return. *)
Definition clearAllData (w : World) : Completion World :=
  let d := data w in
  let cleared :=
    mkData [] default_customCategories default_homeCategories (selectedDate d)
           (selectedMonth d) (reportFilter d) (reportStartDate d) (reportEndDate d)
           [] (recurring d) in
  match init (mkWorld cleared (mkStorage None None None None None) (drawn w) (now w)) with
  | Normal w' => Normal (save w')
  | Throw e w' => Throw e w'
  end.

End StoreRest.

(** ** The actions

    The handlers of this part change the store and then re-render once, at
    their end, directly or through [save]: they are embedded as the change
    of the store, which is the same whether that re-rendering returns or
    raises.  The handlers that re-render before their end are in [Page]. *)

(** Days since 1 January 1970 of a calendar day, and the day of the week
    (0 is Sunday). *)
Definition day_number (year month date : Z) : Z :=
  let y := if month <? 2 then year - 1 else year in
  let era := y / 400 in
  let yoe := y - era * 400 in
  let doy := (153 * (if month <? 2 then month + 10 else month - 2) + 2) / 5 + date - 1 in
  era * 146097 + (yoe * 365 + yoe / 4 - yoe / 100 + doy) - 719468.

Definition getDay (d : Date) : Z :=
  (day_number (getFullYear d) (getMonth d) (getDate d) + 4) mod 7.

(** [date.setMonth(month)] and [date.setMonth(month, date)] *)
Definition setMonth (this : Date) (month : Z) : Date :=
  MakeDate (getFullYear this) month (getDate this) (getTimeInDay this).

Definition setMonthDate (this : Date) (month date : Z) : Date :=
  MakeDate (getFullYear this) month date (getTimeInDay this).

(** The fields of the income and of the expense form, and of the account
    form ([acc_initial] is [parseFloat] of the field, or of 0 when the field
    is empty). *)
Record IncomeForm : Type := mkIncomeForm
  { inp_amount : option Q;
    inp_desc : string;
    inp_account : string }.

Record ExpenseForm : Type := mkExpenseForm
  { inp_exp_amount : option Q;
    inp_category : string;
    inp_exp_account : string;
    inp_new_cat : string }.

Record AccountForm : Type := mkAccountForm
  { acc_name : string;
    acc_initial : option Q }.

(** [text || fallback] *)
Definition text_or (text fallback : string) : string :=
  if (text =? "")%string then fallback else text.

Section MoreActions.

Variable tz : Z.
Variable randomUUID : nat -> string.

(** The offset, in minutes ahead of UTC, with which the host turns a
    reading of its clock into an instant: the offset in force at that date
    and time.  On a host without daylight saving time it is the same at
    every date. *)
Variable zone : Date -> Z.

(** [setReportFilter], up to the re-rendering at its end.  The two days are
    written with [toISOString], each at the offset in force at its date. *)
Definition setReportFilter (type : string) (w : World) : World :=
  let now := now w in
  let (start, end_) :=
    if (type =? "weekly")%string then
      let diff := getDate now - getDay now in
      (setDate now diff, setDate now (diff + 6))
    else if (type =? "monthly")%string then
      (setDate now 1, setMonthDate now (getMonth now + 1) 0)
    else if (type =? "yearly")%string then
      (setMonthDate now 0 1, setMonthDate now 11 31)
    else (now, now) in
  if negb (type =? "custom")%string
  then with_data w (set_report (data w) type (iso_date_part (zone start) start)
                      (iso_date_part (zone end_) end_))
  else with_data w (set_report (data w) type (reportStartDate (data w))
                      (reportEndDate (data w))).

Definition changeReportDate (field : string) (value : DateString) (w : World) : World :=
  let d := data w in
  let start := if (field =? "start")%string then value else reportStartDate d in
  let end_ := if (field =? "end")%string then value else reportEndDate d in
  with_data w (set_report d (reportFilter d) start end_).

Definition togglePaid (id : string) (w : World) : World :=
  match find (fun item => (Tx.id item =? id)%string) (transactions (data w)) with
  | Some t =>
      updateTransaction id
        (TxPatch.mk None None None None None None None None None
                    (Some (negb (Tx.isPaid t))) None None None) w
  | None => w
  end.

(** [updateReminder]: [inp_update_amount] is what [parseFloat] returned. *)
Definition updateReminder (inp_update_amount : option Q) (id : string) (w : World) : World :=
  if falsy_number inp_update_amount then w
  else
    let amount := match inp_update_amount with Some a => a | None => 0%Q end in
    updateTransaction id
      (TxPatch.mk None None None (Some amount) None None None None None
                  (Some false) None None (Some false)) w.

(** [createAccount]: the registration number and the description, which no
    function of the store reads, are not carried by [Acc.t]. *)
Definition createAccount (form : AccountForm) (w : World) : World :=
  if (acc_name form =? "")%string then w
  else addAccount randomUUID (Acc.mk "" (acc_name form) "mei" (acc_initial form)) w.

(** [submitIncome]: [confirmed] is the answer to the one dialog that the
    handler may open. *)
Definition submitIncome (confirmed : bool) (form : IncomeForm) (w : World) : World :=
  let accountId := inp_account form in
  if falsy_number (inp_amount form) || (accountId =? "")%string then w
  else
    let amount := match inp_amount form with Some a => a | None => 0%Q end in
    let t := Tx.mk "" NotADate "income" amount (Some (text_or (inp_desc form) "Venda")) None
                   (selectedDate (data w)) (Some accountId) false false None None false in
    match find_account accountId w with
    | Some account =>
        if (Acc.type account =? "mei")%string then
          match getAccountMonthlyStatus tz accountId w with
          | Some monthlyStatus =>
              let newMonthlyTotal := (total monthlyStatus + amount)%Q in
              if Qgtb newMonthlyTotal (limitMax monthlyStatus)
                 || Qgtb newMonthlyTotal (limitSafe monthlyStatus)
                 || Qle_bool (9 # 10) (newMonthlyTotal / limitSafe monthlyStatus)
              then (if confirmed then addTransaction randomUUID t w else w)
              else addTransaction randomUUID t w
          | None => w
          end
        else addTransaction randomUUID t w
    | None => addTransaction randomUUID t w
    end.

(** ** The figures of the views *)

(** The work view: the business transactions of the selected day. *)
Definition work_daily (w : World) : list Tx.t :=
  filter (fun t => negb (Tx.isHomeExpense t)
                   && isSameDay tz (Tx.date t) (selectedDate (data w)))
         (transactions (data w)).

Definition work_income (w : World) : Q :=
  reduce_amount (filter (fun t => (Tx.type t =? "income")%string) (work_daily w)).

Definition work_expense (w : World) : Q :=
  reduce_amount (filter (fun t => (Tx.type t =? "expense")%string) (work_daily w)).

Definition work_balance (w : World) : Q := (work_income w - work_expense w)%Q.

(** The home view: the household transactions of the selected month. *)
Definition home_monthly (w : World) : list Tx.t :=
  filter (fun t => Tx.isHomeExpense t
                   && isSameMonth tz (Tx.date t) (selectedMonth (data w)))
         (transactions (data w)).

Definition home_total (w : World) : Q := reduce_amount (home_monthly w).

(** The report view. *)
Definition report_filtered (w : World) : list Tx.t :=
  filter (fun t => isWithinRange tz (Tx.date t) (reportStartDate (data w))
                     (reportEndDate (data w)))
         (transactions (data w)).

Definition workTransactions (w : World) : list Tx.t :=
  filter (fun t => negb (Tx.isHomeExpense t)) (report_filtered w).

Definition homeTransactions (w : World) : list Tx.t :=
  filter Tx.isHomeExpense (report_filtered w).

Definition workIncome (w : World) : Q :=
  reduce_amount (filter (fun t => (Tx.type t =? "income")%string) (workTransactions w)).

Definition workExpense (w : World) : Q :=
  reduce_amount (filter (fun t => (Tx.type t =? "expense")%string) (workTransactions w)).

Definition homeCost (w : World) : Q := reduce_amount (homeTransactions w).

Definition workProfit (w : World) : Q := (workIncome w - workExpense w)%Q.

Definition totalBalance (w : World) : Q := (workProfit w - homeCost w)%Q.

Definition workExpGroups (w : World) : list Group.t :=
  groupByCat (filter (fun t => (Tx.type t =? "expense")%string) (workTransactions w)).

Definition homeGroups (w : World) : list Group.t := groupByCat (homeTransactions w).

End MoreActions.

(** ** The calls of the page, with the re-rendering

    [save] ends in [router.renderResults()], and so do the handlers that
    move the selection.  The functions above give the store that a call
    leaves; the calls of this part are the calls as the page makes them: the
    re-rendering of the current view can raise, and that ends the handler
    that is running. *)

Definition and_then {S : Type} (c : Completion S) (f : S -> Completion S) : Completion S :=
  match c with
  | Normal s => f s
  | Throw e s => Throw e s
  end.

Module Page.

Section Page.

Variable tz : Z.
Variable randomUUID : nat -> string.

(** [router.current]; no call of this part changes it. *)
Variable current : string.

(** The offset in force at a date and time of the host's clock. *)
Variable zone : Date -> Z.

(** [Views.work] reads [t.category.substring] of every business expense of
    the selected day and raises a TypeError on one that has no category.
    Nothing else that the four views read can be missing from the typed
    store: an Invalid Date is rendered as a text, and the home, report and
    account views call no method of a property that may be absent. *)
Definition work_returns (w : World) : bool :=
  forallb (fun t => negb (Tx.type t =? "expense")%string
                    || match Tx.category t with Some _ => true | None => false end)
          (work_daily tz w).

(** [Views[this.current]()] returns; a route that is no view raises. *)
Definition view_returns (w : World) : bool :=
  if (current =? "work")%string then work_returns w
  else (current =? "home")%string || (current =? "reports")%string
       || (current =? "mei")%string.

Definition renderResults (w : World) : Completion World :=
  if view_returns w then Normal w else Throw "TypeError" w.

Definition save (w : World) : Completion World := renderResults (save w).

Definition addTransaction (t : Tx.t) (w : World) : Completion World :=
  renderResults (addTransaction randomUUID t w).

Definition ensureRecurringForMonth (monthDateStr : DateString) (w : World)
  : Completion World :=
  and_then (ensureRecurringForMonth tz randomUUID monthDateStr w) renderResults.

Definition addRecurring (item : Rule.t) (w : World) : Completion World :=
  let rule := Rule.mk (randomUUID (drawn w)) (Rule.title item) (Rule.category item)
                      (Rule.amount item) (Rule.day item) (Rule.type item) true in
  let w1 := draw w in
  let w2 := mkWorld (set_recurring (data w1) (recurring (data w1) ++ [rule])%list)
                    (localStorage w1) (drawn w1) (now w1) in
  and_then (save w2) (fun w3 => ensureRecurringForMonth (selectedMonth (data w3)) w3).

Definition addCustomCategory (name : string) (w : World) : Completion World :=
  if negb (includes (customCategories (data w)) name)
  then save (with_data w (set_customCategories (data w)
                            (customCategories (data w) ++ [name])%list))
  else Normal w.

(** [init], on a store object that holds [data w] when it is called. *)
Definition init (w : World) : Completion World :=
  let ls := localStorage w in
  let d := data w in
  let d1 := set_transactions d (pick (st_transactions ls) (transactions d)) in
  let d2 := set_customCategories d1 (pick (st_customCategories ls) (customCategories d1)) in
  let d3 := mkData (transactions d2) (customCategories d2)
                   (pick (st_homeCategories ls) (homeCategories d2))
                   (selectedDate d2) (selectedMonth d2) (reportFilter d2)
                   (reportStartDate d2) (reportEndDate d2) (accounts d2) (recurring d2) in
  let d4 := set_recurring d3 (pick (st_recurring ls) (recurring d3)) in
  and_then
    match st_accounts ls with
    | Some saved => Normal (with_data w (set_accounts d4 saved))
    | None => save (with_data w (set_accounts d4 default_accounts))
    end
    (fun w1 =>
       let firstDay := Date_of_fields (getFullYear (now w)) (getMonth (now w)) 1 0 0 0 in
       let lastDay := Date_of_fields (getFullYear (now w)) (getMonth (now w) + 1) 0 0 0 0 in
       let w2 := with_data w1 (set_report (data w1) (reportFilter (data w1))
                                 (iso_date_part (zone firstDay) firstDay)
                                 (iso_date_part (zone lastDay) lastDay)) in
       ensureRecurringForMonth (selectedMonth (data w2)) w2).

Definition changeDate (delta : Z) (w : World) : Completion World :=
  match new_Date tz (selectedDate (data w)) with
  | Some d =>
      renderResults (with_data w (set_selectedDate (data w)
                                    (ISOString (setDate d (getDate d + delta)))))
  | None => Throw "RangeError: Invalid time value" w
  end.

Definition changeMonth (delta : Z) (w : World) : Completion World :=
  match new_Date tz (selectedMonth (data w)) with
  | Some d =>
      let text := ISOString (setMonth d (getMonth d + delta)) in
      and_then (ensureRecurringForMonth text (with_data w (set_selectedMonth (data w) text)))
               renderResults
  | None => Throw "RangeError: Invalid time value" w
  end.

(** [Actions.deleteTransaction]: [confirmed] is the answer to the dialog. *)
Definition deleteTransaction (confirmed : bool) (id : string) (w : World)
  : Completion World :=
  if confirmed
  then save (with_data w (set_transactions (data w)
                            (filter (fun t => negb (Tx.id t =? id)%string)
                                    (transactions (data w)))))
  else Normal w.

Definition submitExpense (form : ExpenseForm) (w : World) : Completion World :=
  let newCat := inp_new_cat form in
  and_then (if (newCat =? "")%string then Normal w else addCustomCategory newCat w)
    (fun w1 =>
       let category := if (newCat =? "")%string then inp_category form else newCat in
       let accountId := inp_exp_account form in
       if falsy_number (inp_exp_amount form) || (accountId =? "")%string then Normal w1
       else
         let amount := match inp_exp_amount form with Some a => a | None => 0%Q end in
         addTransaction
           (Tx.mk "" NotADate "expense" amount None (Some (text_or category "Outros"))
                  (selectedDate (data w1)) (Some accountId) false false None None false) w1).

Definition submitHomeExpense (form : HomeForm) (w : World) : Completion World :=
  let type := inp_home_type form in
  let category := inp_home_cat form in
  let isPaid := inp_is_paid form in
  if negb (type =? "reminder")%string && falsy_number (inp_home_amount form) then Normal w
  else
    let amount := match inp_home_amount form with Some a => a | None => 0%Q end in
    if (type =? "recur")%string then
      let day := int_or (inp_recur_day form) 10 in
      addRecurring (Rule.mk "" category category amount day "fixed" false) w
    else if (type =? "reminder")%string then
      let day := int_or (inp_remind_day form) 10 in
      addRecurring (Rule.mk "" category category 0%Q day "reminder" false) w
    else if (type =? "install")%string then
      let qty := int_or (inp_install_qty form) 2 in
      let parcelValue :=
        if (inp_install_mode form =? "total")%string then (amount / inject_Z qty)%Q
        else amount in
      let groupId := randomUUID (drawn w) in
      let w1 := draw w in
      match new_Date tz (selectedMonth (data w)) with
      | Some baseDate =>
          let startMonth := getMonth baseDate in
          let startYear := getFullYear baseDate in
          let day := if 28 <? getDate baseDate then 1 else getDate baseDate in
          fold_left
            (fun c i =>
               and_then c
                 (addTransaction
                    (installment category parcelValue qty isPaid startYear startMonth day
                                 groupId i)))
            (List.map Z.of_nat (seq 0 (Z.to_nat qty))) (Normal w1)
      | None =>
          (* the first turn fails in [toISOString] of an Invalid Date *)
          if 0 <? qty then Throw "RangeError: Invalid time value" w1 else Normal w1
      end
    else
      addTransaction
        (Tx.mk "" NotADate "expense" amount None (Some category)
               (selectedMonth (data w)) None true isPaid None None false) w.

End Page.

End Page.

(** The world that a call leaves, whether it returned or raised. *)
Definition world_of (c : Completion World) : World :=
  match c with
  | Normal w => w
  | Throw _ w => w
  end.

(** Whether a call returned. *)
Definition returns (c : Completion World) : bool :=
  match c with
  | Normal _ => true
  | Throw _ _ => false
  end.

(** The transactions of the business: those that are no household expenses. *)
Definition business (w : World) : list Tx.t :=
  filter (fun t => negb (Tx.isHomeExpense t)) (transactions (data w)).

(** The account view: the colour of a limit bar. *)
Definition getBarColor (val safe max : Q) : string :=
  if Qgtb val max then "bg-red-600"
  else if Qgtb val safe then "bg-orange-500"
  else if Qgtb val (safe * (9 # 10)) then "bg-yellow-400"
  else "bg-green-500".

(** ** Vocabulary of the statements *)

(** The transactions of a list that count as the materialization of a rule
    in a month: the ones that the existence test of
    [ensureRecurringForMonth] accepts. *)
Definition materializations (tz : Z) (ruleId : string) (month year : Z)
    (txs : list Tx.t) : list Tx.t :=
  filter (materialized_in tz ruleId month year) txs.

Definition carries_rule (ruleId : string) (t : Tx.t) : bool :=
  opt_is (Tx.recurringId t) ruleId.

Definition noon : Z := 43200000.

(** The sum of the amounts of a list of transactions, as the specification
    writes it. *)
Definition sum_amounts (l : list Tx.t) : Q :=
  fold_right (fun t acc => (Tx.amount t + acc)%Q) 0%Q l.


(** Transactions of a kind ("income" or "expense") that carry an account. *)
Definition of_account (accountId kind : string) (t : Tx.t) : bool :=
  opt_is (Tx.accountId t) accountId && (Tx.type t =? kind)%string.


(** The calendar year and month (0 for January) in which a text dates a
    transaction, on the host's clock. *)
Definition calendar_month (tz : Z) (text : DateString) : option (Z * Z) :=
  match new_Date tz text with
  | Some d => Some (getFullYear d, getMonth d)
  | None => None
  end.

(** The calendar day that a text names on the host's clock. *)
Definition calendar_day (tz : Z) (text : DateString) : option (Z * Z * Z) :=
  match new_Date tz text with
  | Some d => Some (getFullYear d, getMonth d, getDate d)
  | None => None
  end.

(** The view on the page renders on a store: the route names one of the
    four views, and on the work view every business expense that is dated on
    the selected day has a category (an Invalid Date is the day of an
    Invalid Date). *)
Definition renders (tz : Z) (current : string) (w : World) : Prop :=
  In current ["work"; "home"; "reports"; "mei"]
  /\ (current = "work" ->
      forall t, In t (transactions (data w)) ->
                Tx.isHomeExpense t = false ->
                Tx.type t = "expense" ->
                calendar_day tz (Tx.date t) = calendar_day tz (selectedDate (data w)) ->
                Tx.category t <> None).

(** The bills of a rule in a month of a year: the transactions that carry
    the rule's identifier and are dated in that month. *)
Definition is_bill (tz : Z) (ruleId : string) (month year : Z) (t : Tx.t) : bool :=
  match Tx.recurringId t, calendar_month tz (Tx.date t) with
  | Some r, Some (y, m) => (r =? ruleId)%string && (m =? month) && (y =? year)
  | _, _ => false
  end.

Definition bills (tz : Z) (ruleId : string) (month year : Z) (txs : list Tx.t)
  : list Tx.t :=
  filter (is_bill tz ruleId month year) txs.


Definition received_in_month (tz : Z) (w : World) (t : Tx.t) : bool :=
  match calendar_month tz (Tx.date t) with
  | Some (y, m) => (y =? getFullYear (now w)) && (m =? getMonth (now w))
  | None => false
  end.


Definition income_of_month (tz : Z) (accountId : string) (w : World) : Q :=
  sum_amounts
    (filter (fun t => of_account accountId "income" t && received_in_month tz w t)
            (transactions (data w))).

(** The number that a map value is, 0 for a value that is no number; whether
    every value of a list of entries or of groups is a number is said apart. *)
Definition amount_of (v : MapValue) : Q :=
  match v with
  | Number q => q
  | _ => 0%Q
  end.

Definition is_number (v : MapValue) : Prop := exists q, v = Number q.

Definition percent_of (g : Group.t) : Q :=
  match Group.percent g with
  | Some p => p
  | None => 0%Q
  end.

(** Sums over the entries of a property map and over the groups of a report. *)
Definition sum_vals (l : list (string * MapValue)) : Q :=
  fold_right (fun p acc => (amount_of (snd p) + acc)%Q) 0%Q l.

Definition sum_totals (groups : list Group.t) : Q :=
  fold_right (fun g acc => (amount_of (Group.val g) + acc)%Q) 0%Q groups.

Definition sum_percents (groups : list Group.t) : Q :=
  fold_right (fun g acc => (percent_of g + acc)%Q) 0%Q groups.

(** The amount of the transactions that are reported under a label. *)
Definition label_total (label : string) (txs : list Tx.t) : Q :=
  sum_amounts (filter (fun t => (category_label t =? label)%string) txs).

(** A group stands before another only if its total is not smaller. *)
Definition descending (a b : Group.t) : Prop :=
  (amount_of (Group.val b) <= amount_of (Group.val a))%Q.

(** No transaction of the list is reported under a name that every object
    inherits. *)
Definition own_labels (txs : list Tx.t) : Prop :=
  Forall (fun t => inherited (category_label t) = false) txs.

(** What the map holds for each label after a run over [txs]. *)
Definition map_holds (m : PropertyMap) (txs : list Tx.t) : Prop :=
  forall label,
    match get_property m label with
    | Some v => is_number v /\ (amount_of v == label_total label txs)%Q
    | None => Forall (fun t => category_label t <> label) txs
    end.

(** Every value of a map is a number. *)
Definition numbers (m : PropertyMap) : Prop := Forall (fun p => is_number (snd p)) m.

(** The number that one turn of the loop adds the amount to: what [map[cat]]
    holds after [if (!map[cat]) map[cat] = 0], for a label of the map's own. *)
Definition held (m : PropertyMap) (k : string) : Q :=
  match get_property m k with
  | Some (Number q) => if Qeq_bool q 0 then 0%Q else q
  | _ => 0%Q
  end.

(** The order that a comparator asks for: [a] may stand before [b]. *)
Definition in_order {A : Type} (cmp : A -> A -> Q) (a b : A) : Prop := (cmp a b <= 0)%Q.

(** A transaction without the two fields that [addTransaction] assigns. *)
Definition payload (t : Tx.t) : Tx.t :=
  Tx.mk "" NotADate (Tx.type t) (Tx.amount t) (Tx.description t) (Tx.category t)
        (Tx.date t) (Tx.accountId t) (Tx.isHomeExpense t) (Tx.isPaid t)
        (Tx.recurringId t) (Tx.installmentId t) (Tx.isReminder t).

(** [localStorage.getItem] on the storage of the backup codec. *)
Fixpoint getItem (storage : list (string * string)) (key : string) : option string :=
  match storage with
  | [] => None
  | (k, v) :: rest => if (k =? key)%string then Some v else getItem rest key
  end.

(** The parsed blob has a truthy property of this name; [false] also for
    [null], whose properties cannot be read. *)
Definition has_collection (parsed : Backup.JSValue) (key : string) : bool :=
  match Backup.get parsed key with
  | Some v => Backup.truthy v
  | None => false
  end.

(** A day written by [toISOString().split('T')[0]] at [time] milliseconds
    after local midnight is the UTC day of that instant, and [new Date] reads
    the text as midnight UTC: the host, [tz] minutes ahead of UTC, reads the
    same day back when it is ahead of UTC by no more than [time], or behind
    UTC by so much that the UTC day is already the next one. *)
Definition reads_back_same_day (tz time : Z) : bool :=
  ((0 <=? tz * 60000) && (tz * 60000 <=? time))
  || ((tz * 60000 <? 0) && (msPerDay <=? time - tz * 60000)).

(** The number of the calendar day of a date. *)
Definition day_number_of (d : Date) : Z :=
  day_number (getFullYear d) (getMonth d) (getDate d).

(** The number of the day that a date-only text names. *)
Definition written_day (text : DateString) : option Z :=
  match text with
  | DateOnly y m d => Some (day_number y m d)
  | _ => None
  end.

(** By how many days the UTC day is after the day of the host's clock,
    [time] milliseconds after midnight on a clock that is [offset] minutes
    ahead of UTC. *)
Definition utc_days_off (offset time : Z) : Z := (time - offset * 60000) / msPerDay.

(** By how many days the day that the host reads back is after the day that
    it wrote as a UTC day: [written] is the offset in force at the date
    written, [read] the offset in force at the midnight UTC that the text
    denotes. *)
Definition days_off (written read time : Z) : Z :=
  utc_days_off written time + (read * 60000) / msPerDay.

(** ** The start of the page on the raw store

    [Store.init] reads the five keys back with [JSON.parse].  On the raw
    store of the backup codec the reading of the four collections that come
    first is embedded as the code has it; what follows (the accounts, the
    report dates and the materializer) is a parameter. *)

Module Startup.

(** [object.key = v] on the own properties of an object. *)
Fixpoint set_property (props : list (string * Backup.JSValue)) (key : string)
    (v : Backup.JSValue) : list (string * Backup.JSValue) :=
  match props with
  | [] => [(key, v)]
  | (k, v') :: rest =>
      if (k =? key)%string then (k, v) :: rest else (k, v') :: set_property rest key v
  end.

Section Init.

Variable JSON_parse : string -> option Backup.JSValue.   (* [None]: SyntaxError *)

(** The rest of [init], from the test of [savedAccounts] on. *)
Variable init_rest : Backup.World -> Completion Backup.World.

(** [if (saved) this.data.key = JSON.parse(saved)]: a key that was never
    written reads as [null], and the empty text is falsy as well.  Assigning
    to a property of [null] or [undefined] raises; on a number, a boolean or
    a text the assignment is dropped. *)
Definition read_saved (key storageKey : string) (w : Backup.World)
  : Completion Backup.World :=
  match getItem (Backup.localStorage w) storageKey with
  | Some saved =>
      if (saved =? "")%string then Normal w
      else match JSON_parse saved with
           | None => Throw "SyntaxError" w
           | Some v =>
               match Backup.data w with
               | Backup.JObject props =>
                   Normal (Backup.mkWorld (Backup.JObject (set_property props key v))
                                          (Backup.localStorage w) (Backup.current w))
               | Backup.JUndefined | Backup.JNull => Throw "TypeError" w
               | _ => Normal w
               end
           end
  | None => Normal w
  end.

Definition and_then (c : Completion Backup.World)
    (f : Backup.World -> Completion Backup.World) : Completion Backup.World :=
  match c with
  | Normal w => f w
  | Throw e w => Throw e w
  end.

Definition init (w : Backup.World) : Completion Backup.World :=
  and_then (read_saved "transactions" "st_transactions" w) (fun w1 =>
  and_then (read_saved "customCategories" "st_customCategories" w1) (fun w2 =>
  and_then (read_saved "homeCategories" "st_homeCategories" w2) (fun w3 =>
  and_then (read_saved "recurring" "st_recurring" w3) init_rest))).

End Init.

End Startup.

(** ** Sample data used by the examples *)

Definition sample_uuid (n : nat) : string := "uuid-" ++ decimal (Z.of_nat n).

Definition mid_march_2024 : Date := mkDate 2024 2 15 noon.

Definition no_storage : LocalStorage := mkStorage None None None None None.

Definition sample_world (selected : DateString) (txs : list Tx.t) (accs : list Acc.t)
    (rules : list Rule.t) : World :=
  mkWorld (mkData txs [] [] selected selected "monthly" NotADate NotADate accs rules)
          no_storage 0 mid_march_2024.

Definition rent : Rule.t := Rule.mk "rule-rent" "Aluguel" "Aluguel" 150 10 "fixed" true.

(** A rule whose day exists in no February and in no 30-day month. *)
Definition card : Rule.t := Rule.mk "rule-card" "Cartao" "Cartao" 320 31 "fixed" true.

Definition rent_paid_on (day : Z) : Tx.t :=
  Tx.mk "tx-rent" NotADate "expense" 150 (Some "Aluguel") (Some "Aluguel")
        (ISOString (mkDate 2024 2 day noon)) None true false (Some "rule-rent") None false.

Definition brasilia : Z := -180.   (* UTC-3 *)

Definition march_2024 : DateString := ISOString mid_march_2024.
Definition february_2023 : DateString := ISOString (mkDate 2023 1 10 noon).

(** A rule for the 30th, a day that February does not have. *)
Definition insurance : Rule.t :=
  Rule.mk "rule-insurance" "Seguro" "Seguro" 80 30 "fixed" true.

Definition electricity_item : Rule.t := Rule.mk "" "Luz" "Luz" 95 5 "fixed" false.

Definition rent_due_world : World := sample_world march_2024 [] [] [rent].

(** A store in which the rent of March 2024 was entered twice. *)
Definition rent_twice_world : World :=
  sample_world march_2024 [rent_paid_on 10; rent_paid_on 12] [] [rent].

Definition insurance_world : World := sample_world february_2023 [] [] [rent; insurance].

Definition empty_world : World := sample_world march_2024 [] [] [].

(** A store, as the import of a backup can leave it, with a business expense
    of the selected day that has no category: the work view raises on it. *)
Definition uncategorised_expense : Tx.t :=
  Tx.mk "tx-old" NotADate "expense" 40 None None march_2024 None false false None None false.

Definition uncategorised_world : World :=
  sample_world march_2024 [uncategorised_expense] [] [].

Definition mei_account : Acc.t := Acc.mk "acc-mei" "MEI" "mei" (Some 100%Q).


(** A household expense as the application creates it: without an account. *)
Definition home_expense : Tx.t :=
  Tx.mk "tx-2" NotADate "expense" 30 None (Some "Luz") march_2024
        None true false None None false.

Definition sale : Tx.t :=
  Tx.mk "tx-3" NotADate "income" 2000 (Some "Venda") None march_2024
        (Some "acc-mei") false false None None false.


Definition business_world : World :=
  sample_world march_2024 [sale; home_expense] [mei_account] [].

(** The scenario of the annual limit: opening balance 80000 and 2000 of
    income in the current year. *)
Definition near_limit_account : Acc.t := Acc.mk "acc-mei" "MEI" "mei" (Some 80000%Q).

Definition near_limit_world : World :=
  sample_world march_2024 [sale; home_expense] [near_limit_account] [].

(** Sample dates for the range test. *)
Definition march_10_noon : DateString := ISOString (mkDate 2024 2 10 noon).
Definition march_10_late : DateString := ISOString (mkDate 2024 2 10 86399000).
Definition march_11_early : DateString := ISOString (mkDate 2024 2 11 1000).
Definition march_1_evening : DateString := ISOString (mkDate 2024 2 1 70000000).
Definition march_20_noon : DateString := ISOString (mkDate 2024 2 20 noon).

(** The installment scenario: 1200 in three parts from January 2024. *)
Definition january_15 : DateString := ISOString (mkDate 2024 0 15 noon).
Definition january_31 : DateString := ISOString (mkDate 2024 0 31 noon).

Definition sofa_form : HomeForm :=
  mkForm "install" (Some 1200%Q) "Sofa" true None None (Some 3) "total".

Definition january_world : World := sample_world january_15 [] [] [].
Definition end_of_january_world : World := sample_world january_31 [] [] [].

(** Transactions for a report. *)
Definition spent (label : option string) (value : Q) : Tx.t :=
  Tx.mk "tx" NotADate "expense" value None label march_2024 None true false None None false.

Definition report_sample : list Tx.t :=
  [spent (Some "Alimentacao") 50; spent None 20; spent (Some "Alimentacao") 30;
   spent (Some "Aluguel") 100].

(** A blob whose transactions are a text and whose accounts are an empty list. *)
Definition malformed_blob : Backup.JSValue :=
  Backup.JObject [("transactions", Backup.JString "abc"); ("accounts", Backup.JArray [])].

(** A blob without accounts. *)
Definition no_accounts_blob : Backup.JSValue :=
  Backup.JObject [("transactions", Backup.JArray [])].

Definition old_data : Backup.JSValue :=
  Backup.JObject [("transactions", Backup.JArray []); ("accounts", Backup.JArray [])].

Definition account_view_world : Backup.World :=
  Backup.mkWorld old_data [("st_transactions", "[]")] "mei".

Definition work_view_world : Backup.World :=
  Backup.mkWorld old_data [("st_transactions", "[]")] "work".

(** Stand-ins for the platform's JSON functions in the examples. *)
Definition parse_as (parsed : option Backup.JSValue) (text : string) : option Backup.JSValue :=
  parsed.

Definition stringify_sample (v : Backup.JSValue) : string :=
  match v with
  | Backup.JString s => s
  | Backup.JArray [] => "[]"
  | _ => "{}"
  end.

Definition views_return (route : string) (d : Backup.JSValue) : bool := true.

(** Samples for the further properties of the store and of the actions. *)
Definition raise_sale : TxPatch.t :=
  TxPatch.mk None None None (Some 2500%Q) None None None None None None None None None.

(** A reminder of March 2024 that waits for its amount. *)
Definition reminder_bill : Tx.t :=
  Tx.mk "tx-reminder" NotADate "expense" 0 (Some "Luz") (Some "Luz")
        (ISOString (mkDate 2024 2 5 noon)) None true false (Some "rule-light") None true.

Definition reminder_world : World := sample_world march_2024 [reminder_bill] [] [].

(** The rent of March 2024, entered once. *)
Definition rent_paid_world : World := sample_world march_2024 [rent_paid_on 10] [] [rent].

Definition shop_form : AccountForm := mkAccountForm "Loja" (Some 500%Q).

Definition large_sale_form : IncomeForm := mkIncomeForm (Some 5000%Q) "" "acc-mei".

Definition refused_expense_form : ExpenseForm := mkExpenseForm None "Transporte" "" "Pets".

(** A host five hours behind UTC that is on summer time, one hour on, from
    April to October. *)
Definition summer_time_host (d : Date) : Z :=
  if (3 <=? getMonth d) && (getMonth d <=? 9) then -240 else -300.

(** The evening of 10 July 2024, at 19:30. *)
Definition july_evening_world : World :=
  mkWorld (data empty_world) no_storage 0 (mkDate 2024 6 10 70200000).

Definition pets_form : ExpenseForm := mkExpenseForm (Some 30%Q) "Transporte" "acc-mei" "Pets".

Definition market_form : HomeForm :=
  mkForm "single" (Some 50%Q) "Mercado" false None None None "total".

(** A page that starts on the storage that [business_world] left. *)
Definition restarted_world : World :=
  mkWorld (data empty_world) (localStorage (save business_world)) 0 mid_march_2024.

(** A store whose report runs from the 1st to the 20th of March 2024. *)
Definition report_world : World :=
  mkWorld (mkData [sale; home_expense] [] [] march_2024 march_2024 "custom"
                  march_1_evening march_20_noon [mei_account] [])
          no_storage 0 mid_march_2024.

Definition rename_account : AccPatch.t := AccPatch.mk None (Some "Loja") None None.

(** A parser that rejects the text 'undefined' and reads every other text
    as a backup of the version without category lists and rules. *)
Definition parse_old_backup (text : string) : option Backup.JSValue :=
  if (text =? "undefined")%string then None else Some old_data.

Definition rest_returns (w : Backup.World) : Completion Backup.World := Normal w.

(** A sale of the last day of January 2024. *)
Definition january_sale : Tx.t :=
  Tx.mk "tx-4" NotADate "income" 300 (Some "Venda") None january_31
        (Some "acc-mei") false false None None false.

Definition january_sale_world : World :=
  sample_world january_31 [january_sale] [mei_account] [].

(** * Properties

    ** Calendar arithmetic *)

Lemma DaysInMonth_bounds (y m : Z) : 28 <= DaysInMonth y m <= 31.
Proof.
  unfold DaysInMonth.
  destruct (m =? 1); [destruct (InLeapYear y); lia|].
  destruct ((m =? 3) || (m =? 5) || (m =? 8) || (m =? 10))%bool; lia.
Qed.

Lemma validb_valid (d : Date) : validb d = true <-> valid d.
Proof.
  unfold validb, valid.
  rewrite !andb_true_iff, !Z.leb_le, Z.ltb_lt. tauto.
Qed.

Lemma next_month_range (y m : Z) :
  0 <= m <= 11 -> 0 <= snd (next_month y m) <= 11.
Proof. unfold next_month. destruct (Z.eqb_spec m 11); simpl; lia. Qed.

Lemma prev_month_range (y m : Z) :
  0 <= m <= 11 -> 0 <= snd (prev_month y m) <= 11.
Proof. unfold prev_month. destruct (Z.eqb_spec m 0); simpl; lia. Qed.

Lemma prev_next_month (y m : Z) :
  0 <= m <= 11 -> prev_month (fst (next_month y m)) (snd (next_month y m)) = (y, m).
Proof.
  intros Hm. unfold next_month, prev_month.
  destruct (Z.eqb_spec m 11) as [->|Hne]; simpl.
  - f_equal; lia.
  - destruct (Z.eqb_spec (m + 1) 0); [lia|]. f_equal; lia.
Qed.

Lemma roll_forward_stay (fuel : nat) (y m d : Z) :
  d <= DaysInMonth y m -> roll_forward fuel y m d = (y, m, d).
Proof.
  intros H. destruct fuel; simpl; apply Z.leb_le in H; now rewrite H.
Qed.

Lemma roll_forward_next (fuel : nat) (y m d : Z) :
  DaysInMonth y m < d ->
  roll_forward (S fuel) y m d =
  roll_forward fuel (fst (next_month y m)) (snd (next_month y m)) (d - DaysInMonth y m).
Proof.
  intros H. simpl. apply Z.leb_gt in H. rewrite H.
  now destruct (next_month y m).
Qed.

Lemma roll_backward_stay (fuel : nat) (y m d : Z) :
  1 <= d -> roll_backward fuel y m d = (y, m, d).
Proof.
  intros H. destruct fuel; simpl; apply Z.leb_le in H; now rewrite H.
Qed.

Lemma roll_backward_prev (fuel : nat) (y m d : Z) :
  d < 1 ->
  roll_backward (S fuel) y m d =
  roll_backward fuel (fst (prev_month y m)) (snd (prev_month y m))
    (d + DaysInMonth (fst (prev_month y m)) (snd (prev_month y m))).
Proof.
  intros H. simpl. apply Z.leb_gt in H. rewrite H.
  now destruct (prev_month y m).
Qed.

(** The fuel handed to the two loops by [MakeDay] is enough: the day they
    return always exists in the month they return. *)
Lemma roll_forward_valid (fuel : nat) : forall y m d,
  0 <= m <= 11 -> 1 <= d -> d <= 28 * (Z.of_nat fuel + 1) ->
  let '(y', m', d') := roll_forward fuel y m d in
  0 <= m' <= 11 /\ 1 <= d' <= DaysInMonth y' m'.
Proof.
  induction fuel as [|fuel IH]; intros y m d Hm Hd Hfuel.
  - pose proof (DaysInMonth_bounds y m). simpl in Hfuel.
    rewrite roll_forward_stay by lia. lia.
  - destruct (Z_le_gt_dec d (DaysInMonth y m)) as [Hle|Hgt].
    + rewrite roll_forward_stay by assumption. lia.
    + rewrite roll_forward_next by lia.
      pose proof (DaysInMonth_bounds y m).
      apply IH; [now apply next_month_range | lia | lia].
Qed.

Lemma roll_backward_valid (fuel : nat) : forall y m d,
  0 <= m <= 11 -> d <= DaysInMonth y m -> 1 - 28 * Z.of_nat fuel <= d ->
  let '(y', m', d') := roll_backward fuel y m d in
  0 <= m' <= 11 /\ 1 <= d' <= DaysInMonth y' m'.
Proof.
  induction fuel as [|fuel IH]; intros y m d Hm Hd Hfuel.
  - simpl in Hfuel. rewrite roll_backward_stay by lia. lia.
  - destruct (Z_le_gt_dec 1 d) as [Hle|Hgt].
    + rewrite roll_backward_stay by assumption. lia.
    + rewrite roll_backward_prev by lia.
      pose proof (DaysInMonth_bounds (fst (prev_month y m)) (snd (prev_month y m))).
      apply IH; [now apply prev_month_range | lia | lia].
Qed.

Lemma MakeDay_valid (year month date : Z) :
  let '(y, m, d) := MakeDay year month date in
  0 <= m <= 11 /\ 1 <= d <= DaysInMonth y m.
Proof.
  unfold MakeDay.
  assert (Hm : 0 <= month mod 12 <= 11) by (pose proof (Z.mod_pos_bound month 12); lia).
  destruct (Z.leb_spec 1 date).
  - apply roll_forward_valid; [assumption | lia | lia].
  - apply roll_backward_valid; [assumption | | lia].
    pose proof (DaysInMonth_bounds (year + month / 12) (month mod 12)). lia.
Qed.

Lemma MakeDate_valid (year month date time : Z) : valid (MakeDate year month date time).
Proof.
  unfold MakeDate.
  pose proof (MakeDay_valid year month (date + time / msPerDay)) as H.
  destruct (MakeDay year month (date + time / msPerDay)) as [[y m] d].
  unfold valid; simpl.
  pose proof (Z.mod_pos_bound time msPerDay). unfold msPerDay in *. lia.
Qed.

Lemma new_Date_valid (tz : Z) (text : DateString) (d : Date) :
  new_Date tz text = Some d -> valid d.
Proof.
  destruct text as [local|y m dd|]; simpl; try discriminate.
  - destruct (validb local) eqn:E; [|discriminate].
    intros [= <-]. now apply validb_valid.
  - destruct ((0 <=? m) && (m <=? 11) && (1 <=? dd) && (dd <=? 31)); [|discriminate].
    intros [= <-]. apply MakeDate_valid.
Qed.

(** A day that exists in the month is kept as it is. *)
Lemma MakeDay_in_month (y m d : Z) :
  0 <= m <= 11 -> 1 <= d <= DaysInMonth y m -> MakeDay y m d = (y, m, d).
Proof.
  intros Hm Hd. unfold MakeDay.
  rewrite Z.div_small, Z.mod_small, Z.add_0_r by lia.
  destruct (Z.leb_spec 1 d); [|lia].
  now apply roll_forward_stay.
Qed.

(** Day numbers up to 28 never leave the month, whatever the month carry. *)
Lemma MakeDay_small_day (y m d : Z) :
  1 <= d <= 28 -> MakeDay y m d = (y + m / 12, m mod 12, d).
Proof.
  intros Hd. unfold MakeDay.
  destruct (Z.leb_spec 1 d); [|lia].
  apply roll_forward_stay.
  pose proof (DaysInMonth_bounds (y + m / 12) (m mod 12)). lia.
Qed.

Lemma MakeDate_noon (y m d : Z) :
  MakeDate y m d (MakeTime 12 0 0 0) =
  let '(y', m', d') := MakeDay y m d in mkDate y' m' d' 43200000.
Proof.
  unfold MakeDate.
  change (MakeTime 12 0 0 0 / msPerDay) with 0.
  change (MakeTime 12 0 0 0 mod msPerDay) with 43200000.
  now rewrite Z.add_0_r.
Qed.

Lemma next_month_differs (y m : Z) : 0 <= m <= 11 -> snd (next_month y m) <> m.
Proof. unfold next_month. destruct (Z.eqb_spec m 11); simpl; lia. Qed.

(** A day at most 28 days past the end of the month lands in the next month. *)
Lemma MakeDay_overflow (y m d : Z) :
  0 <= m <= 11 -> DaysInMonth y m < d <= DaysInMonth y m + 28 ->
  MakeDay y m d = (fst (next_month y m), snd (next_month y m), d - DaysInMonth y m).
Proof.
  intros Hm Hd. unfold MakeDay.
  rewrite Z.div_small, Z.mod_small, Z.add_0_r by lia.
  pose proof (DaysInMonth_bounds y m).
  destruct (Z.leb_spec 1 d); [|lia].
  replace (Z.to_nat d) with (S (Z.to_nat (d - 1))) by lia.
  rewrite roll_forward_next by lia.
  apply roll_forward_stay.
  pose proof (DaysInMonth_bounds (fst (next_month y m)) (snd (next_month y m))). lia.
Qed.

(** Day 0 is the last day of the month before. *)
Lemma MakeDay_day_zero (y m : Z) :
  0 <= m <= 11 ->
  MakeDay y m 0 =
  (fst (prev_month y m), snd (prev_month y m),
   DaysInMonth (fst (prev_month y m)) (snd (prev_month y m))).
Proof.
  intros Hm. unfold MakeDay.
  rewrite Z.div_small, Z.mod_small, Z.add_0_r by lia.
  destruct (Z.leb_spec 1 0); [lia|].
  change (Z.to_nat (1 - 0)) with 1%nat.
  rewrite roll_backward_prev by lia.
  apply roll_backward_stay.
  pose proof (DaysInMonth_bounds (fst (prev_month y m)) (snd (prev_month y m))). lia.
Qed.

(** ** The date of a materialization *)

Lemma materialization_date_clamped (year month day : Z) :
  0 <= month <= 11 -> ~ 0 <= year <= 99 -> 1 <= day <= 31 ->
  materialization_date year month day =
  mkDate year month (Z.min day (DaysInMonth year month)) 43200000.
Proof.
  intros Hm Hy Hd. unfold materialization_date, Date_of_fields.
  destruct (Z.eqb_spec day 0); [lia|].
  replace ((0 <=? year) && (year <=? 99))%bool with false
    by (symmetry; apply andb_false_iff; lia).
  rewrite MakeDate_noon.
  destruct (Z_le_gt_dec day (DaysInMonth year month)) as [Hle|Hgt].
  - rewrite MakeDay_in_month by lia. simpl.
    rewrite Z.eqb_refl. simpl. f_equal. lia.
  - pose proof (DaysInMonth_bounds year month).
    rewrite MakeDay_overflow by lia. simpl.
    pose proof (next_month_differs year month Hm) as Hne.
    apply Z.eqb_neq in Hne. rewrite Hne. simpl.
    unfold setDate, MakeDate; simpl.
    change (43200000 / msPerDay) with 0.
    change (43200000 mod msPerDay) with 43200000.
    rewrite MakeDay_day_zero by now apply next_month_range.
    rewrite prev_next_month by assumption. simpl. f_equal. lia.
Qed.

Lemma materialization_date_valid (year month day : Z) :
  0 <= month <= 11 -> ~ 0 <= year <= 99 -> 1 <= day <= 31 ->
  valid (materialization_date year month day).
Proof.
  intros Hm Hy Hd. rewrite materialization_date_clamped by assumption.
  pose proof (DaysInMonth_bounds year month).
  unfold valid, msPerDay; simpl. lia.
Qed.

(** [lia] on goals about the sizes of filtered lists: the sizes are named first. *)
Ltac name_lengths :=
  repeat match goal with
         | H : context [@List.length ?A ?l] |- _ =>
             let n := fresh "n" in
             set (n := @List.length A l) in *; clearbody n
         | |- context [@List.length ?A ?l] =>
             let n := fresh "n" in
             set (n := @List.length A l) in *; clearbody n
         end.

(** ** The recurrence materializer *)

Lemma save_transactions (w : World) : transactions (data (save w)) = transactions (data w).
Proof. reflexivity. Qed.

Section Materializer.

Variable tz : Z.
Variable randomUUID : nat -> string.

Abbreviation txs w := (transactions (data w)).

Lemma materialize_rule_cases (month year : Z) (w : World) (rule : Rule.t) :
  materialize_rule tz randomUUID month year w rule = w
  \/ (Rule.active rule = true
      /\ existsb (materialized_in tz (Rule.id rule) month year) (txs w) = false
      /\ exists t,
           materialize_rule tz randomUUID month year w rule = push_transaction (draw w) t
           /\ Tx.recurringId t = Some (Rule.id rule)
           /\ Tx.date t = ISOString (materialization_date year month (Rule.day rule))).
Proof.
  unfold materialize_rule.
  destruct (Rule.active rule); simpl; [|now left].
  destruct (existsb _ _); [now left|].
  right. repeat split. eexists. repeat split.
Qed.

Lemma materialize_rule_recurring (month year : Z) (w : World) (rule : Rule.t) :
  recurring (data (materialize_rule tz randomUUID month year w rule)) = recurring (data w).
Proof.
  destruct (materialize_rule_cases month year w rule) as [->|(_ & _ & t & -> & _)];
    reflexivity.
Qed.

Lemma fold_materialize_recurring (month year : Z) (rules : list Rule.t) : forall w,
  recurring (data (fold_left (materialize_rule tz randomUUID month year) rules w)) = recurring (data w).
Proof.
  induction rules as [|r rules IH]; intros w; simpl; [reflexivity|].
  now rewrite IH, materialize_rule_recurring.
Qed.

Lemma materialized_in_other_rule (id id' : string) (month year : Z) (t : Tx.t) :
  Tx.recurringId t = Some id' -> id' <> id ->
  materialized_in tz id month year t = false.
Proof.
  intros Hid Hne. unfold materialized_in, opt_is. rewrite Hid.
  apply String.eqb_neq in Hne. now rewrite Hne.
Qed.

Lemma materialized_in_dated (id : string) (t : Tx.t) (d : Date) :
  Tx.recurringId t = Some id -> Tx.date t = ISOString d -> valid d ->
  materialized_in tz id (getMonth d) (getFullYear d) t = true.
Proof.
  intros Hid Hdate Hv. unfold materialized_in, opt_is, month_is, year_is.
  rewrite Hid, Hdate; simpl.
  apply validb_valid in Hv. rewrite Hv.
  now rewrite String.eqb_refl, !Z.eqb_refl.
Qed.

Lemma existsb_false_filter {A : Type} (f : A -> bool) (l : list A) :
  existsb f l = false -> filter f l = [].
Proof.
  induction l as [|x l IH]; simpl; [reflexivity|].
  destruct (f x); simpl; [discriminate|exact IH].
Qed.

Lemma existsb_true_filter {A : Type} (f : A -> bool) (l : list A) :
  existsb f l = true -> (1 <= List.length (filter f l))%nat.
Proof.
  induction l as [|x l IH]; simpl; [discriminate|].
  destruct (f x); simpl; [lia|exact IH].
Qed.

(** One turn of the loop never removes a materialization and never takes
    the number of materializations of a rule in the month above one, unless
    it was above one before. *)
Lemma materialize_rule_count (id : string) (month year : Z) (w : World) (rule : Rule.t) :
  let before := List.length (materializations tz id month year (txs w)) in
  let after := List.length (materializations tz id month year
                         (txs (materialize_rule tz randomUUID month year w rule))) in
  (before <= after <= Nat.max before 1)%nat.
Proof.
  destruct (materialize_rule_cases month year w rule)
    as [->|(_ & Hnone & t & -> & Hid & _)]; simpl; [lia|].
  unfold materializations. rewrite filter_app, length_app; simpl.
  destruct (String.eqb_spec (Rule.id rule) id) as [<-|Hne].
  - rewrite (existsb_false_filter _ _ Hnone); simpl.
    destruct (materialized_in _ _ _ _ t); simpl; lia.
  - rewrite (materialized_in_other_rule _ _ _ _ _ Hid Hne); simpl. lia.
Qed.

Lemma fold_materialize_count (id : string) (month year : Z) (rules : list Rule.t) :
  forall w,
  let before := List.length (materializations tz id month year (txs w)) in
  let after := List.length (materializations tz id month year
                         (txs (fold_left (materialize_rule tz randomUUID month year) rules w))) in
  (before <= after <= Nat.max before 1)%nat.
Proof.
  induction rules as [|r rules IH]; intros w; simpl; [lia|].
  pose proof (materialize_rule_count id month year w r) as H1.
  pose proof (IH (materialize_rule tz randomUUID month year w r)) as H2.
  simpl in H1, H2. lia.
Qed.

(** After the turn of an active rule with a day from 1 to 31 the rule has a
    materialization in the month. *)
Lemma materialize_rule_present (month year : Z) (w : World) (rule : Rule.t) :
  0 <= month <= 11 -> ~ 0 <= year <= 99 ->
  Rule.active rule = true -> 1 <= Rule.day rule <= 31 ->
  (1 <= List.length (materializations tz (Rule.id rule) month year
                  (txs (materialize_rule tz randomUUID month year w rule))))%nat.
Proof.
  intros Hm Hy Hact Hday.
  unfold materialize_rule. rewrite Hact; simpl.
  destruct (existsb _ _) eqn:Hex.
  - now apply existsb_true_filter.
  - simpl. unfold materializations. rewrite filter_app, length_app.
    pose proof (materialization_date_valid year month (Rule.day rule) Hm Hy Hday) as Hv.
    pose proof (materialization_date_clamped year month (Rule.day rule) Hm Hy Hday) as Hc.
    match goal with |- context [filter _ [?t]] =>
      pose proof (materialized_in_dated (Rule.id rule) t
                    (materialization_date year month (Rule.day rule))
                    eq_refl eq_refl Hv) as Hin
    end.
    rewrite Hc in Hin at 1 2. simpl in Hin.
    simpl. rewrite Hin. simpl. lia.
Qed.

Lemma fold_materialize_present (month year : Z) (rule : Rule.t) (rules : list Rule.t) :
  0 <= month <= 11 -> ~ 0 <= year <= 99 ->
  Rule.active rule = true -> 1 <= Rule.day rule <= 31 ->
  forall w, In rule rules ->
  (1 <= List.length (materializations tz (Rule.id rule) month year
                  (txs (fold_left (materialize_rule tz randomUUID month year) rules w))))%nat.
Proof.
  intros Hm Hy Hact Hday.
  induction rules as [|r rules IH]; intros w Hin; simpl; [contradiction|].
  destruct Hin as [->|Hin].
  - pose proof (materialize_rule_present month year w rule Hm Hy Hact Hday) as H1.
    pose proof (fold_materialize_count (Rule.id rule) month year rules
                  (materialize_rule tz randomUUID month year w rule)) as H2.
    simpl in H2. lia.
  - now apply IH.
Qed.

(** Once a rule has a materialization in the month, no turn adds a
    transaction that carries the rule's identifier. *)
Lemma materialize_rule_settled (id : string) (month year : Z) (w : World) (rule : Rule.t) :
  (1 <= List.length (materializations tz id month year (txs w)))%nat ->
  filter (carries_rule id) (txs (materialize_rule tz randomUUID month year w rule))
  = filter (carries_rule id) (txs w).
Proof.
  intros Hone.
  destruct (materialize_rule_cases month year w rule)
    as [->|(_ & Hnone & t & -> & Hid & _)]; simpl; [reflexivity|].
  rewrite filter_app; simpl.
  destruct (String.eqb_spec (Rule.id rule) id) as [<-|Hne].
  - unfold materializations in Hone.
    rewrite (existsb_false_filter _ _ Hnone) in Hone. simpl in Hone. lia.
  - unfold carries_rule at 2, opt_is. rewrite Hid.
    apply String.eqb_neq in Hne. rewrite Hne. now rewrite app_nil_r.
Qed.

Lemma fold_materialize_settled (id : string) (month year : Z) (rules : list Rule.t) :
  forall w,
  (1 <= List.length (materializations tz id month year (txs w)))%nat ->
  filter (carries_rule id) (txs (fold_left (materialize_rule tz randomUUID month year) rules w))
  = filter (carries_rule id) (txs w).
Proof.
  induction rules as [|r rules IH]; intros w Hone; simpl; [reflexivity|].
  rewrite IH.
  - now apply materialize_rule_settled.
  - pose proof (materialize_rule_count id month year w r) as H. simpl in H. lia.
Qed.

End Materializer.

(** ** The re-rendering

    Only the work view can raise on a store, and it reads the business
    transactions of the selected day: a call that adds household
    transactions, or that changes neither the transactions nor the selected
    day, leaves the views as they were. *)

Lemma filter_twice {A : Type} (p q : A -> bool) (l : list A) :
  filter p (filter q l) = filter (fun x => q x && p x) l.
Proof.
  induction l as [|x l IH]; simpl; [reflexivity|].
  destruct (q x); simpl; [|exact IH]. destruct (p x); now rewrite IH.
Qed.

Section Rendering.

Variable tz : Z.
Variable randomUUID : nat -> string.
Variable current : string.

Lemma world_of_renderResults (w : World) : world_of (Page.renderResults tz current w) = w.
Proof. unfold Page.renderResults. now destruct (Page.view_returns tz current w). Qed.

Lemma returns_renderResults (w : World) :
  returns (Page.renderResults tz current w) = Page.view_returns tz current w.
Proof. unfold Page.renderResults. now destruct (Page.view_returns tz current w). Qed.

Lemma renderResults_returned (w : World) :
  Page.view_returns tz current w = true -> Page.renderResults tz current w = Normal w.
Proof. unfold Page.renderResults. now intros ->. Qed.

Lemma renderResults_raised (w : World) :
  Page.view_returns tz current w = false ->
  Page.renderResults tz current w = Throw "TypeError" w.
Proof. unfold Page.renderResults. now intros ->. Qed.

Lemma returned_world (c : Completion World) :
  returns c = true <-> c = Normal (world_of c).
Proof. destruct c; simpl; split; intros H; try reflexivity; discriminate. Qed.

Lemma work_daily_business (w : World) :
  work_daily tz w
  = filter (fun t => isSameDay tz (Tx.date t) (selectedDate (data w))) (business w).
Proof. unfold work_daily, business. now rewrite filter_twice. Qed.

Lemma isSameDay_calendar_day (a b : DateString) :
  isSameDay tz a b = true <-> calendar_day tz a = calendar_day tz b.
Proof.
  unfold isSameDay, toDateString, calendar_day.
  destruct (new_Date tz a) as [d1|], (new_Date tz b) as [d2|]; split; intros H;
    try reflexivity; try discriminate.
  - apply andb_prop in H as [H H3]. apply andb_prop in H as [H1 H2].
    apply Z.eqb_eq in H1, H2, H3. now rewrite H1, H2, H3.
  - injection H as H1 H2 H3. now rewrite H1, H2, H3, !Z.eqb_refl.
Qed.

(** The view returns exactly on the stores on which it renders. *)
Lemma view_returns_renders (w : World) :
  Page.view_returns tz current w = true <-> renders tz current w.
Proof.
  unfold Page.view_returns, renders.
  destruct (current =? "work")%string eqn:Ew.
  - apply String.eqb_eq in Ew. split.
    + intros H. split; [rewrite Ew; now left|]. intros _ t Hin Hh Hty Hday.
      unfold Page.work_returns in H. rewrite forallb_forall in H.
      assert (Ht : In t (work_daily tz w)).
      { apply filter_In. split; [exact Hin|]. rewrite Hh. simpl.
        now apply isSameDay_calendar_day. }
      specialize (H t Ht). rewrite Hty in H. simpl in H.
      destruct (Tx.category t); [discriminate | discriminate H].
    + intros [_ H]. apply forallb_forall. intros t Ht.
      apply filter_In in Ht as [Hin Hc]. apply andb_prop in Hc as [Hh Hd].
      destruct (Tx.type t =? "expense")%string eqn:Et; [|reflexivity]. simpl.
      apply String.eqb_eq in Et. apply negb_true_iff in Hh.
      apply isSameDay_calendar_day in Hd.
      destruct (Tx.category t) eqn:Ec; [reflexivity|].
      now contradiction (H Ew t Hin Hh Et Hd).
  - split.
    + intros H. split.
      * simpl. destruct (current =? "home")%string eqn:E1;
          [apply String.eqb_eq in E1; auto|].
        destruct (current =? "reports")%string eqn:E2;
          [apply String.eqb_eq in E2; auto|].
        destruct (current =? "mei")%string eqn:E3;
          [apply String.eqb_eq in E3; auto 6|discriminate].
      * intros Hc. rewrite Hc in Ew. discriminate.
    + intros [Hin _]. simpl in Hin.
      destruct Hin as [<-|[<-|[<-|[<-|[]]]]]; simpl in *; try reflexivity; discriminate.
Qed.

Lemma view_returns_not_renders (w : World) :
  Page.view_returns tz current w = false <-> ~ renders tz current w.
Proof.
  rewrite <- view_returns_renders.
  destruct (Page.view_returns tz current w); split; intros H.
  - discriminate.
  - now contradiction H.
  - discriminate.
  - reflexivity.
Qed.

(** A call that returns exactly when the view does returns exactly on the
    stores on which the view renders. *)
Lemma returns_renders (c : Completion World) (w : World) :
  returns c = Page.view_returns tz current w ->
  (returns c = true <-> renders tz current w).
Proof. intros ->. apply view_returns_renders. Qed.

Lemma view_returns_business (w w' : World) :
  business w' = business w ->
  selectedDate (data w') = selectedDate (data w) ->
  Page.view_returns tz current w' = Page.view_returns tz current w.
Proof.
  intros Hb Hd. unfold Page.view_returns, Page.work_returns.
  now rewrite !work_daily_business, Hb, Hd.
Qed.

Lemma business_household (w : World) (t : Tx.t) :
  Tx.isHomeExpense t = true -> business (push_transaction w t) = business w.
Proof.
  intros Hh. unfold business. simpl. rewrite filter_app. simpl.
  rewrite Hh. simpl. apply app_nil_r.
Qed.

Lemma world_of_save (w : World) : world_of (Page.save tz current w) = save w.
Proof. apply world_of_renderResults. Qed.

Lemma returns_save (w : World) :
  returns (Page.save tz current w) = Page.view_returns tz current w.
Proof.
  unfold Page.save. rewrite returns_renderResults.
  now apply view_returns_business.
Qed.

Lemma world_of_addTransaction (t : Tx.t) (w : World) :
  world_of (Page.addTransaction tz randomUUID current t w) = addTransaction randomUUID t w.
Proof. apply world_of_renderResults. Qed.

Lemma view_returns_addTransaction_household (t : Tx.t) (w : World) :
  Tx.isHomeExpense t = true ->
  Page.view_returns tz current (addTransaction randomUUID t w)
  = Page.view_returns tz current w.
Proof.
  intros Hh. apply view_returns_business; [|reflexivity].
  unfold addTransaction.
  change (business (save ?x)) with (business x).
  now rewrite business_household.
Qed.

Lemma returns_addTransaction_household (t : Tx.t) (w : World) :
  Tx.isHomeExpense t = true ->
  returns (Page.addTransaction tz randomUUID current t w) = Page.view_returns tz current w.
Proof.
  intros Hh. unfold Page.addTransaction. rewrite returns_renderResults.
  now apply view_returns_addTransaction_household.
Qed.

Lemma fold_and_then_raised {A : Type} (g : A -> World -> Completion World) (turns : list A)
    (e : string) (w : World) :
  fold_left (fun c i => and_then c (g i)) turns (Throw e w) = Throw e w.
Proof. induction turns as [|i turns IH]; simpl; [reflexivity | exact IH]. Qed.

(** A run of household transactions on a view that renders adds them all;
    on a view that does not, it stops after the first one. *)
Lemma fold_addTransaction_household (f : Z -> Tx.t) (turns : list Z) :
  (forall i, Tx.isHomeExpense (f i) = true) ->
  forall w,
  Page.view_returns tz current w = true ->
  fold_left (fun c i => and_then c (Page.addTransaction tz randomUUID current (f i)))
            turns (Normal w)
  = Normal (fold_left (fun w' i => addTransaction randomUUID (f i) w') turns w).
Proof.
  intros Hh. induction turns as [|i turns IH]; intros w Hv; simpl; [reflexivity|].
  unfold Page.addTransaction at 2.
  rewrite renderResults_returned
    by (now rewrite view_returns_addTransaction_household).
  apply IH. now rewrite view_returns_addTransaction_household.
Qed.

Lemma fold_addTransaction_raised (f : Z -> Tx.t) (i : Z) (turns : list Z) (w : World) :
  Tx.isHomeExpense (f i) = true ->
  Page.view_returns tz current w = false ->
  fold_left (fun c i => and_then c (Page.addTransaction tz randomUUID current (f i)))
            (i :: turns) (Normal w)
  = Throw "TypeError" (addTransaction randomUUID (f i) w).
Proof.
  intros Hh Hv. simpl. unfold Page.addTransaction at 2.
  rewrite renderResults_raised
    by (now rewrite view_returns_addTransaction_household).
  apply fold_and_then_raised.
Qed.

Lemma materialize_rule_business (month year : Z) (w : World) (rule : Rule.t) :
  business (materialize_rule tz randomUUID month year w rule) = business w
  /\ selectedDate (data (materialize_rule tz randomUUID month year w rule))
     = selectedDate (data w).
Proof.
  unfold materialize_rule.
  destruct (negb (Rule.active rule)); [now split|].
  destruct (existsb _ _); [now split|].
  split; [|reflexivity]. now rewrite business_household.
Qed.

Lemma fold_materialize_business (month year : Z) (rules : list Rule.t) : forall w,
  business (fold_left (materialize_rule tz randomUUID month year) rules w) = business w
  /\ selectedDate (data (fold_left (materialize_rule tz randomUUID month year) rules w))
     = selectedDate (data w).
Proof.
  induction rules as [|r rules IH]; intros w; simpl; [now split|].
  destruct (IH (materialize_rule tz randomUUID month year w r)) as [H1 H2].
  destruct (materialize_rule_business month year w r) as [H3 H4].
  split; congruence.
Qed.

Lemma ensureRecurringForMonth_view (monthDateStr : DateString) (w : World) :
  Page.view_returns tz current
    (world_of (ensureRecurringForMonth tz randomUUID monthDateStr w))
  = Page.view_returns tz current w.
Proof.
  apply view_returns_business; unfold ensureRecurringForMonth;
    destruct (new_Date tz monthDateStr) as [d|].
  - simpl. apply (fold_materialize_business (getMonth d) (getFullYear d)).
  - now destruct (existsb Rule.active (recurring (data w))).
  - simpl. apply (fold_materialize_business (getMonth d) (getFullYear d)).
  - now destruct (existsb Rule.active (recurring (data w))).
Qed.

(** [ensureRecurringForMonth] as the page calls it leaves the store that
    the loop and [save] leave, and returns when the loop did not raise and
    the view renders. *)
Lemma world_of_ensureRecurringForMonth (monthDateStr : DateString) (w : World) :
  world_of (Page.ensureRecurringForMonth tz randomUUID current monthDateStr w)
  = world_of (ensureRecurringForMonth tz randomUUID monthDateStr w).
Proof.
  unfold Page.ensureRecurringForMonth.
  destruct (ensureRecurringForMonth tz randomUUID monthDateStr w); simpl; [|reflexivity].
  apply world_of_renderResults.
Qed.

Lemma returns_ensureRecurringForMonth (monthDateStr : DateString) (w : World) :
  returns (Page.ensureRecurringForMonth tz randomUUID current monthDateStr w)
  = returns (ensureRecurringForMonth tz randomUUID monthDateStr w)
    && Page.view_returns tz current w.
Proof.
  pose proof (ensureRecurringForMonth_view monthDateStr w) as Hv.
  unfold Page.ensureRecurringForMonth.
  destruct (ensureRecurringForMonth tz randomUUID monthDateStr w); simpl in *; [|reflexivity].
  now rewrite returns_renderResults.
Qed.

Lemma ensureRecurringForMonth_parsed (monthDateStr : DateString) (w : World) (d : Date) :
  new_Date tz monthDateStr = Some d ->
  ensureRecurringForMonth tz randomUUID monthDateStr w
  = Normal (save (fold_left (materialize_rule tz randomUUID (getMonth d) (getFullYear d))
                            (recurring (data w)) w)).
Proof. unfold ensureRecurringForMonth. now intros ->. Qed.

End Rendering.

(** The test of [ensureRecurringForMonth] accepts the bills of a rule in a
    month, and nothing else. *)
Lemma materialized_in_is_bill (tz : Z) (ruleId : string) (month year : Z) (t : Tx.t) :
  materialized_in tz ruleId month year t = is_bill tz ruleId month year t.
Proof.
  unfold materialized_in, is_bill, calendar_month, month_is, year_is, opt_is.
  destruct (Tx.recurringId t) as [r|]; [|reflexivity].
  destruct (new_Date tz (Tx.date t)) as [d|]; [reflexivity|].
  now rewrite !andb_false_r.
Qed.

Lemma materializations_bills (tz : Z) (ruleId : string) (month year : Z) (txs : list Tx.t) :
  materializations tz ruleId month year txs = bills tz ruleId month year txs.
Proof.
  unfold materializations, bills. apply filter_ext. intros t.
  apply materialized_in_is_bill.
Qed.

Lemma NoDup_map_injective {A B : Type} (f : A -> B) (l : list A) (a b : A) :
  NoDup (map f l) -> In a l -> In b l -> f a = f b -> a = b.
Proof.
  induction l as [|x l IH]; simpl; intros Hnd Ha Hb Hf; [contradiction|].
  inversion Hnd as [|? ? Hnotin Hnd']; subst.
  destruct Ha as [->|Ha], Hb as [->|Hb]; try reflexivity.
  - exfalso. apply Hnotin. rewrite Hf. now apply in_map.
  - exfalso. apply Hnotin. rewrite <- Hf. now apply in_map.
  - now apply IH.
Qed.

Lemma nonempty_has_member {A : Type} (l : list A) :
  (1 <= List.length l)%nat -> exists x, In x l.
Proof. destruct l as [|x l]; simpl; [lia|]. intros _. exists x. now left. Qed.

Section MaterializerClaims.

Variable tz : Z.
Variable randomUUID : nat -> string.
Variable current : string.

Abbreviation txs w := (transactions (data w)).

(** Every transaction that the loop adds for a rule with a unique identifier
    carries the date computed from that rule. *)
Lemma fold_materialize_dates (month year : Z) (rule : Rule.t) (w0 : World)
    (rules : list Rule.t) :
  NoDup (map Rule.id (recurring (data w0))) ->
  In rule (recurring (data w0)) ->
  incl rules (recurring (data w0)) ->
  forall w,
  (forall t, In t (txs w) -> Tx.recurringId t = Some (Rule.id rule) ->
             In t (txs w0)
             \/ Tx.date t = ISOString (materialization_date year month (Rule.day rule))) ->
  forall t, In t (txs (fold_left (materialize_rule tz randomUUID month year) rules w)) ->
            Tx.recurringId t = Some (Rule.id rule) ->
            In t (txs w0)
            \/ Tx.date t = ISOString (materialization_date year month (Rule.day rule)).
Proof.
  intros Hnd Hin.
  induction rules as [|r rules IH]; intros Hincl w Hinv; simpl; [exact Hinv|].
  apply IH; [intros x Hx; apply Hincl; now right|].
  intros t Ht Hid.
  destruct (materialize_rule_cases tz randomUUID month year w r)
    as [Heq|(_ & _ & t' & Heq & Hid' & Hdate')]; rewrite Heq in Ht.
  - now apply Hinv.
  - simpl in Ht. apply in_app_or in Ht. destruct Ht as [Ht|[<-|[]]].
    + now apply Hinv.
    + right. rewrite Hid' in Hid. injection Hid as Hid.
      assert (r = rule) as ->.
      { apply (NoDup_map_injective Rule.id (recurring (data w0))); auto.
        apply Hincl. now left. }
      exact Hdate'.
Qed.

(** C2, as amended.  For a target month that parses to a date (of a year
    that the Date constructor does not read as 19xx) and an active rule of
    the store with a day from 1 to 31, take two calls in a row, each on the
    store that the one before left.  After the first one the number of
    transactions with the rule's identifier and a date in the target month
    and year is the number there was before, or one if there was none; the
    second call leaves that number as it is and adds no transaction that
    carries the rule's identifier.  In a store that held at most one such
    transaction that is exactly one.  Each of the two calls returns when the
    current view renders on the store, and raises at the end of [save]
    otherwise, with the same store left. *)
Theorem ensureRecurringForMonth_twice (w : World) (monthDateStr : DateString)
    (target : Date) (rule : Rule.t) :
  new_Date tz monthDateStr = Some target ->
  ~ 0 <= getFullYear target <= 99 ->
  In rule (recurring (data w)) ->
  Rule.active rule = true ->
  1 <= Rule.day rule <= 31 ->
  let count := fun w' =>
    List.length (bills tz (Rule.id rule) (getMonth target) (getFullYear target) (txs w')) in
  let first := Page.ensureRecurringForMonth tz randomUUID current monthDateStr w in
  let second :=
    Page.ensureRecurringForMonth tz randomUUID current monthDateStr (world_of first) in
  count (world_of first) = Nat.max (count w) 1
  /\ count (world_of second) = count (world_of first)
  /\ filter (carries_rule (Rule.id rule)) (txs (world_of second))
     = filter (carries_rule (Rule.id rule)) (txs (world_of first))
  /\ ((count w <= 1)%nat -> count (world_of second) = 1%nat)
  /\ (returns first = true <-> renders tz current w)
  /\ (returns second = true <-> renders tz current w).
Proof.
  intros Hparse Hy Hin Hact Hday count first second.
  pose proof (new_Date_valid tz _ _ Hparse) as (Hm & _).
  assert (Hr1 : returns first = Page.view_returns tz current w).
  { unfold first. rewrite returns_ensureRecurringForMonth.
    now rewrite (ensureRecurringForMonth_parsed tz randomUUID _ w _ Hparse). }
  assert (Hr2 : returns second = Page.view_returns tz current w).
  { unfold second. rewrite returns_ensureRecurringForMonth.
    rewrite (ensureRecurringForMonth_parsed tz randomUUID _ _ _ Hparse). simpl.
    unfold first. rewrite world_of_ensureRecurringForMonth.
    apply ensureRecurringForMonth_view. }
  apply returns_renders in Hr1, Hr2.
  subst count. cbv beta.
  set (m := getMonth target) in *. set (y := getFullYear target) in *.
  set (w1 := save (fold_left (materialize_rule tz randomUUID m y) (recurring (data w)) w)).
  set (w2 := save (fold_left (materialize_rule tz randomUUID m y) (recurring (data w1)) w1)).
  assert (H1 : world_of first = w1).
  { unfold first. rewrite world_of_ensureRecurringForMonth.
    now rewrite (ensureRecurringForMonth_parsed tz randomUUID _ w _ Hparse). }
  assert (H2 : world_of second = w2).
  { unfold second. rewrite world_of_ensureRecurringForMonth, H1.
    now rewrite (ensureRecurringForMonth_parsed tz randomUUID _ w1 _ Hparse). }
  rewrite H2, H1, <- !materializations_bills.
  assert (Hc1 : List.length (materializations tz (Rule.id rule) m y (txs w1))
                = Nat.max (List.length (materializations tz (Rule.id rule) m y (txs w))) 1).
  { pose proof (fold_materialize_count tz randomUUID (Rule.id rule) m y
                  (recurring (data w)) w) as Hb.
    pose proof (fold_materialize_present tz randomUUID m y rule (recurring (data w))
                  Hm Hy Hact Hday w Hin) as Hp.
    cbv zeta in Hb. unfold w1. rewrite save_transactions.
    clear - Hb Hp. name_lengths. lia. }
  assert (Hc2 : List.length (materializations tz (Rule.id rule) m y (txs w2))
                = List.length (materializations tz (Rule.id rule) m y (txs w1))).
  { pose proof (fold_materialize_count tz randomUUID (Rule.id rule) m y
                  (recurring (data w1)) w1) as Hb.
    cbv zeta in Hb. unfold w2. rewrite save_transactions.
    clearbody w1. clear - Hb Hc1. name_lengths. lia. }
  split; [exact Hc1|]. split; [exact Hc2|]. split; [|split; [|split; assumption]].
  - unfold w2. rewrite save_transactions.
    apply fold_materialize_settled. rewrite Hc1. apply Nat.le_max_r.
  - intros Hone. rewrite Hc2, Hc1. clear - Hone. name_lengths. lia.
Qed.

(** C3.  For a target month that parses to a date (of a year that the Date
    constructor does not read as 19xx) and an active rule of the store (rule
    identifiers being unique) whose day, at most 31, does not exist in that
    month and that has no transaction in the month yet: the store that the
    call leaves holds a transaction of the rule dated at noon of the last
    day of the target month, and every transaction with the rule's
    identifier that the call added has that date: none is dated in the
    following month.  The call returns when the current view renders on the
    store, and raises at the end of [save] otherwise, with the same store
    left. *)
Theorem ensureRecurringForMonth_clamps_to_month_end (w : World)
    (monthDateStr : DateString) (target : Date) (rule : Rule.t) :
  new_Date tz monthDateStr = Some target ->
  ~ 0 <= getFullYear target <= 99 ->
  NoDup (map Rule.id (recurring (data w))) ->
  In rule (recurring (data w)) ->
  Rule.active rule = true ->
  DaysInMonth (getFullYear target) (getMonth target) < Rule.day rule <= 31 ->
  bills tz (Rule.id rule) (getMonth target) (getFullYear target) (txs w) = [] ->
  let lastDay :=
    ISOString (mkDate (getFullYear target) (getMonth target)
                      (DaysInMonth (getFullYear target) (getMonth target)) noon) in
  let call := Page.ensureRecurringForMonth tz randomUUID current monthDateStr w in
  (exists t, In t (txs (world_of call))
             /\ Tx.recurringId t = Some (Rule.id rule)
             /\ Tx.date t = lastDay)
  /\ (forall t, In t (txs (world_of call)) -> Tx.recurringId t = Some (Rule.id rule) ->
                In t (txs w) \/ Tx.date t = lastDay)
  /\ (returns call = true <-> renders tz current w).
Proof.
  intros Hparse Hy Hnd Hin Hact Hday Hnone lastDay call.
  pose proof (new_Date_valid tz _ _ Hparse) as (Hm & _).
  assert (Hr : returns call = Page.view_returns tz current w).
  { unfold call. rewrite returns_ensureRecurringForMonth.
    now rewrite (ensureRecurringForMonth_parsed tz randomUUID _ w _ Hparse). }
  apply returns_renders in Hr.
  set (m := getMonth target) in *. set (y := getFullYear target) in *.
  pose proof (DaysInMonth_bounds y m) as Hdim.
  assert (Hday' : 1 <= Rule.day rule <= 31) by lia.
  assert (Hdate : ISOString (materialization_date y m (Rule.day rule)) = lastDay).
  { rewrite materialization_date_clamped by assumption.
    subst lastDay. unfold noon. do 2 f_equal. lia. }
  set (w1 := save (fold_left (materialize_rule tz randomUUID m y) (recurring (data w)) w)).
  assert (H1 : world_of call = w1).
  { unfold call. rewrite world_of_ensureRecurringForMonth.
    now rewrite (ensureRecurringForMonth_parsed tz randomUUID _ w _ Hparse). }
  rewrite H1.
  assert (Hall : forall t, In t (txs w1) -> Tx.recurringId t = Some (Rule.id rule) ->
                           In t (txs w) \/ Tx.date t = lastDay).
  { rewrite <- Hdate. subst w1; simpl.
    apply (fold_materialize_dates m y rule w (recurring (data w)) Hnd Hin);
      [apply incl_refl | now left]. }
  split; [|split; assumption].
  pose proof (fold_materialize_present tz randomUUID m y rule (recurring (data w))
                Hm Hy Hact Hday' w Hin) as Hp.
  apply nonempty_has_member in Hp. destruct Hp as [t Ht].
  apply filter_In in Ht. destruct Ht as [Ht Hmat].
  assert (Hid : Tx.recurringId t = Some (Rule.id rule)).
  { unfold materialized_in, opt_is in Hmat.
    destruct (Tx.recurringId t) as [x|]; [|discriminate].
    apply andb_prop in Hmat. destruct Hmat as [Hmat _].
    apply andb_prop in Hmat. destruct Hmat as [Hmat _].
    apply String.eqb_eq in Hmat. now subst. }
  exists t. repeat split; [exact Ht | exact Hid |].
  destruct (Hall t Ht Hid) as [Hold|Hnew]; [|exact Hnew].
  exfalso.
  assert (Hf : In t (bills tz (Rule.id rule) m y (txs w))).
  { apply filter_In. split; [exact Hold|]. now rewrite <- materialized_in_is_bill. }
  rewrite Hnone in Hf. contradiction.
Qed.

(** C9.  [addRecurring] stores the rule with a fresh identifier and
    [active = true] whatever the item said, saves, and then runs
    [ensureRecurringForMonth] on the selected month.  Whenever the call
    returns, with a selected month of a year that the Date constructor does
    not read as 19xx and a day from 1 to 31, the store holds a transaction
    with the new rule's identifier dated in the selected month and year.
    The call returns exactly when the current view renders on the store and
    the selected month parses to a date; when the view does not render, the
    call raises at the end of the first [save], with the rule stored and
    saved and no transaction made. *)
Theorem addRecurring_materializes (item : Rule.t) (w : World) :
  let rule := Rule.mk (randomUUID (drawn w)) (Rule.title item) (Rule.category item)
                      (Rule.amount item) (Rule.day item) (Rule.type item) true in
  let stored := save (mkWorld (set_recurring (data w) (recurring (data w) ++ [rule]))
                              (localStorage w) (S (drawn w)) (now w)) in
  let call := Page.addRecurring tz randomUUID current item w in
  Rule.active rule = true
  /\ recurring (data (world_of call)) = (recurring (data w) ++ [rule])%list
  /\ (renders tz current w ->
      call = Page.ensureRecurringForMonth tz randomUUID current
               (selectedMonth (data w)) stored)
  /\ (~ renders tz current w -> call = Throw "TypeError" stored)
  /\ (returns call = true <->
      renders tz current w /\ new_Date tz (selectedMonth (data w)) <> None)
  /\ (forall target,
        returns call = true ->
        new_Date tz (selectedMonth (data w)) = Some target ->
        ~ 0 <= getFullYear target <= 99 ->
        1 <= Rule.day item <= 31 ->
        exists t, In t (txs (world_of call))
                  /\ is_bill tz (Rule.id rule) (getMonth target) (getFullYear target) t
                     = true).
Proof.
  intros rule stored call.
  assert (Hview : Page.view_returns tz current stored = Page.view_returns tz current w)
    by (now apply view_returns_business).
  assert (Hyes : Page.view_returns tz current w = true ->
                 call = Page.ensureRecurringForMonth tz randomUUID current
                          (selectedMonth (data w)) stored).
  { intros Hv. unfold call, Page.addRecurring, Page.save. cbv zeta.
    fold rule. change (save (mkWorld _ _ _ _)) with stored.
    rewrite renderResults_returned by (now rewrite Hview). reflexivity. }
  assert (Hno : Page.view_returns tz current w = false -> call = Throw "TypeError" stored).
  { intros Hv. unfold call, Page.addRecurring, Page.save. cbv zeta.
    fold rule. change (save (mkWorld _ _ _ _)) with stored.
    rewrite renderResults_raised by (now rewrite Hview). reflexivity. }
  assert (Hlast : existsb Rule.active (recurring (data stored)) = true).
  { simpl. rewrite existsb_app. simpl. apply orb_true_r. }
  split; [reflexivity|].
  split; [|split; [intros Hv; now apply Hyes, view_returns_renders|
                   split; [intros Hv; now apply Hno, view_returns_not_renders|split]]];
    try rewrite <- view_returns_renders.
  - destruct (Page.view_returns tz current w) eqn:Hv.
    + rewrite (Hyes eq_refl), world_of_ensureRecurringForMonth.
      unfold ensureRecurringForMonth.
      destruct (new_Date tz (selectedMonth (data w))) as [d|].
      * simpl. now rewrite fold_materialize_recurring.
      * now rewrite Hlast.
    + now rewrite (Hno eq_refl).
  - destruct (Page.view_returns tz current w) eqn:Hv.
    + rewrite (Hyes eq_refl), returns_ensureRecurringForMonth, Hview, andb_true_r.
      unfold ensureRecurringForMonth.
      destruct (new_Date tz (selectedMonth (data w))) as [d|].
      * simpl. split; [intros _; split; [reflexivity|discriminate] | reflexivity].
      * rewrite Hlast. simpl. split; [discriminate | intros [_ H]; now contradiction H].
    + rewrite (Hno eq_refl). simpl. split; [discriminate | intros [H _]; discriminate].
  - intros target Hret Hparse Hy Hday.
    destruct (Page.view_returns tz current w) eqn:Hv;
      [|rewrite (Hno eq_refl) in Hret; discriminate].
    rewrite (Hyes eq_refl), world_of_ensureRecurringForMonth.
    rewrite (ensureRecurringForMonth_parsed tz randomUUID _ stored _ Hparse). simpl.
    pose proof (new_Date_valid tz _ _ Hparse) as (Hm & _).
    assert (Hin : In rule (recurring (data stored)))
      by (simpl; apply in_or_app; right; now left).
    pose proof (fold_materialize_present tz randomUUID (getMonth target) (getFullYear target)
                  rule (recurring (data stored)) Hm Hy eq_refl Hday stored Hin) as Hp.
    apply nonempty_has_member in Hp. destruct Hp as [t Ht].
    apply filter_In in Ht. destruct Ht as [Ht Hmat].
    exists t. split; [exact Ht|]. now rewrite <- materialized_in_is_bill.
Qed.

End MaterializerClaims.

Lemma ensureRecurringForMonth_twice_witness :
  let first := Page.ensureRecurringForMonth brasilia sample_uuid "home" march_2024
                 rent_due_world in
  let second := Page.ensureRecurringForMonth brasilia sample_uuid "home" march_2024
                  (world_of first) in
  List.length (bills brasilia "rule-rent" 2 2024 (transactions (data (world_of second))))
  = 1%nat
  /\ returns first = true
  /\ returns second = true.
Proof.
  destruct (ensureRecurringForMonth_twice brasilia sample_uuid "home" rent_due_world
              march_2024 mid_march_2024 rent) as (_ & _ & _ & Hone & H1 & H2).
  - reflexivity.
  - simpl. lia.
  - simpl. now left.
  - reflexivity.
  - simpl. lia.
  - split; [apply Hone; simpl; lia|].
    split; [apply H1 | apply H2]; (split; [simpl; tauto | discriminate]).
Defined.

(** C2 as stated fails: in a store that already holds two transactions of a
    rule in the target month, two calls, which both return, leave two of
    them, not one. *)
Lemma two_materializations_stay_two :
  In rent (recurring (data rent_twice_world))
  /\ Rule.active rent = true
  /\ exists w1 w2,
       Page.ensureRecurringForMonth brasilia sample_uuid "home" march_2024 rent_twice_world
       = Normal w1
       /\ Page.ensureRecurringForMonth brasilia sample_uuid "home" march_2024 w1 = Normal w2
       /\ List.length (bills brasilia (Rule.id rent) 2 2024 (transactions (data w2)))
          = 2%nat.
Proof.
  split; [now left|]. split; [reflexivity|].
  do 2 eexists. split; [reflexivity|]. split; reflexivity.
Qed.

Lemma ensureRecurringForMonth_clamps_to_month_end_witness :
  let call := Page.ensureRecurringForMonth brasilia sample_uuid "home" february_2023
                insurance_world in
  (exists t, In t (transactions (data (world_of call)))
             /\ Tx.recurringId t = Some "rule-insurance"
             /\ Tx.date t = ISOString (mkDate 2023 1 28 noon))
  /\ (forall t, In t (transactions (data (world_of call))) ->
                Tx.recurringId t = Some "rule-insurance" ->
                In t (transactions (data insurance_world))
                \/ Tx.date t = ISOString (mkDate 2023 1 28 noon))
  /\ returns call = true.
Proof.
  destruct (ensureRecurringForMonth_clamps_to_month_end brasilia sample_uuid "home"
              insurance_world february_2023 (mkDate 2023 1 10 noon) insurance)
    as (Hthere & Hdates & Hret).
  - reflexivity.
  - simpl. lia.
  - simpl. repeat constructor; simpl; intuition discriminate.
  - simpl. right. now left.
  - reflexivity.
  - change (28 < 30 <= 31). lia.
  - reflexivity.
  - split; [exact Hthere|]. split; [exact Hdates|].
    apply Hret. split; [simpl; tauto | discriminate].
Defined.

(** The example of the day-clamping rule: the 30th in February 2023. *)
Example materialization_date_feb_30 :
  materialization_date 2023 1 30 = mkDate 2023 1 28 noon.
Proof. reflexivity. Qed.

Lemma addRecurring_materializes_witness :
  exists t, In t (transactions (data (world_of (Page.addRecurring brasilia sample_uuid "home"
                                                   electricity_item empty_world))))
            /\ is_bill brasilia "uuid-0" 2 2024 t = true.
Proof.
  apply (proj2 (proj2 (proj2 (proj2 (proj2
           (addRecurring_materializes brasilia sample_uuid "home" electricity_item
              empty_world))))) mid_march_2024).
  - reflexivity.
  - reflexivity.
  - simpl. lia.
  - simpl. lia.
Defined.

(** On the work view with a business expense of the selected day that has
    no category, [addRecurring] stores the rule and raises before any
    transaction is made. *)
Example addRecurring_on_a_view_that_raises :
  Page.addRecurring brasilia sample_uuid "work" electricity_item uncategorised_world
  = Throw "TypeError"
      (save (mkWorld (set_recurring (data uncategorised_world)
                        [Rule.mk "uuid-0" "Luz" "Luz" 95 5 "fixed" true])
                     no_storage 1 mid_march_2024))
  /\ transactions (data (world_of (Page.addRecurring brasilia sample_uuid "work"
                                     electricity_item uncategorised_world)))
     = transactions (data uncategorised_world).
Proof. split; reflexivity. Qed.

(** ** Balances and limits *)

Lemma fold_left_amounts (l : list Tx.t) : forall acc : Q,
  (fold_left (fun acc t => acc + Tx.amount t) l acc == acc + sum_amounts l)%Q.
Proof.
  induction l as [|t l IH]; intros acc; simpl.
  - ring.
  - rewrite IH. ring.
Qed.

Lemma reduce_amount_sum (l : list Tx.t) : (reduce_amount l == sum_amounts l)%Q.
Proof. unfold reduce_amount. rewrite fold_left_amounts. ring. Qed.





Lemma Qgtb_true (a b : Q) : Qgtb a b = true <-> (b < a)%Q.
Proof.
  unfold Qgtb. rewrite negb_true_iff. split.
  - intros H. apply Qnot_le_lt. intros Hle.
    apply Qle_bool_iff in Hle. congruence.
  - intros H. destruct (Qle_bool a b) eqn:E; [|reflexivity].
    apply Qle_bool_iff in E. exfalso. now apply (Qlt_not_le b a).
Qed.

Lemma Qgtb_false (a b : Q) : Qgtb a b = false <-> (a <= b)%Q.
Proof.
  unfold Qgtb. rewrite negb_false_iff. apply Qle_bool_iff.
Qed.


Section Limits.

Variable tz : Z.


Lemma month_is_received (w : World) (t : Tx.t) :
  month_is tz (getMonth (now w)) (Tx.date t) && year_is tz (getFullYear (now w)) (Tx.date t)
  = received_in_month tz w t.
Proof.
  unfold month_is, year_is, received_in_month, calendar_month.
  destruct (new_Date tz (Tx.date t)); [apply andb_comm | reflexivity].
Qed.


End Limits.


(** The scenario of the specification: the annual total is 82000 and the
    status is 'warning'. *)
Example annual_status_scenario :
  exists annual,
    getAccountLimitStatus brasilia "acc-mei" near_limit_world = Some annual
    /\ (total annual == 82000)%Q
    /\ status annual = "warning".
Proof. eexists. split; [reflexivity|]. split; reflexivity. Qed.

(** ** The range test *)

Lemma setHours_start_of_day (d : Date) :
  valid d ->
  setHours d 0 0 0 0 = mkDate (getFullYear d) (getMonth d) (getDate d) 0.
Proof.
  intros (Hm & Hd & _). unfold setHours, MakeDate.
  change (MakeTime 0 0 0 0 / msPerDay) with 0.
  change (MakeTime 0 0 0 0 mod msPerDay) with 0.
  now rewrite Z.add_0_r, MakeDay_in_month.
Qed.

Lemma setHours_end_of_day (d : Date) :
  valid d ->
  setHours d 23 59 59 999 = mkDate (getFullYear d) (getMonth d) (getDate d) 86399999.
Proof.
  intros (Hm & Hd & _). unfold setHours, MakeDate.
  change (MakeTime 23 59 59 999 / msPerDay) with 0.
  change (MakeTime 23 59 59 999 mod msPerDay) with 86399999.
  now rewrite Z.add_0_r, MakeDay_in_month.
Qed.

(** The day after a date of the calendar. *)
Lemma MakeDay_next_day (y m d : Z) :
  0 <= m <= 11 -> 1 <= d <= DaysInMonth y m ->
  MakeDay y m (d + 1) =
  if d <? DaysInMonth y m then (y, m, d + 1)
  else (fst (next_month y m), snd (next_month y m), 1).
Proof.
  intros Hm Hd. destruct (Z.ltb_spec d (DaysInMonth y m)).
  - apply MakeDay_in_month; lia.
  - rewrite MakeDay_overflow by lia. f_equal. lia.
Qed.

Lemma day_compare_next_day (e d : Date) :
  valid e ->
  (getFullYear d, getMonth d, getDate d)
  = MakeDay (getFullYear e) (getMonth e) (getDate e + 1) ->
  day_compare d e = Gt.
Proof.
  intros (Hm & Hd & _) Hnext.
  rewrite MakeDay_next_day in Hnext by assumption.
  unfold day_compare.
  destruct (getDate e <? DaysInMonth (getFullYear e) (getMonth e)).
  - injection Hnext as -> -> ->.
    rewrite !Z.compare_refl. apply Z.compare_gt_iff. lia.
  - unfold next_month in Hnext.
    destruct (Z.eqb_spec (getMonth e) 11); simpl in Hnext; injection Hnext as -> -> ->.
    + replace (getFullYear e + 1 ?= getFullYear e) with Gt; [reflexivity|].
      symmetry. apply Z.compare_gt_iff. lia.
    + rewrite Z.compare_refl.
      replace (getMonth e + 1 ?= getMonth e) with Gt; [reflexivity|].
      symmetry. apply Z.compare_gt_iff. lia.
Qed.

Section RangeTest.

Variable tz : Z.

(** The range test on the dates that the three texts parse to: the start is
    moved to 00:00:00.000 and the end to 23:59:59.999 of their calendar days
    on the host's clock; a date of the calendar day after the end's is
    outside the range; and when the calendar day of the start is not after
    that of the end, a date at any time of the end's calendar day is within
    the range. *)
Lemma isWithinRange_parsed_days (dateStr startStr endStr : DateString) (d s e : Date) :
  new_Date tz dateStr = Some d ->
  new_Date tz startStr = Some s ->
  new_Date tz endStr = Some e ->
  setHours s 0 0 0 0 = mkDate (getFullYear s) (getMonth s) (getDate s) 0
  /\ setHours e 23 59 59 999 = mkDate (getFullYear e) (getMonth e) (getDate e) 86399999
  /\ (day_le s e -> same_day d e -> isWithinRange tz dateStr startStr endStr = true)
  /\ ((getFullYear d, getMonth d, getDate d)
      = MakeDay (getFullYear e) (getMonth e) (getDate e + 1) ->
      isWithinRange tz dateStr startStr endStr = false).
Proof.
  intros Hd Hs He.
  pose proof (new_Date_valid tz _ _ Hd) as Vd.
  pose proof (new_Date_valid tz _ _ Hs) as Vs.
  pose proof (new_Date_valid tz _ _ He) as Ve.
  pose proof (setHours_start_of_day s Vs) as Hstart.
  pose proof (setHours_end_of_day e Ve) as Hend.
  split; [exact Hstart|]. split; [exact Hend|].
  unfold isWithinRange. rewrite Hd, Hs, He, Hstart, Hend.
  split.
  - intros Hle (Hy & Hm & Hday).
    destruct Vd as (_ & _ & Ht). unfold msPerDay in Ht.
    apply andb_true_iff. split.
    + unfold Date_leb, Date_compare, day_compare.
      cbn [getFullYear getMonth getDate getTimeInDay].
      unfold day_le, day_compare in Hle. rewrite Hy, Hm, Hday.
      destruct (getFullYear s ?= getFullYear e); try tauto; try reflexivity.
      destruct (getMonth s ?= getMonth e); try tauto; try reflexivity.
      destruct (getDate s ?= getDate e); try tauto; try reflexivity.
      destruct (Z.compare_spec 0 (getTimeInDay d)); try reflexivity. lia.
    + unfold Date_leb, Date_compare, day_compare.
      cbn [getFullYear getMonth getDate getTimeInDay].
      rewrite Hy, Hm, Hday, !Z.compare_refl.
      destruct (Z.compare_spec (getTimeInDay d) 86399999); try reflexivity. lia.
  - intros Hnext.
    apply andb_false_iff. right.
    unfold Date_leb, Date_compare.
    replace (day_compare d (mkDate (getFullYear e) (getMonth e) (getDate e) 86399999))
      with (day_compare d e) by reflexivity.
    now rewrite (day_compare_next_day e d Ve Hnext).
Qed.

End RangeTest.

Example isWithinRange_parsed_days_sample :
  setHours (mkDate 2024 2 1 70000000) 0 0 0 0 = mkDate 2024 2 1 0
  /\ setHours (mkDate 2024 2 10 noon) 23 59 59 999 = mkDate 2024 2 10 86399999
  /\ isWithinRange brasilia march_10_late march_1_evening march_10_noon = true
  /\ isWithinRange brasilia march_11_early march_1_evening march_10_noon = false.
Proof.
  destruct (isWithinRange_parsed_days brasilia march_10_late march_1_evening march_10_noon
              (mkDate 2024 2 10 86399000) (mkDate 2024 2 1 70000000) (mkDate 2024 2 10 noon)
              eq_refl eq_refl eq_refl) as (Hs & He & Hin & _).
  destruct (isWithinRange_parsed_days brasilia march_11_early march_1_evening march_10_noon
              (mkDate 2024 2 11 1000) (mkDate 2024 2 1 70000000) (mkDate 2024 2 10 noon)
              eq_refl eq_refl eq_refl) as (_ & _ & _ & Hout).
  split; [exact Hs|]. split; [exact He|]. split.
  - apply Hin; [unfold day_le; simpl; discriminate | repeat split].
  - apply Hout. reflexivity.
Qed.

(** For a start after the end, a date on the calendar day of the end is
    outside the range: the comparison is two-sided. *)
Example isWithinRange_inverted_window :
  new_Date brasilia march_10_late = Some (mkDate 2024 2 10 86399000)
  /\ new_Date brasilia march_10_noon = Some (mkDate 2024 2 10 noon)
  /\ same_day (mkDate 2024 2 10 86399000) (mkDate 2024 2 10 noon)
  /\ isWithinRange brasilia march_10_late march_20_noon march_10_noon = false.
Proof. repeat split. Qed.

(** C7.  The end of a report window as the page writes it.  The report view
    passes [reportStartDate] and [reportEndDate], which are date-only texts,
    and [new Date] reads such a text as midnight UTC.  On a host at UTC-3
    the end '2024-01-31' is 21:00 of 30 January; [setHours] moves it to
    23:59:59.999 of 30 January, not of the 31st as the comment in
    [isWithinRange] intends; and a transaction of noon of 31 January is
    outside the window from '2024-01-01' to '2024-01-31'.  It is within the
    window that ends one day later. *)
Theorem isWithinRange_date_only_end :
  new_Date brasilia (DateOnly 2024 0 31) = Some (mkDate 2024 0 30 75600000)
  /\ setHours (mkDate 2024 0 30 75600000) 23 59 59 999 = mkDate 2024 0 30 86399999
  /\ isWithinRange brasilia (ISOString (mkDate 2024 0 31 noon))
       (DateOnly 2024 0 1) (DateOnly 2024 0 31) = false
  /\ isWithinRange brasilia (ISOString (mkDate 2024 0 31 noon))
       (DateOnly 2024 0 1) (DateOnly 2024 1 1) = true.
Proof. repeat split. Qed.

(** ** The category groups of the report *)

Lemma sum_amounts_app (l1 l2 : list Tx.t) :
  (sum_amounts (l1 ++ l2) == sum_amounts l1 + sum_amounts l2)%Q.
Proof.
  induction l1 as [|t l1 IH]; simpl.
  - ring.
  - rewrite IH. ring.
Qed.

Lemma get_set_same (m : PropertyMap) (k : string) (v : MapValue) :
  get_property (set_property m k v) k = Some v.
Proof.
  induction m as [|[k' v'] m IH]; simpl.
  - now rewrite String.eqb_refl.
  - destruct (String.eqb_spec k' k) as [->|Hne]; simpl.
    + now rewrite String.eqb_refl.
    + apply String.eqb_neq in Hne. now rewrite Hne.
Qed.

Lemma get_set_other (m : PropertyMap) (k k' : string) (v : MapValue) :
  k <> k' -> get_property (set_property m k v) k' = get_property m k'.
Proof.
  intros Hne. induction m as [|[k0 v0] m IH]; simpl.
  - apply String.eqb_neq in Hne. now rewrite Hne.
  - destruct (String.eqb_spec k0 k) as [->|Hne0]; simpl.
    + apply String.eqb_neq in Hne. now rewrite Hne.
    + now rewrite IH.
Qed.

Lemma set_set (m : PropertyMap) (k : string) (v v' : MapValue) :
  set_property (set_property m k v) k v' = set_property m k v'.
Proof.
  induction m as [|[k0 v0] m IH]; simpl.
  - now rewrite String.eqb_refl.
  - destruct (k0 =? k)%string eqn:E; simpl; rewrite E; [reflexivity|].
    now rewrite IH.
Qed.

Lemma get_property_In (m : PropertyMap) (k : string) (v : MapValue) :
  get_property m k = Some v -> In (k, v) m.
Proof.
  induction m as [|[k' v'] m IH]; simpl; [discriminate|].
  destruct (String.eqb_spec k' k) as [->|Hne].
  - intros [= ->]. now left.
  - intros H. right. now apply IH.
Qed.

Lemma numbers_get (m : PropertyMap) (k : string) (v : MapValue) :
  numbers m -> get_property m k = Some v -> is_number v.
Proof.
  intros Hnum Hget. apply get_property_In in Hget.
  unfold numbers in Hnum. rewrite Forall_forall in Hnum. exact (Hnum _ Hget).
Qed.

Lemma numbers_set (m : PropertyMap) (k : string) (q : Q) :
  numbers m -> numbers (set_property m k (Number q)).
Proof.
  unfold numbers. induction m as [|[k' v'] m IH]; simpl; intros Hnum.
  - constructor; [now exists q | constructor].
  - inversion Hnum as [|? ? Hv Hrest]; subst.
    destruct (k' =? k)%string; constructor; auto. now exists q.
Qed.

Lemma inherited_proto (k : string) :
  inherited k = false -> (k =? "__proto__")%string = false.
Proof.
  unfold inherited. simpl. destruct (k =? "__proto__")%string; [discriminate|reflexivity].
Qed.

(** Under a label that is no inherited name, one turn of the loop writes one
    number under the label and leaves the rest of the map. *)
Lemma group_step_plain (m : PropertyMap) (T : Q) (t : Tx.t) :
  inherited (category_label t) = false ->
  numbers m ->
  group_step (m, T) t
  = (set_property m (category_label t)
                  (Number (held m (category_label t) + Tx.amount t)),
     (T + Tx.amount t)%Q).
Proof.
  intros Hin Hnum. unfold group_step, assign_property, read, held.
  set (cat := category_label t) in *.
  rewrite (inherited_proto _ Hin).
  destruct (get_property m cat) as [v|] eqn:Eget.
  - destruct (numbers_get m cat v Hnum Eget) as [q ->]. simpl.
    destruct (Qeq_bool q 0) eqn:Ez.
    + rewrite get_set_same. simpl. now rewrite set_set.
    + now rewrite Eget.
  - rewrite Hin. simpl. rewrite get_set_same. simpl. now rewrite set_set.
Qed.

Lemma held_amount (m : PropertyMap) (k : string) :
  (held m k == match get_property m k with Some old => amount_of old | None => 0 end)%Q.
Proof.
  unfold held. destruct (get_property m k) as [[q| |]|]; simpl; try reflexivity.
  destruct (Qeq_bool q 0) eqn:Ez; [|reflexivity].
  apply Qeq_bool_iff in Ez. now rewrite Ez.
Qed.

Lemma sum_vals_set (m : PropertyMap) (k : string) (v : MapValue) :
  (sum_vals (set_property m k v)
   == sum_vals m - match get_property m k with Some old => amount_of old | None => 0 end
      + amount_of v)%Q.
Proof.
  induction m as [|[k' v'] m IH]; simpl.
  - ring.
  - destruct (k' =? k)%string; simpl.
    + ring.
    + rewrite IH. ring.
Qed.

(** One turn of the loop adds the amount to the map's sum and to [total]. *)
Lemma group_step_sum (m : PropertyMap) (T : Q) (t : Tx.t) :
  inherited (category_label t) = false ->
  numbers m ->
  numbers (fst (group_step (m, T) t))
  /\ (sum_vals (fst (group_step (m, T) t)) == sum_vals m + Tx.amount t)%Q
  /\ snd (group_step (m, T) t) = (T + Tx.amount t)%Q.
Proof.
  intros Hin Hnum. rewrite (group_step_plain m T t Hin Hnum). simpl.
  split; [now apply numbers_set|]. split; [|reflexivity].
  rewrite sum_vals_set, <- held_amount. simpl. ring.
Qed.

Lemma fold_group_sum (txs : list Tx.t) : forall (m : PropertyMap) (T : Q),
  own_labels txs ->
  numbers m ->
  numbers (fst (fold_left group_step txs (m, T)))
  /\ (sum_vals (fst (fold_left group_step txs (m, T))) == sum_vals m + sum_amounts txs)%Q
  /\ (snd (fold_left group_step txs (m, T)) == T + sum_amounts txs)%Q.
Proof.
  induction txs as [|t txs IH]; intros m T Hown Hnum.
  - simpl. split; [exact Hnum|]. split; ring.
  - change (fold_left group_step (t :: txs) (m, T))
      with (fold_left group_step txs (group_step (m, T) t)).
    change (sum_amounts (t :: txs)) with (Tx.amount t + sum_amounts txs)%Q.
    inversion Hown as [|? ? Hin Hrest]; subst.
    destruct (group_step_sum m T t Hin Hnum) as (Hn & Hs & Ht).
    destruct (group_step (m, T) t) as [m1 T1].
    simpl in Hn, Hs, Ht. subst T1.
    destruct (IH m1 (T + Tx.amount t)%Q Hrest Hn) as (IH0 & IH1 & IH2).
    split; [exact IH0|]. split.
    + rewrite IH1, Hs. ring.
    + rewrite IH2. ring.
Qed.

Lemma label_total_absent (label : string) (txs : list Tx.t) :
  Forall (fun t => category_label t <> label) txs -> (label_total label txs == 0)%Q.
Proof.
  unfold label_total. induction 1 as [|t l Hne _ IH]; simpl; [reflexivity|].
  apply String.eqb_neq in Hne. now rewrite Hne.
Qed.

Lemma label_total_snoc (label : string) (txs : list Tx.t) (t : Tx.t) :
  (label_total label (txs ++ [t])
   == label_total label txs
      + (if (category_label t =? label)%string then Tx.amount t else 0))%Q.
Proof.
  unfold label_total. rewrite filter_app, sum_amounts_app. simpl.
  destruct (category_label t =? label)%string; simpl; ring.
Qed.

Lemma group_step_holds (m : PropertyMap) (T : Q) (txs : list Tx.t) (t : Tx.t) :
  inherited (category_label t) = false ->
  numbers m ->
  map_holds m txs -> map_holds (fst (group_step (m, T) t)) (txs ++ [t]).
Proof.
  intros Hin Hnum Hinv label. pose proof (Hinv (category_label t)) as Hcat.
  rewrite (group_step_plain m T t Hin Hnum). simpl.
  pose proof (held_amount m (category_label t)) as Hheld.
  set (cat := category_label t) in *.
  destruct (String.eqb_spec cat label) as [<-|Hne].
  - rewrite get_set_same. split; [now eexists|].
    simpl. rewrite label_total_snoc. fold cat. rewrite String.eqb_refl, Hheld.
    destruct (get_property m cat) as [v|].
    + destruct Hcat as [_ Hcat]. now rewrite Hcat.
    + rewrite (label_total_absent cat txs Hcat). ring.
  - rewrite get_set_other by assumption. specialize (Hinv label).
    destruct (get_property m label) as [v|].
    + destruct Hinv as [Hv Hinv]. split; [exact Hv|].
      rewrite label_total_snoc. fold cat.
      apply String.eqb_neq in Hne. rewrite Hne, Hinv. ring.
    + apply Forall_app. split; [exact Hinv|]. now constructor.
Qed.

Lemma fold_group_holds (txs : list Tx.t) :
  own_labels txs ->
  map_holds (fst (fold_left group_step txs ([], 0%Q))) txs.
Proof.
  induction txs as [|t txs IH] using rev_ind; intros Hown.
  - intros label. simpl. constructor.
  - apply Forall_app in Hown. destruct Hown as [Hown Ht].
    inversion Ht as [|? ? Hin _]; subst.
    rewrite fold_left_app. simpl.
    specialize (IH Hown).
    destruct (fold_left group_step txs ([], 0%Q)) as [m T] eqn:E.
    assert (Hnum : numbers m).
    { change m with (fst (m, T)). rewrite <- E.
      exact (proj1 (fold_group_sum txs [] 0%Q Hown (Forall_nil _))). }
    apply group_step_holds; assumption.
Qed.

Lemma set_property_keys (m : PropertyMap) (k : string) (v : MapValue) (a : string) :
  In a (map fst (set_property m k v)) -> a = k \/ In a (map fst m).
Proof.
  induction m as [|[k' v'] m IH]; simpl.
  - intros [<-|[]]. now left.
  - destruct (String.eqb_spec k' k) as [->|Hne]; simpl.
    + intros [<-|H]; [now left | right; now right].
    + intros [<-|H]; [right; now left|].
      destruct (IH H); [now left | right; now right].
Qed.

Lemma set_property_NoDup (m : PropertyMap) (k : string) (v : MapValue) :
  NoDup (map fst m) -> NoDup (map fst (set_property m k v)).
Proof.
  induction m as [|[k' v'] m IH]; simpl; intros Hnd.
  - repeat constructor. intros [].
  - inversion Hnd as [|? ? Hnotin Hnd']; subst.
    destruct (String.eqb_spec k' k) as [->|Hne]; simpl.
    + now constructor.
    + constructor; [|now apply IH].
      intros Hin. apply set_property_keys in Hin. destruct Hin; [congruence|contradiction].
Qed.

Lemma assign_property_NoDup (m : PropertyMap) (k : string) (v : MapValue) :
  NoDup (map fst m) -> NoDup (map fst (assign_property m k v)).
Proof.
  unfold assign_property. destruct (k =? "__proto__")%string; [trivial|].
  apply set_property_NoDup.
Qed.

Lemma group_step_NoDup (m : PropertyMap) (T : Q) (t : Tx.t) :
  NoDup (map fst m) -> NoDup (map fst (fst (group_step (m, T) t))).
Proof.
  intros Hnd. unfold group_step; simpl.
  apply assign_property_NoDup.
  destruct (falsy _); [now apply assign_property_NoDup | exact Hnd].
Qed.

Lemma fold_group_NoDup (txs : list Tx.t) : forall (m : PropertyMap) (T : Q),
  NoDup (map fst m) -> NoDup (map fst (fst (fold_left group_step txs (m, T)))).
Proof.
  induction txs as [|t txs IH]; intros m T Hnd; [exact Hnd|].
  change (fold_left group_step (t :: txs) (m, T))
    with (fold_left group_step txs (group_step (m, T) t)).
  pose proof (group_step_NoDup m T t Hnd) as Hstep.
  destruct (group_step (m, T) t) as [m1 T1].
  now apply IH.
Qed.

Lemma In_get_property (m : PropertyMap) (k : string) (v : MapValue) :
  NoDup (map fst m) -> In (k, v) m -> get_property m k = Some v.
Proof.
  induction m as [|[k' v'] m IH]; simpl; intros Hnd Hin; [contradiction|].
  inversion Hnd as [|? ? Hnotin Hnd']; subst.
  destruct Hin as [[= -> ->]|Hin].
  - now rewrite String.eqb_refl.
  - destruct (String.eqb_spec k' k) as [->|Hne]; [|now apply IH].
    exfalso. apply Hnotin. change k with (fst (k, v)). now apply in_map.
Qed.

Lemma sum_vals_Permutation (l l' : list (string * MapValue)) :
  Permutation l l' -> (sum_vals l == sum_vals l')%Q.
Proof.
  induction 1 as [|p l l' _ IH|p q l|l l' l'' _ IH1 _ IH2]; simpl.
  - reflexivity.
  - now rewrite IH.
  - ring.
  - now rewrite IH1.
Qed.

Lemma insert_by_index_Permutation (p : string * MapValue) (l : list (string * MapValue)) :
  Permutation (insert_by_index p l) (p :: l).
Proof.
  induction l as [|q l IH]; simpl; [reflexivity|].
  destruct (index_of p <=? index_of q)%N; [reflexivity|].
  rewrite IH. apply perm_swap.
Qed.

Lemma filter_split_Permutation {A : Type} (f : A -> bool) (l : list A) :
  Permutation (filter f l ++ filter (fun x => negb (f x)) l) l.
Proof.
  induction l as [|x l IH]; simpl; [reflexivity|].
  destruct (f x); simpl.
  - now constructor.
  - symmetry. apply Permutation_cons_app. now symmetry.
Qed.

Lemma Object_entries_Permutation (m : PropertyMap) : Permutation (Object_entries m) m.
Proof.
  unfold Object_entries.
  rewrite <- (filter_split_Permutation is_array_index m) at 3.
  apply Permutation_app_tail.
  induction (filter is_array_index m) as [|p l IH]; simpl; [reflexivity|].
  rewrite insert_by_index_Permutation. now constructor.
Qed.

Section StableSort.

Variable A : Type.
Variable cmp : A -> A -> Q.

Lemma sort_insert_Permutation (x : A) (l : list A) :
  Permutation (sort_insert cmp x l) (x :: l).
Proof.
  induction l as [|y l IH]; simpl; [reflexivity|].
  destruct (Qgtb (cmp y x) 0); [reflexivity|].
  rewrite IH. apply perm_swap.
Qed.

Lemma fold_sort_Permutation (l : list A) : forall sorted,
  Permutation (fold_left (fun s x => sort_insert cmp x s) l sorted) (sorted ++ l).
Proof.
  induction l as [|x l IH]; intros sorted; simpl.
  - now rewrite app_nil_r.
  - rewrite IH, sort_insert_Permutation. apply Permutation_middle.
Qed.

Lemma Array_sort_Permutation (l : list A) : Permutation (Array_sort cmp l) l.
Proof. unfold Array_sort. now rewrite fold_sort_Permutation. Qed.

(** A comparator of the shape [key b - key a] puts an element either before
    or after any other one. *)
Hypothesis cmp_total : forall a b, (0 < cmp a b)%Q -> (cmp b a <= 0)%Q.

Lemma sort_insert_Sorted (x : A) (l : list A) :
  Sorted (in_order cmp) l -> Sorted (in_order cmp) (sort_insert cmp x l).
Proof.
  induction l as [|y l IH]; simpl; intros Hs.
  - repeat constructor.
  - destruct (Qgtb (cmp y x) 0) eqn:E.
    + apply Qgtb_true in E. constructor; [exact Hs|].
      constructor. now apply cmp_total.
    + apply Qgtb_false in E.
      apply Sorted_inv in Hs. destruct Hs as [Hs Hhd].
      constructor; [now apply IH|].
      destruct l as [|z l]; simpl.
      * now constructor.
      * destruct (Qgtb (cmp z x) 0); constructor; [exact E|].
        now apply HdRel_inv in Hhd.
Qed.

Lemma Array_sort_Sorted (l : list A) : Sorted (in_order cmp) (Array_sort cmp l).
Proof.
  unfold Array_sort.
  assert (H : forall sorted, Sorted (in_order cmp) sorted ->
              Sorted (in_order cmp) (fold_left (fun s x => sort_insert cmp x s) l sorted)).
  { induction l as [|x l IH]; intros sorted Hs; simpl; [exact Hs|].
    apply IH. now apply sort_insert_Sorted. }
  apply H. constructor.
Qed.

End StableSort.

Lemma compare_entries_total (a b : string * MapValue) :
  (0 < compare_entries a b)%Q -> (compare_entries b a <= 0)%Q.
Proof.
  unfold compare_entries. destruct (snd a), (snd b); simpl; lra.
Qed.

Lemma compare_entries_numbers (a b : string * MapValue) :
  is_number (snd a) -> is_number (snd b) ->
  in_order compare_entries a b -> (amount_of (snd b) <= amount_of (snd a))%Q.
Proof.
  unfold in_order, compare_entries. intros [x ->] [y ->]. simpl. lra.
Qed.

Lemma Sorted_among {A : Type} (P : A -> Prop) (R R' : A -> A -> Prop) (l : list A) :
  (forall a b, P a -> P b -> R a b -> R' a b) ->
  Forall P l -> Sorted R l -> Sorted R' l.
Proof.
  intros HR Hall Hs. induction Hs as [|a l Hs IH Hhd]; [constructor|].
  inversion Hall as [|? ? Pa Pl]; subst.
  constructor; [now apply IH|].
  destruct Hhd as [|b l Hab]; constructor.
  inversion Pl; subst. now apply HR.
Qed.

Lemma loop_sums (txs : list Tx.t) :
  own_labels txs ->
  numbers (fst (fold_left group_step txs ([], 0%Q)))
  /\ (sum_vals (fst (fold_left group_step txs ([], 0%Q))) == sum_amounts txs)%Q
  /\ (snd (fold_left group_step txs ([], 0%Q)) == sum_amounts txs)%Q.
Proof.
  intros Hown.
  destruct (fold_group_sum txs [] 0%Q Hown (Forall_nil _)) as (H0 & H1 & H2).
  split; [exact H0|]. split.
  - etransitivity; [exact H1|]. simpl. ring.
  - etransitivity; [exact H2|]. ring.
Qed.

Lemma loop_NoDup (txs : list Tx.t) :
  NoDup (map fst (fst (fold_left group_step txs ([], 0%Q)))).
Proof. exact (fold_group_NoDup txs [] 0%Q (NoDup_nil _)). Qed.

Lemma sum_totals_map (f : string * MapValue -> Group.t) (l : list (string * MapValue)) :
  (forall p, Group.val (f p) = snd p) ->
  (sum_totals (map f l) == sum_vals l)%Q.
Proof.
  intros Hval. induction l as [|p l IH]; simpl; [reflexivity|].
  now rewrite IH, Hval.
Qed.

Lemma sum_percents_map (f : string * MapValue -> Group.t) (T : Q)
    (l : list (string * MapValue)) :
  ~ (T == 0)%Q ->
  (forall p, is_number (snd p) -> percent_of (f p) = (amount_of (snd p) / T * 100)%Q) ->
  numbers l ->
  (sum_percents (map f l) == sum_vals l / T * 100)%Q.
Proof.
  intros HT Hpct Hnum. induction Hnum as [|p l Hp _ IH]; simpl.
  - field. exact HT.
  - rewrite IH, (Hpct p Hp). field. exact HT.
Qed.

Lemma StronglySorted_map {A B : Type} (R : A -> A -> Prop) (R' : B -> B -> Prop)
    (f : A -> B) (l : list A) :
  (forall a b, R a b -> R' (f a) (f b)) ->
  StronglySorted R l -> StronglySorted R' (map f l).
Proof.
  intros Hf. induction 1 as [|a l _ IH Hall]; simpl; constructor.
  - exact IH.
  - apply Forall_map. eapply Forall_impl; [|exact Hall]. intros b. apply Hf.
Qed.

(** The groups of [groupByCat] for a list none of whose labels is a name
    that every object inherits: every total is a number; the totals add up
    to the sum of the amounts of the list; the percents add up to 100 when
    that sum is positive; there is one group per label, its total is the
    amount of the transactions with that label; every transaction is in the
    group of its label; and a group never stands before one with a larger
    total. *)
Lemma groupByCat_own_labels (txs : list Tx.t) :
  own_labels txs ->
  Forall (fun g => is_number (Group.val g)) (groupByCat txs)
  /\ (sum_totals (groupByCat txs) == sum_amounts txs)%Q
  /\ ((0 < sum_amounts txs)%Q -> (sum_percents (groupByCat txs) == 100)%Q)
  /\ NoDup (map Group.name (groupByCat txs))
  /\ (forall g, In g (groupByCat txs) ->
                (amount_of (Group.val g) == label_total (Group.name g) txs)%Q)
  /\ (forall t, In t txs ->
                exists g, In g (groupByCat txs) /\ Group.name g = category_label t)
  /\ StronglySorted descending (groupByCat txs).
Proof.
  intros Hown. unfold groupByCat.
  pose proof (loop_sums txs Hown) as (Hnum & Hsumm & HT).
  pose proof (fold_group_holds txs Hown) as Hinv.
  pose proof (loop_NoDup txs) as Hnd.
  destruct (fold_left group_step txs ([], 0%Q)) as [m T]. simpl in Hnum, Hsumm, HT, Hinv, Hnd.
  set (mk := fun entry : string * MapValue =>
               let '(name, val) := entry in
               Group.mk name val
                 (if Qgtb T 0
                  then match val with
                       | Number q => Some (q / T * 100)%Q
                       | _ => None
                       end
                  else Some 0%Q)).
  assert (Hperm : Permutation (Array_sort compare_entries (Object_entries m)) m)
    by (rewrite Array_sort_Permutation; apply Object_entries_Permutation).
  assert (Hval : forall p, Group.val (mk p) = snd p) by (now intros [k v]).
  assert (Hname : forall p, Group.name (mk p) = fst p) by (now intros [k v]).
  assert (Hnums : numbers (Array_sort compare_entries (Object_entries m))).
  { unfold numbers in *. rewrite Forall_forall in *. intros p Hp.
    apply Hnum. now apply (Permutation_in _ Hperm). }
  repeat apply conj.
  - apply Forall_map. unfold numbers in Hnums.
    eapply Forall_impl; [|exact Hnums]. intros p Hp. now rewrite Hval.
  - rewrite (sum_totals_map mk _ Hval), (sum_vals_Permutation _ _ Hperm). exact Hsumm.
  - intros Hpos. rewrite <- HT in Hpos.
    assert (Hgt : Qgtb T 0 = true) by now apply Qgtb_true.
    assert (HT0 : ~ (T == 0)%Q) by (intros H0; rewrite H0 in Hpos; now apply (Qlt_irrefl 0)).
    rewrite (sum_percents_map mk T); [|exact HT0| |exact Hnums].
    + rewrite (sum_vals_Permutation _ _ Hperm), Hsumm, <- HT. field. exact HT0.
    + intros [k v] [q Hq]. simpl in Hq. subst v. unfold percent_of. simpl. now rewrite Hgt.
  - rewrite map_map. rewrite (map_ext _ fst Hname).
    apply (Permutation_NoDup (l := map fst m)); [|exact Hnd].
    apply Permutation_map. now symmetry.
  - intros g Hg. apply in_map_iff in Hg. destruct Hg as ([k v] & <- & Hin).
    simpl. apply (Permutation_in _ Hperm) in Hin.
    pose proof (In_get_property m k v Hnd Hin) as Hget.
    specialize (Hinv k). rewrite Hget in Hinv. exact (proj2 Hinv).
  - intros t Ht. specialize (Hinv (category_label t)).
    destruct (get_property m (category_label t)) as [v|] eqn:Hget.
    + exists (mk (category_label t, v)). split; [|reflexivity].
      apply in_map. apply (Permutation_in _ (Permutation_sym Hperm)).
      now apply get_property_In.
    + exfalso. rewrite Forall_forall in Hinv. now apply (Hinv t Ht).
  - apply (StronglySorted_map
             (fun a b : string * MapValue => (amount_of (snd b) <= amount_of (snd a))%Q)
             descending mk).
    + intros a b Hab. unfold descending. now rewrite !Hval.
    + apply Sorted_StronglySorted.
      * intros a b c. lra.
      * apply (Sorted_among (fun p => is_number (snd p)) (in_order compare_entries)).
        -- intros a b. apply compare_entries_numbers.
        -- exact Hnums.
        -- apply Array_sort_Sorted. apply compare_entries_total.
Qed.

(** A transaction is reported under its category; one without a category,
    or with an empty one, under 'Outros'; and the empty list gives no
    group. *)
Lemma groupByCat_fallback :
  (forall t c, Tx.category t = Some c -> c <> "" -> category_label t = c)
  /\ (forall t, Tx.category t = None \/ Tx.category t = Some "" ->
                 category_label t = "Outros")
  /\ groupByCat [] = [].
Proof.
  split; [|split; [|reflexivity]].
  - intros t c H Hc. unfold category_label. rewrite H.
    apply String.eqb_neq in Hc. now rewrite Hc.
  - intros t [H|H]; unfold category_label; now rewrite H.
Qed.

(** The groups of the sample: largest first, the transaction without a
    category under 'Outros'. *)
Example groupByCat_sample :
  map Group.name (groupByCat report_sample) = ["Aluguel"; "Alimentacao"; "Outros"]
  /\ map (fun g => Qred (amount_of (Group.val g))) (groupByCat report_sample)
     = [100; 80; 20]%Q
  /\ map (fun g => Qred (percent_of g)) (groupByCat report_sample) = [50; 40; 10]%Q.
Proof. repeat split. Qed.

(** Groups with equal totals keep the order of [Object.entries], in which a
    label that is an array index comes first. *)
Example groupByCat_index_label :
  map Group.name (groupByCat [spent (Some "Luz") 10; spent (Some "2024") 10])
  = ["2024"; "Luz"].
Proof. reflexivity. Qed.

(** C6.  A category whose name every object inherits.  The object [map] of
    [groupByCat] is created as [{}]: under 'constructor' the first reading
    finds the inherited function, so that the group's total is a text and
    its percent is no number, and the totals of the groups no longer add up
    to the 150 of the list; under '__proto__' the assignment is dropped, so
    that an expense of 50 is in no group at all. *)
Theorem groupByCat_inherited_label :
  let rent := spent (Some "Aluguel") 100 in
  let filed := spent (Some "constructor") 50 in
  let hidden := spent (Some "__proto__") 50 in
  map (fun g => (Group.name g, Group.val g)) (groupByCat [rent; filed])
  = [("Aluguel", Number 100); ("constructor", Text)]
  /\ map Group.percent (groupByCat [rent; filed]) = [Some (100 / 150 * 100)%Q; None]
  /\ (sum_amounts [rent; filed] == 150)%Q
  /\ groupByCat [hidden] = []
  /\ (sum_amounts [hidden] == 50)%Q.
Proof. repeat split. Qed.

(** ** Installments *)

Section Installments.

Variable tz : Z.
Variable randomUUID : nat -> string.
Variable current : string.

Lemma addTransaction_appends (t : Tx.t) (w : World) :
  exists t', transactions (data (addTransaction randomUUID t w))
             = (transactions (data w) ++ [t'])%list
             /\ payload t' = payload t.
Proof. eexists. split; reflexivity. Qed.

(** A run of [addTransaction] appends one transaction per turn, in order. *)
Lemma fold_addTransaction (f : Z -> Tx.t) (turns : list Z) : forall w,
  exists created,
    transactions (data (fold_left (fun w' i => addTransaction randomUUID (f i) w') turns w))
    = (transactions (data w) ++ created)%list
    /\ map payload created = map (fun i => payload (f i)) turns.
Proof.
  induction turns as [|i turns IH]; intros w.
  - exists []. split; [now rewrite app_nil_r | reflexivity].
  - destruct (addTransaction_appends (f i) w) as (t' & Happ & Hpay).
    destruct (IH (addTransaction randomUUID (f i) w)) as (created & Hrun & Hmap).
    exists (t' :: created). split.
    + change (fold_left (fun w' i => addTransaction randomUUID (f i) w') (i :: turns) w)
        with (fold_left (fun w' i => addTransaction randomUUID (f i) w') turns
                (addTransaction randomUUID (f i) w)).
      rewrite Hrun, Happ, <- app_assoc. reflexivity.
    + simpl. now rewrite Hpay, Hmap.
Qed.

(** The date of a turn: the same day, at most the 28th, of the month that
    many months later. *)
Lemma installment_date (year month day i : Z) :
  ~ 0 <= year <= 99 -> 1 <= day <= 28 ->
  Date_of_fields year (month + i) day 12 0 0
  = mkDate (year + (month + i) / 12) ((month + i) mod 12) day noon.
Proof.
  intros Hy Hd. unfold Date_of_fields.
  replace ((0 <=? year) && (year <=? 99))%bool with false
    by (symmetry; apply andb_false_iff; lia).
  rewrite MakeDate_noon, MakeDay_small_day by assumption. reflexivity.
Qed.

(** C8, as amended.  An installment request with an amount that is a number
    other than 0, in a store whose selected month parses to a date (of a
    year that the Date constructor does not read as 19xx), for
    [qty >= 1] installments ([qty] being the number entered, 2 when it is 0
    or not a number).  The call returns exactly when the current view
    renders on the store, and it has then appended exactly [qty]
    transactions.  The [k]-th of them (from 0) is an expense of the
    household, dated at noon in the [k]-th month after the base month on the
    day of the base date, or on the 1st when the base date is after the
    28th, labelled "category (k+1/qty)", with the amount divided by [qty] in
    'total' mode and the amount itself otherwise, with the paid flag of the
    form for the first and [false] for the others, and with the one
    identifier drawn for the group.  When the view does not render, the
    re-rendering at the end of the first [addTransaction] raises, and the
    store is left with the first installment alone. *)
Theorem submitHomeExpense_installments (form : HomeForm) (w : World)
    (baseDate : Date) (amount : Q) :
  inp_home_type form = "install" ->
  inp_home_amount form = Some amount ->
  ~ (amount == 0)%Q ->
  new_Date tz (selectedMonth (data w)) = Some baseDate ->
  ~ 0 <= getFullYear baseDate <= 99 ->
  1 <= int_or (inp_install_qty form) 2 ->
  let qty := int_or (inp_install_qty form) 2 in
  let day := if 28 <? getDate baseDate then 1 else getDate baseDate in
  let parcelValue :=
    if (inp_install_mode form =? "total")%string then (amount / inject_Z qty)%Q
    else amount in
  let call := Page.submitHomeExpense tz randomUUID current form w in
  exists created,
    transactions (data (world_of call)) = (transactions (data w) ++ created)%list
    /\ (returns call = true <-> renders tz current w)
    /\ List.length created = (if returns call then Z.to_nat qty else 1%nat)
    /\ forall k : nat, (k < List.length created)%nat ->
         exists t,
           nth_error created k = Some t
           /\ Tx.type t = "expense"
           /\ Tx.isHomeExpense t = true
           /\ Tx.amount t = parcelValue
           /\ Tx.category t
              = Some (inp_home_cat form ++ " (" ++ decimal (Z.of_nat k + 1) ++ "/"
                      ++ decimal qty ++ ")")
           /\ Tx.date t
              = ISOString (mkDate (getFullYear baseDate
                                   + (getMonth baseDate + Z.of_nat k) / 12)
                                  ((getMonth baseDate + Z.of_nat k) mod 12) day noon)
           /\ Tx.isPaid t = (if (k =? 0)%nat then inp_is_paid form else false)
           /\ Tx.installmentId t = Some (randomUUID (drawn w)).
Proof.
  intros Htype Hamount Hnz Hparse Hy Hqty qty day parcelValue call.
  pose proof (new_Date_valid tz _ _ Hparse) as (_ & Hdate & _).
  assert (Hday : 1 <= day <= 28).
  { subst day. destruct (Z.ltb_spec 28 (getDate baseDate)); lia. }
  set (f := installment (inp_home_cat form) parcelValue qty (inp_is_paid form)
              (getFullYear baseDate) (getMonth baseDate) day (randomUUID (drawn w))).
  assert (Hhome : forall i, Tx.isHomeExpense (f i) = true) by reflexivity.
  assert (Hcall : call
                  = fold_left
                      (fun c i => and_then c (Page.addTransaction tz randomUUID current (f i)))
                      (map Z.of_nat (seq 0 (Z.to_nat qty))) (Normal (draw w))).
  { unfold call, Page.submitHomeExpense.
    rewrite Htype, Hamount. simpl.
    replace (Qeq_bool amount 0) with false
      by (symmetry; apply not_true_is_false; intros H; apply Hnz; now apply Qeq_bool_iff).
    simpl. rewrite Hparse. reflexivity. }
  assert (Hfields : forall (k : nat) (t : Tx.t),
            payload t = payload (f (Z.of_nat k)) ->
            Tx.type t = "expense"
            /\ Tx.isHomeExpense t = true
            /\ Tx.amount t = parcelValue
            /\ Tx.category t
               = Some (inp_home_cat form ++ " (" ++ decimal (Z.of_nat k + 1) ++ "/"
                       ++ decimal qty ++ ")")
            /\ Tx.date t
               = ISOString (mkDate (getFullYear baseDate
                                    + (getMonth baseDate + Z.of_nat k) / 12)
                                   ((getMonth baseDate + Z.of_nat k) mod 12) day noon)
            /\ Tx.isPaid t = (if (k =? 0)%nat then inp_is_paid form else false)
            /\ Tx.installmentId t = Some (randomUUID (drawn w))).
  { intros k t Hpay.
    injection Hpay as Hty Hamt _ Hcat Hdt _ Hh Hpaid _ Hinst _.
    repeat split; try assumption.
    - rewrite Hdt. f_equal. now apply installment_date.
    - rewrite Hpaid. destruct k; reflexivity. }
  assert (Hview : Page.view_returns tz current (draw w) = Page.view_returns tz current w)
    by (now apply view_returns_business).
  destruct (Page.view_returns tz current w) eqn:Hv.
  - rewrite (fold_addTransaction_household tz randomUUID current f _ Hhome _ Hview) in Hcall.
    destruct (fold_addTransaction f (map Z.of_nat (seq 0 (Z.to_nat qty))) (draw w))
      as (created & Hrun & Hmap).
    assert (Hlen : List.length created = Z.to_nat qty).
    { apply (f_equal (@List.length _)) in Hmap.
      rewrite !length_map, length_seq in Hmap. exact Hmap. }
    exists created. rewrite Hcall. simpl world_of. simpl returns.
    split; [exact Hrun|].
    split; [apply (returns_renders tz current (Normal w) w); now rewrite Hv|].
    split; [exact Hlen|].
    intros k Hk. rewrite Hlen in Hk.
    apply (f_equal (fun l => nth_error l k)) in Hmap.
    rewrite !nth_error_map, nth_error_seq in Hmap.
    apply Nat.ltb_lt in Hk. rewrite Hk in Hmap. cbn [option_map Nat.add] in Hmap.
    destruct (nth_error created k) as [t|]; [|discriminate].
    cbn [option_map] in Hmap.
    assert (Hpay : payload t = payload (f (Z.of_nat k))) by congruence.
    exists t. split; [reflexivity|]. now apply Hfields.
  - assert (Hseq : seq 0 (Z.to_nat qty) = (0 :: seq 1 (Z.to_nat qty - 1))%nat).
    { destruct (Z.to_nat qty) as [|n] eqn:En; [lia|].
      simpl. now rewrite Nat.sub_0_r. }
    rewrite Hseq in Hcall. simpl map in Hcall.
    rewrite (fold_addTransaction_raised tz randomUUID current f _ _ _ (Hhome _) Hview)
      in Hcall.
    destruct (addTransaction_appends (f 0) (draw w)) as (t & Happ & Hpay).
    exists [t]. rewrite Hcall. simpl world_of. simpl returns.
    split; [exact Happ|].
    split; [apply (returns_renders tz current (Throw "TypeError" w) w); now rewrite Hv|].
    split; [reflexivity|].
    intros k Hk. simpl in Hk. assert (k = 0%nat) as -> by lia.
    exists t. split; [reflexivity|]. now apply (Hfields 0%nat).
Qed.

End Installments.

Lemma submitHomeExpense_installments_witness :
  let call := Page.submitHomeExpense brasilia sample_uuid "home" sofa_form january_world in
  exists created,
    transactions (data (world_of call)) = (transactions (data january_world) ++ created)%list
    /\ returns call = true
    /\ List.length created = (if returns call then 3%nat else 1%nat)
    /\ forall k : nat, (k < List.length created)%nat ->
         exists t,
           nth_error created k = Some t
           /\ Tx.type t = "expense"
           /\ Tx.isHomeExpense t = true
           /\ Tx.amount t = (1200 / inject_Z 3)%Q
           /\ Tx.category t
              = Some ("Sofa" ++ " (" ++ decimal (Z.of_nat k + 1) ++ "/" ++ decimal 3 ++ ")")
           /\ Tx.date t
              = ISOString (mkDate (2024 + (0 + Z.of_nat k) / 12)
                                  ((0 + Z.of_nat k) mod 12) 15 noon)
           /\ Tx.isPaid t = (if (k =? 0)%nat then true else false)
           /\ Tx.installmentId t = Some (sample_uuid 0).
Proof.
  destruct (submitHomeExpense_installments brasilia sample_uuid "home" sofa_form
              january_world (mkDate 2024 0 15 noon) 1200%Q)
    as (created & Happ & Hret & Hlen & Hall).
  - reflexivity.
  - reflexivity.
  - intros H. vm_compute in H. discriminate.
  - reflexivity.
  - simpl. lia.
  - simpl. lia.
  - exists created. split; [exact Happ|].
    split; [apply Hret; split; [simpl; tauto | discriminate]|].
    split; [exact Hlen | exact Hall].
Defined.

(** The scenario of the specification: 1200 in 'total' mode over three
    months from January gives 400 in January, February and March, one
    group identifier and the labels (1/3), (2/3), (3/3). *)
Example installments_scenario :
  exists w',
    Page.submitHomeExpense brasilia sample_uuid "home" sofa_form january_world = Normal w'
    /\ map (fun t => Qred (Tx.amount t)) (transactions (data w')) = [400; 400; 400]%Q
    /\ map Tx.category (transactions (data w'))
       = [Some "Sofa (1/3)"; Some "Sofa (2/3)"; Some "Sofa (3/3)"]
    /\ map Tx.date (transactions (data w'))
       = [ISOString (mkDate 2024 0 15 noon); ISOString (mkDate 2024 1 15 noon);
          ISOString (mkDate 2024 2 15 noon)]
    /\ map Tx.installmentId (transactions (data w'))
       = [Some "uuid-0"; Some "uuid-0"; Some "uuid-0"]
    /\ map Tx.isPaid (transactions (data w')) = [true; false; false].
Proof. eexists. repeat split. Qed.

(** The same request on the work view, in a store with a business expense
    of the selected day that has no category: one installment is stored and
    the call raises. *)
Example installments_on_a_view_that_raises :
  exists w',
    Page.submitHomeExpense brasilia sample_uuid "work" sofa_form uncategorised_world
    = Throw "TypeError" w'
    /\ map Tx.category (transactions (data w')) = [None; Some "Sofa (1/3)"].
Proof. eexists. split; reflexivity. Qed.

(** C8 as stated fails for a base date after the 28th: the installments are
    dated on the 1st of each month, the first one on the 1st of the base
    month, and not on the 28th. *)
Lemma submitHomeExpense_after_the_28th :
  exists w',
    Page.submitHomeExpense brasilia sample_uuid "home" sofa_form end_of_january_world
    = Normal w'
    /\ map Tx.date (transactions (data w'))
       = [ISOString (mkDate 2024 0 1 noon); ISOString (mkDate 2024 1 1 noon);
          ISOString (mkDate 2024 2 1 noon)]
    /\ Z.min 31 28 = 28
    /\ ISOString (mkDate 2024 0 1 noon) <> ISOString (mkDate 2024 0 (Z.min 31 28) noon).
Proof.
  eexists. split; [reflexivity|]. split; [reflexivity|]. split; [reflexivity|].
  discriminate.
Qed.

(** ** The backup codec *)

Lemma getItem_setItem (storage : list (string * string)) (key text key' : string) :
  getItem (Backup.setItem storage key text) key'
  = if (key =? key')%string then Some text else getItem storage key'.
Proof.
  induction storage as [|[k v] storage IH]; simpl.
  - reflexivity.
  - destruct (String.eqb_spec k key) as [->|Hne]; simpl.
    + destruct (key =? key')%string; reflexivity.
    + rewrite IH. destruct (String.eqb_spec key key') as [Heq|Hne']; [|reflexivity].
      rewrite <- Heq. apply String.eqb_neq in Hne. now rewrite Hne.
Qed.

Section BackupClaims.

Variable JSON_parse : string -> option Backup.JSValue.
Variable JSON_stringify : Backup.JSValue -> string.
Variable view_body : string -> Backup.JSValue -> bool.

Abbreviation load := (Backup.loadBackupData JSON_parse JSON_stringify view_body).
Abbreviation text_of := (Backup.stored_text JSON_stringify).

(** The five keys after a [persist] that went through. *)
Lemma persist_keys (d : Backup.JSValue) (storage storage' : list (string * string)) :
  Backup.persist JSON_stringify d storage = Some storage' ->
  exists t c h a r,
    Backup.get d "transactions" = Some t
    /\ Backup.get d "customCategories" = Some c
    /\ Backup.get d "homeCategories" = Some h
    /\ Backup.get d "accounts" = Some a
    /\ Backup.get d "recurring" = Some r
    /\ getItem storage' "st_transactions" = Some (text_of t)
    /\ getItem storage' "st_customCategories" = Some (text_of c)
    /\ getItem storage' "st_homeCategories" = Some (text_of h)
    /\ getItem storage' "st_accounts" = Some (text_of a)
    /\ getItem storage' "st_recurring" = Some (text_of r).
Proof.
  unfold Backup.persist.
  destruct (Backup.get d "transactions") as [t|]; [|discriminate].
  destruct (Backup.get d "customCategories") as [c|]; [|discriminate].
  destruct (Backup.get d "homeCategories") as [h|]; [|discriminate].
  destruct (Backup.get d "accounts") as [a|]; [|discriminate].
  destruct (Backup.get d "recurring") as [r|]; [|discriminate].
  intros [= <-]. exists t, c, h, a, r.
  repeat split; rewrite !getItem_setItem; reflexivity.
Qed.

(** The outcomes of [loadBackupData]: a refusal that leaves the world as it
    was, or [Store.data] replaced by the whole parsed blob and the five
    collections of the blob written to storage. *)
Lemma loadBackupData_cases (jsonString : string) (w : Backup.World) :
  load jsonString w = (false, w)
  \/ exists parsed storage,
       JSON_parse jsonString = Some parsed
       /\ has_collection parsed "transactions" = true
       /\ has_collection parsed "accounts" = true
       /\ Backup.persist JSON_stringify parsed (Backup.localStorage w) = Some storage
       /\ snd (load jsonString w) = Backup.mkWorld parsed storage (Backup.current w)
       /\ fst (load jsonString w)
          = Backup.renderResults view_body
              (Backup.mkWorld parsed storage (Backup.current w)).
Proof.
  unfold Backup.loadBackupData, has_collection.
  destruct (JSON_parse jsonString) as [parsed|]; [|now left].
  destruct (Backup.get parsed "transactions") as [t|] eqn:Et; [|now left].
  destruct (Backup.get parsed "accounts") as [a|] eqn:Ea; [|now left].
  destruct (Backup.truthy t) eqn:Tt; simpl; [|now left].
  destruct (Backup.truthy a) eqn:Ta; simpl; [|now left].
  unfold Backup.save; simpl.
  destruct (Backup.persist JSON_stringify parsed (Backup.localStorage w))
    as [storage|] eqn:Ep.
  - right. exists parsed, storage. rewrite Et, Ea.
    destruct (Backup.renderResults view_body _) eqn:Er; simpl;
      repeat split; assumption || reflexivity.
  - exfalso. unfold Backup.persist in Ep. rewrite Et, Ea in Ep.
    destruct parsed; simpl in *; try discriminate.
Qed.

(** C5.  [loadBackupData] returns [false] and leaves the store and the
    storage as they were when the blob does not parse or the parsed value
    has no transactions or no accounts; when it returns [true], [Store.data]
    is the parsed blob and the five storage keys hold the blob's
    collections; and in every case the store afterwards is either the old
    one or the parsed blob as a whole. *)
Theorem loadBackupData_all_or_nothing (jsonString : string) (w : Backup.World) :
  ((JSON_parse jsonString = None
    \/ exists parsed, JSON_parse jsonString = Some parsed
                      /\ (has_collection parsed "transactions" = false
                          \/ has_collection parsed "accounts" = false)) ->
   load jsonString w = (false, w))
  /\ (fst (load jsonString w) = true ->
      exists parsed t c h a r,
        JSON_parse jsonString = Some parsed
        /\ Backup.data (snd (load jsonString w)) = parsed
        /\ Backup.get parsed "transactions" = Some t
        /\ Backup.get parsed "customCategories" = Some c
        /\ Backup.get parsed "homeCategories" = Some h
        /\ Backup.get parsed "accounts" = Some a
        /\ Backup.get parsed "recurring" = Some r
        /\ getItem (Backup.localStorage (snd (load jsonString w))) "st_transactions"
           = Some (text_of t)
        /\ getItem (Backup.localStorage (snd (load jsonString w))) "st_customCategories"
           = Some (text_of c)
        /\ getItem (Backup.localStorage (snd (load jsonString w))) "st_homeCategories"
           = Some (text_of h)
        /\ getItem (Backup.localStorage (snd (load jsonString w))) "st_accounts"
           = Some (text_of a)
        /\ getItem (Backup.localStorage (snd (load jsonString w))) "st_recurring"
           = Some (text_of r))
  /\ (Backup.data (snd (load jsonString w)) = Backup.data w
      \/ JSON_parse jsonString = Some (Backup.data (snd (load jsonString w)))).
Proof.
  destruct (loadBackupData_cases jsonString w)
    as [Hsame|(parsed & storage & Hp & Ht & Ha & Hst & Hsnd & Hfst)].
  - rewrite Hsame. simpl. split; [reflexivity|]. split; [discriminate|now left].
  - split; [|split].
    + intros [Hnone|(parsed' & Hp' & Hlack)]; [congruence|].
      rewrite Hp in Hp'. injection Hp' as <-.
      destruct Hlack; congruence.
    + intros _. rewrite Hsnd. simpl.
      destruct (persist_keys parsed _ _ Hst) as (t & c & h & a & r & H).
      exists parsed, t, c, h, a, r. tauto.
    + right. now rewrite Hsnd.
Qed.

(** C10.  The check of [loadBackupData] is on truthiness alone: a blob
    whose transactions are any truthy value (a non-empty text, say) and
    whose accounts are the empty list is accepted while the account view
    is the current one, and becomes [Store.data] as it is. *)
Theorem loadBackupData_checks_truthiness_only (jsonString : string) (w : Backup.World)
    (transactions : Backup.JSValue) :
  JSON_parse jsonString
  = Some (Backup.JObject [("transactions", transactions);
                          ("accounts", Backup.JArray [])]) ->
  Backup.truthy transactions = true ->
  Backup.current w = "mei" ->
  fst (load jsonString w) = true
  /\ Backup.data (snd (load jsonString w))
     = Backup.JObject [("transactions", transactions); ("accounts", Backup.JArray [])].
Proof.
  intros Hp Ht Hroute.
  unfold Backup.loadBackupData. rewrite Hp. simpl. rewrite Ht. simpl.
  unfold Backup.save, Backup.renderResults; simpl. rewrite Hroute. simpl.
  split; reflexivity.
Qed.

End BackupClaims.

Lemma loadBackupData_all_or_nothing_witness :
  Backup.loadBackupData (parse_as (Some no_accounts_blob)) stringify_sample views_return
    "backup" work_view_world = (false, work_view_world)
  /\ (exists parsed,
        parse_as (Some malformed_blob) "backup" = Some parsed
        /\ Backup.data (snd (Backup.loadBackupData (parse_as (Some malformed_blob))
                               stringify_sample views_return "backup" account_view_world))
           = parsed).
Proof.
  destruct (loadBackupData_all_or_nothing (parse_as (Some no_accounts_blob))
              stringify_sample views_return "backup" work_view_world) as (Hrefuse & _ & _).
  destruct (loadBackupData_all_or_nothing (parse_as (Some malformed_blob))
              stringify_sample views_return "backup" account_view_world) as (_ & Htrue & _).
  split.
  - apply Hrefuse. right. exists no_accounts_blob. split; [reflexivity|].
    right. reflexivity.
  - destruct (Htrue eq_refl) as (parsed & t & c & h & a & r & Hp & Hd & _).
    exists parsed. split; assumption.
Defined.

Lemma loadBackupData_checks_truthiness_only_witness :
  fst (Backup.loadBackupData (parse_as (Some malformed_blob)) stringify_sample
         views_return "backup" account_view_world) = true
  /\ Backup.data (snd (Backup.loadBackupData (parse_as (Some malformed_blob))
                         stringify_sample views_return "backup" account_view_world))
     = malformed_blob.
Proof.
  apply (loadBackupData_checks_truthiness_only (parse_as (Some malformed_blob))
           stringify_sample views_return "backup" account_view_world
           (Backup.JString "abc")).
  - reflexivity.
  - reflexivity.
  - reflexivity.
Defined.

(** The same blob while the work view is the current one: the store is
    replaced and written to storage, the view then fails on
    [transactions.filter], and the call returns [false]. *)
Example loadBackupData_malformed_on_work_view :
  fst (Backup.loadBackupData (parse_as (Some malformed_blob)) stringify_sample
         views_return "backup" work_view_world) = false
  /\ Backup.data (snd (Backup.loadBackupData (parse_as (Some malformed_blob))
                         stringify_sample views_return "backup" work_view_world))
     = malformed_blob.
Proof. split; reflexivity. Qed.

(** * Further properties of the store and of the actions

    ** Updates of one transaction *)

Lemma findIndex_None {A : Type} (p : A -> bool) (l : list A) :
  findIndex p l = None <-> Forall (fun x => p x = false) l.
Proof.
  induction l as [|x l IH]; simpl.
  - split; [constructor | reflexivity].
  - destruct (p x) eqn:E.
    + split; [discriminate|]. intros H. inversion H; congruence.
    + destruct (findIndex p l); simpl.
      * split; [discriminate|]. intros H. inversion H; subst.
        apply IH in H3. discriminate.
      * split; [|reflexivity]. intros _. constructor; [exact E | now apply IH].
Qed.

(** The index that [findIndex] returns is the place of the first element
    that passes the test. *)
Lemma findIndex_Some {A : Type} (p : A -> bool) (l : list A) (i : nat) :
  findIndex p l = Some i ->
  exists before x after,
    l = (before ++ x :: after)%list
    /\ Forall (fun y => p y = false) before
    /\ p x = true
    /\ nth_error l i = Some x
    /\ forall z, assign l i z = (before ++ z :: after)%list.
Proof.
  revert i. induction l as [|y l IH]; simpl; intros i H; [discriminate|].
  destruct (p y) eqn:E.
  - injection H as <-. exists [], y, l. repeat split; auto.
  - destruct (findIndex p l) as [j|]; [|discriminate].
    injection H as <-.
    destruct (IH j eq_refl) as (before & x & after & Hl & Hb & Hx & Hn & Ha).
    exists (y :: before), x, after. subst l. repeat split; auto.
    intros z. simpl. now rewrite Ha.
Qed.

(** X1.  [updateTransaction] with an identifier that no transaction has
    changes nothing: the store, the storage and the counter of identifiers
    are as before. *)
Theorem updateTransaction_unknown_id (id : string) (updates : TxPatch.t) (w : World) :
  (forall t, In t (transactions (data w)) -> Tx.id t <> id) ->
  updateTransaction id updates w = w.
Proof.
  intros Hnone. unfold updateTransaction.
  replace (findIndex (fun t => (Tx.id t =? id)%string) (transactions (data w)))
    with (@None nat); [reflexivity|].
  symmetry. apply findIndex_None. apply Forall_forall.
  intros t Ht. apply String.eqb_neq. now apply Hnone.
Qed.

(** X2.  When some transaction has the identifier, [updateTransaction]
    replaces the first such transaction by its merge with the updates,
    leaves every other transaction in its place, touches no other collection
    and writes the result to storage. *)
Theorem updateTransaction_first_match (id : string) (updates : TxPatch.t) (w : World)
    (t : Tx.t) :
  In t (transactions (data w)) ->
  Tx.id t = id ->
  exists before old after,
    transactions (data w) = (before ++ old :: after)%list
    /\ (forall x, In x before -> Tx.id x <> id)
    /\ Tx.id old = id
    /\ transactions (data (updateTransaction id updates w))
       = (before ++ merge_transaction old updates :: after)%list
    /\ accounts (data (updateTransaction id updates w)) = accounts (data w)
    /\ recurring (data (updateTransaction id updates w)) = recurring (data w)
    /\ st_transactions (localStorage (updateTransaction id updates w))
       = Some (before ++ merge_transaction old updates :: after)%list.
Proof.
  intros Hin Hid. unfold updateTransaction.
  destruct (findIndex (fun x => (Tx.id x =? id)%string) (transactions (data w)))
    as [i|] eqn:Hfind.
  - destruct (findIndex_Some _ _ _ Hfind) as (before & old & after & Hl & Hb & Hx & Hn & Ha).
    rewrite Hn. exists before, old, after.
    split; [exact Hl|]. split.
    { intros x Hxin. rewrite Forall_forall in Hb. apply String.eqb_neq. now apply Hb. }
    split; [now apply String.eqb_eq|].
    simpl. rewrite Ha. repeat split.
  - exfalso. apply findIndex_None in Hfind. rewrite Forall_forall in Hfind.
    specialize (Hfind t Hin). simpl in Hfind.
    apply String.eqb_neq in Hfind. contradiction.
Qed.

Lemma findIndex_first {A : Type} (p : A -> bool) (before after : list A) (x : A) :
  Forall (fun y => p y = false) before -> p x = true ->
  findIndex p (before ++ x :: after) = Some (List.length before).
Proof.
  intros Hb Hx. induction Hb as [|y l Hy _ IH]; simpl.
  - now rewrite Hx.
  - now rewrite Hy, IH.
Qed.

Lemma find_first {A : Type} (p : A -> bool) (before after : list A) (x : A) :
  Forall (fun y => p y = false) before -> p x = true ->
  find p (before ++ x :: after) = Some x.
Proof.
  intros Hb Hx. induction Hb as [|y l Hy _ IH]; simpl.
  - now rewrite Hx.
  - now rewrite Hy.
Qed.

Lemma assign_middle {A : Type} (before after : list A) (x z : A) :
  assign (before ++ x :: after) (List.length before) z = (before ++ z :: after)%list.
Proof. induction before as [|y l IH]; simpl; [reflexivity|]. now rewrite IH. Qed.

Lemma nth_error_middle {A : Type} (before after : list A) (x : A) :
  nth_error (before ++ x :: after) (List.length before) = Some x.
Proof. induction before as [|y l IH]; simpl; [reflexivity|exact IH]. Qed.

(** [updateTransaction] at a known place of the first match. *)
Lemma updateTransaction_at (id : string) (updates : TxPatch.t) (w : World)
    (before after : list Tx.t) (old : Tx.t) :
  transactions (data w) = (before ++ old :: after)%list ->
  Forall (fun x => (Tx.id x =? id)%string = false) before ->
  Tx.id old = id ->
  updateTransaction id updates w
  = save (with_data w (set_transactions (data w)
                         (before ++ merge_transaction old updates :: after)%list)).
Proof.
  intros Hl Hb Hid. unfold updateTransaction. rewrite Hl.
  rewrite (findIndex_first _ before after old Hb) by (now apply String.eqb_eq).
  now rewrite nth_error_middle, assign_middle.
Qed.

(** The first match of [find], as a place in the list. *)
Lemma find_place {A : Type} (p : A -> bool) (l : list A) (x : A) :
  find p l = Some x ->
  exists before after,
    l = (before ++ x :: after)%list /\ Forall (fun y => p y = false) before /\ p x = true.
Proof.
  induction l as [|y l IH]; simpl; [discriminate|].
  destruct (p y) eqn:E.
  - intros [= <-]. exists [], l. repeat split; auto.
  - intros H. destruct (IH H) as (before & after & -> & Hb & Hx).
    exists (y :: before), after. repeat split; auto.
Qed.

(** X3.  [togglePaid] twice on the same identifier gives back the list of
    transactions there was, whether or not a transaction has the identifier. *)
Theorem togglePaid_twice (id : string) (w : World) :
  transactions (data (togglePaid id (togglePaid id w))) = transactions (data w).
Proof.
  unfold togglePaid at 2.
  destruct (find (fun item => (Tx.id item =? id)%string) (transactions (data w)))
    as [t|] eqn:Hfind.
  - destruct (find_place _ _ _ Hfind) as (before & after & Hl & Hb & Hx).
    apply String.eqb_eq in Hx.
    rewrite (updateTransaction_at id _ w before after t Hl Hb Hx).
    set (t' := merge_transaction t _).
    set (w1 := save _).
    assert (Hl1 : transactions (data w1) = (before ++ t' :: after)%list) by reflexivity.
    assert (Hid1 : Tx.id t' = id) by exact Hx.
    unfold togglePaid. rewrite Hl1.
    rewrite (find_first _ before after t' Hb) by (now apply String.eqb_eq).
    rewrite (updateTransaction_at id _ w1 before after t' Hl1 Hb Hid1). simpl.
    rewrite Hl. do 2 f_equal.
    destruct t; simpl. now rewrite negb_involutive.
  - unfold togglePaid. now rewrite Hfind.
Qed.

Section Reminders.

Variable tz : Z.

Lemma materializations_app (ruleId : string) (month year : Z) (l1 l2 : list Tx.t) :
  materializations tz ruleId month year (l1 ++ l2)
  = (materializations tz ruleId month year l1
     ++ materializations tz ruleId month year l2)%list.
Proof. apply filter_app. Qed.

(** X4.  [updateReminder] with an amount that is 0 or not a number changes
    nothing.  With another amount, the first transaction that has the
    identifier gets that amount and is neither a reminder nor paid any
    more, while its rule and its date stay: it still counts as the
    materialization of its rule in its month, so the number of
    materializations of every rule in every month is as before. *)
Theorem updateReminder_resolves (inp_update_amount : option Q) (id : string) (w : World) :
  (falsy_number inp_update_amount = true -> updateReminder inp_update_amount id w = w)
  /\ (forall amount t,
        inp_update_amount = Some amount -> ~ (amount == 0)%Q ->
        In t (transactions (data w)) -> Tx.id t = id ->
        exists before old after,
          transactions (data w) = (before ++ old :: after)%list
          /\ (forall x, In x before -> Tx.id x <> id)
          /\ Tx.id old = id
          /\ exists resolved,
               transactions (data (updateReminder inp_update_amount id w))
               = (before ++ resolved :: after)%list
               /\ Tx.amount resolved = amount
               /\ Tx.isReminder resolved = false
               /\ Tx.isPaid resolved = false
               /\ Tx.recurringId resolved = Tx.recurringId old
               /\ Tx.date resolved = Tx.date old
               /\ forall ruleId month year,
                    List.length (materializations tz ruleId month year
                                   (transactions (data (updateReminder inp_update_amount id w))))
                    = List.length (materializations tz ruleId month year
                                     (transactions (data w)))).
Proof.
  split.
  - intros Hfalsy. unfold updateReminder. now rewrite Hfalsy.
  - intros amount t Hamount Hnz Hin Hid.
    assert (Hfind : exists i, findIndex (fun x => (Tx.id x =? id)%string)
                                (transactions (data w)) = Some i).
    { destruct (findIndex _ (transactions (data w))) as [i|] eqn:E; [now exists i|].
      apply findIndex_None in E. rewrite Forall_forall in E.
      specialize (E t Hin). simpl in E. apply String.eqb_neq in E. contradiction. }
    destruct Hfind as [i Hfind].
    destruct (findIndex_Some _ _ _ Hfind) as (before & old & after & Hl & Hb & Hx & _ & _).
    apply String.eqb_eq in Hx.
    exists before, old, after. split; [exact Hl|]. split.
    { intros x Hxin. rewrite Forall_forall in Hb. apply String.eqb_neq. now apply Hb. }
    split; [exact Hx|].
    unfold updateReminder. rewrite Hamount. simpl.
    replace (Qeq_bool amount 0) with false
      by (symmetry; apply not_true_is_false; intros H; apply Hnz; now apply Qeq_bool_iff).
    rewrite (updateTransaction_at id _ w before after old Hl Hb Hx).
    eexists. split; [reflexivity|]. repeat split.
    intros ruleId month year. simpl. rewrite Hl, !materializations_app.
    rewrite !length_app. f_equal. unfold materializations.
    change (filter ?p (?x :: ?l)) with (if p x then x :: filter p l else filter p l).
    set (resolved := merge_transaction old _).
    assert (Hsame : materialized_in tz ruleId month year resolved
                    = materialized_in tz ruleId month year old) by reflexivity.
    rewrite Hsame. now destruct (materialized_in tz ruleId month year old).
Qed.

End Reminders.

(** ** Rules that were cancelled, bills that were deleted *)

Section Cancelling.

Variable tz : Z.
Variable randomUUID : nat -> string.
Variable current : string.

Lemma materialize_rule_foreign (id : string) (month year : Z) (w : World) (rule : Rule.t) :
  Rule.id rule <> id ->
  filter (carries_rule id)
         (transactions (data (materialize_rule tz randomUUID month year w rule)))
  = filter (carries_rule id) (transactions (data w)).
Proof.
  intros Hne.
  destruct (materialize_rule_cases tz randomUUID month year w rule)
    as [->|(_ & _ & t & -> & Hrule & _)]; [reflexivity|].
  simpl. rewrite filter_app. simpl. unfold carries_rule at 2. rewrite Hrule. simpl.
  apply String.eqb_neq in Hne. rewrite Hne. now rewrite app_nil_r.
Qed.

Lemma fold_materialize_foreign (id : string) (month year : Z) (rules : list Rule.t) :
  Forall (fun r => Rule.id r <> id) rules ->
  forall w,
  filter (carries_rule id)
         (transactions (data (fold_left (materialize_rule tz randomUUID month year) rules w)))
  = filter (carries_rule id) (transactions (data w)).
Proof.
  induction 1 as [|r l Hr _ IH]; intros w; simpl; [reflexivity|].
  rewrite IH. now apply materialize_rule_foreign.
Qed.

(** X5.  [deleteRecurring] removes the rules that have the identifier and
    leaves every transaction, also the ones that the rule produced.  After
    it, [ensureRecurringForMonth] for any month, whether it returns or
    raises, adds no transaction that carries the identifier. *)
Theorem deleteRecurring_stops_rule (id : string) (monthDateStr : DateString) (w : World) :
  transactions (data (deleteRecurring id w)) = transactions (data w)
  /\ (forall r, In r (recurring (data (deleteRecurring id w)))
                <-> In r (recurring (data w)) /\ Rule.id r <> id)
  /\ filter (carries_rule id)
            (transactions (data (world_of (ensureRecurringForMonth tz randomUUID monthDateStr
                                             (deleteRecurring id w)))))
     = filter (carries_rule id) (transactions (data w)).
Proof.
  split; [reflexivity|]. split.
  - intros r. simpl. rewrite filter_In, negb_true_iff, String.eqb_neq. tauto.
  - unfold ensureRecurringForMonth.
    destruct (new_Date tz monthDateStr) as [d|].
    + simpl. rewrite fold_materialize_foreign; [reflexivity|].
      apply Forall_forall. intros r Hr. apply filter_In in Hr.
      destruct Hr as [_ Hr]. now apply negb_true_iff, String.eqb_neq in Hr.
    + destruct (existsb _ _); reflexivity.
Qed.

(** X6.  A bill that a rule produced comes back when it is deleted: once
    [deleteTransaction] has removed the transactions that carry the
    identifier of an active rule and are dated in a month, the store holds
    none, and the store that the next [ensureRecurringForMonth] for that
    month leaves holds exactly one.  Both hold whether the re-rendering at
    the end of either call returns or raises. *)
Theorem deleted_materialization_returns (id : string) (rule : Rule.t)
    (monthDateStr : DateString) (d : Date) (w : World) :
  new_Date tz monthDateStr = Some d ->
  ~ 0 <= getFullYear d <= 99 ->
  In rule (recurring (data w)) ->
  Rule.active rule = true ->
  1 <= Rule.day rule <= 31 ->
  (forall t, In t (transactions (data w)) ->
             is_bill tz (Rule.id rule) (getMonth d) (getFullYear d) t = true ->
             Tx.id t = id) ->
  let deleted := world_of (Page.deleteTransaction tz current true id w) in
  let again :=
    world_of (Page.ensureRecurringForMonth tz randomUUID current monthDateStr deleted) in
  bills tz (Rule.id rule) (getMonth d) (getFullYear d) (transactions (data deleted)) = []
  /\ List.length (bills tz (Rule.id rule) (getMonth d) (getFullYear d)
                        (transactions (data again))) = 1%nat.
Proof.
  intros Hparse Hyear Hin Hactive Hday Hids deleted again.
  assert (Hdel : deleted
                 = save (with_data w (set_transactions (data w)
                           (filter (fun t => negb (Tx.id t =? id)%string)
                                   (transactions (data w)))))).
  { unfold deleted, Page.deleteTransaction. apply world_of_save. }
  assert (Hnone : bills tz (Rule.id rule) (getMonth d) (getFullYear d)
                    (transactions (data deleted)) = []).
  { rewrite Hdel. simpl. unfold bills.
    destruct (filter _ (filter _ _)) as [|t rest] eqn:E; [reflexivity|exfalso].
    assert (Ht : In t (t :: rest)) by now left.
    rewrite <- E in Ht. apply filter_In in Ht. destruct Ht as [Ht Hmat].
    apply filter_In in Ht. destruct Ht as [Ht Hid].
    apply negb_true_iff, String.eqb_neq in Hid. apply Hid. now apply Hids. }
  split; [exact Hnone|].
  unfold again. rewrite world_of_ensureRecurringForMonth.
  rewrite (ensureRecurringForMonth_parsed tz randomUUID _ deleted _ Hparse).
  simpl world_of. rewrite save_transactions.
  assert (Hin' : In rule (recurring (data deleted))) by (rewrite Hdel; exact Hin).
  pose proof (new_Date_valid tz _ _ Hparse) as (Hmonth & _ & _).
  pose proof (fold_materialize_count tz randomUUID (Rule.id rule) (getMonth d)
                (getFullYear d) (recurring (data deleted)) deleted) as Hcount.
  pose proof (fold_materialize_present tz randomUUID (getMonth d) (getFullYear d) rule
                (recurring (data deleted)) Hmonth Hyear Hactive Hday deleted Hin')
    as Hpresent.
  cbv zeta in Hcount. repeat rewrite materializations_bills in Hcount.
  rewrite materializations_bills in Hpresent.
  rewrite Hnone in Hcount.
  change (@List.length Tx.t []) with 0%nat in Hcount.
  clearbody deleted. name_lengths. lia.
Qed.

End Cancelling.

(** ** Categories and accounts *)

Lemma includes_In (l : list string) (name : string) : includes l name = true <-> In name l.
Proof.
  unfold includes. rewrite existsb_exists. split.
  - intros (x & Hx & Heq). apply String.eqb_eq in Heq. now subst.
  - intros H. exists name. split; [exact H|apply String.eqb_refl].
Qed.

(** X7.  [addCustomCategory] treats the list of categories as a set: the
    name is in the list afterwards, nothing else is added or lost, a list
    without repetitions stays without, and adding the name once more
    changes nothing. *)
Theorem addCustomCategory_once (name : string) (w : World) :
  In name (customCategories (data (addCustomCategory name w)))
  /\ (forall c, In c (customCategories (data (addCustomCategory name w)))
                <-> In c (customCategories (data w)) \/ c = name)
  /\ (NoDup (customCategories (data w))
      -> NoDup (customCategories (data (addCustomCategory name w))))
  /\ addCustomCategory name (addCustomCategory name w) = addCustomCategory name w.
Proof.
  assert (Hagain : addCustomCategory name (addCustomCategory name w)
                   = addCustomCategory name w).
  { unfold addCustomCategory at 2 3.
    destruct (includes (customCategories (data w)) name) eqn:E; simpl.
    - unfold addCustomCategory. now rewrite E.
    - unfold addCustomCategory. simpl.
      replace (includes (customCategories (data w) ++ [name]) name) with true; [reflexivity|].
      symmetry. apply includes_In, in_or_app. right. now left. }
  split; [|split; [|split; [|exact Hagain]]]; clear Hagain; unfold addCustomCategory;
    destruct (includes (customCategories (data w)) name) eqn:E; simpl.
  - now apply includes_In.
  - apply in_or_app. right. now left.
  - apply includes_In in E. intros c. split; [now left|]. intros [H| ->]; assumption.
  - intros c. rewrite in_app_iff. simpl. split.
    + intros [H|[<-|[]]]; auto.
    + intros [H| ->]; auto.
  - trivial.
  - intros Hnd. apply NoDup_app; [exact Hnd|repeat constructor; intros []|].
    intros c Hc [<-|[]]. apply includes_In in Hc. congruence.
Qed.

Lemma find_filter_same (id : string) (l : list Acc.t) :
  find (fun a => (Acc.id a =? id)%string)
       (filter (fun a => negb (Acc.id a =? id)%string) l) = None.
Proof.
  induction l as [|a l IH]; simpl; [reflexivity|].
  destruct (Acc.id a =? id)%string eqn:E; simpl; [exact IH|]. now rewrite E.
Qed.

Lemma find_filter_other (id id' : string) (l : list Acc.t) :
  id' <> id ->
  find (fun a => (Acc.id a =? id')%string)
       (filter (fun a => negb (Acc.id a =? id)%string) l)
  = find (fun a => (Acc.id a =? id')%string) l.
Proof.
  intros Hne. induction l as [|a l IH]; simpl; [reflexivity|].
  destruct (Acc.id a =? id)%string eqn:E; simpl.
  - apply String.eqb_eq in E. subst id.
    apply String.eqb_neq in Hne. rewrite String.eqb_sym in Hne. now rewrite Hne.
  - now rewrite IH.
Qed.

Section Accounts.

Variable tz : Z.
Variable randomUUID : nat -> string.

(** X8.  [deleteAccount] keeps every transaction, also those that carry the
    account.  The deleted identifier then has balance 0 and no limit status,
    whatever its transactions are, and the balance of every other
    identifier is what it was. *)
Theorem deleteAccount_orphans (id : string) (w : World) :
  transactions (data (deleteAccount id w)) = transactions (data w)
  /\ (forall a, In a (accounts (data (deleteAccount id w)))
                <-> In a (accounts (data w)) /\ Acc.id a <> id)
  /\ getAccountBalance id (deleteAccount id w) = 0%Q
  /\ getAccountLimitStatus tz id (deleteAccount id w) = None
  /\ getAccountMonthlyStatus tz id (deleteAccount id w) = None
  /\ forall id', id' <> id ->
       getAccountBalance id' (deleteAccount id w) = getAccountBalance id' w
       /\ getAccountLimitStatus tz id' (deleteAccount id w) = getAccountLimitStatus tz id' w.
Proof.
  split; [reflexivity|]. split.
  { intros a. simpl. rewrite filter_In, negb_true_iff, String.eqb_neq. tauto. }
  assert (Hgone : find_account id (deleteAccount id w) = None)
    by apply find_filter_same.
  unfold getAccountBalance, getAccountLimitStatus, getAccountMonthlyStatus.
  rewrite Hgone. repeat split.
  - assert (Hkept : find_account id' (deleteAccount id w) = find_account id' w)
      by now apply find_filter_other.
    now rewrite Hkept.
  - assert (Hkept : find_account id' (deleteAccount id w) = find_account id' w)
      by now apply find_filter_other.
    now rewrite Hkept.
Qed.

Lemma find_last {A : Type} (p : A -> bool) (l : list A) (x : A) :
  Forall (fun y => p y = false) l -> p x = true -> find p (l ++ [x]) = Some x.
Proof. intros Hl Hx. now apply find_first. Qed.

Lemma filter_none {A : Type} (p : A -> bool) (l : list A) :
  (forall x, In x l -> p x = false) -> filter p l = [].
Proof.
  induction l as [|x l IH]; intros H; simpl; [reflexivity|].
  rewrite (H x) by now left. apply IH. intros y Hy. apply H. now right.
Qed.

(** X9.  [createAccount] without a name changes nothing.  With a name, and
    an identifier from [crypto.randomUUID] that no account has yet, it adds
    one account of type 'mei', saved with the others; when no transaction
    carries that identifier, the balance of the new account is the opening
    balance of the form (0 when that is not a number), and the account has
    an annual limit status whose total is that same amount. *)
Theorem createAccount_opens_mei_account (form : AccountForm) (w : World) :
  (acc_name form = "" -> createAccount randomUUID form w = w)
  /\ (acc_name form <> "" ->
      (forall a, In a (accounts (data w)) -> Acc.id a <> randomUUID (drawn w)) ->
      (forall t, In t (transactions (data w)) ->
                 Tx.accountId t <> Some (randomUUID (drawn w))) ->
      let id := randomUUID (drawn w) in
      let account := Acc.mk id (acc_name form) "mei" (acc_initial form) in
      accounts (data (createAccount randomUUID form w))
      = (accounts (data w) ++ [account])%list
      /\ st_accounts (localStorage (createAccount randomUUID form w))
         = Some (accounts (data w) ++ [account])%list
      /\ transactions (data (createAccount randomUUID form w)) = transactions (data w)
      /\ find_account id (createAccount randomUUID form w) = Some account
      /\ (getAccountBalance id (createAccount randomUUID form w)
          == or_zero (acc_initial form))%Q
      /\ exists s,
           getAccountLimitStatus tz id (createAccount randomUUID form w) = Some s
           /\ (total s == or_zero (acc_initial form))%Q).
Proof.
  split.
  - intros Hname. unfold createAccount. now rewrite Hname, String.eqb_refl.
  - intros Hname Hfresh Hnone id account.
    apply String.eqb_neq in Hname.
    unfold createAccount. rewrite Hname.
    split; [reflexivity|]. split; [reflexivity|]. split; [reflexivity|].
    assert (Hfind : find_account id (addAccount randomUUID
                                       (Acc.mk "" (acc_name form) "mei" (acc_initial form)) w)
                    = Some account).
    { unfold find_account. simpl. apply find_last.
      - apply Forall_forall. intros a Ha. apply String.eqb_neq. now apply Hfresh.
      - apply String.eqb_refl. }
    split; [exact Hfind|].
    assert (Hno : forall kind : Tx.t -> bool,
               filter (fun t => opt_is (Tx.accountId t) id && kind t)
                      (transactions (data w)) = []).
    { intros kind. apply filter_none. intros t Ht.
      specialize (Hnone t Ht). unfold opt_is.
      destruct (Tx.accountId t) as [a|]; [|reflexivity].
      destruct (String.eqb_spec a id) as [Heq|Hne]; [|reflexivity].
      exfalso. apply Hnone. now rewrite Heq. }
    split.
    + unfold getAccountBalance. rewrite Hfind.
      change (transactions (data (addAccount randomUUID _ w))) with (transactions (data w)).
      rewrite (Hno (fun t => (Tx.type t =? "income")%string)).
      rewrite (Hno (fun t => (Tx.type t =? "expense")%string)).
      unfold reduce_amount. simpl. ring.
    + unfold getAccountLimitStatus. rewrite Hfind. simpl Acc.type.
      change (negb ("mei" =? "mei")%string) with false. cbv iota.
      eexists. split; [reflexivity|]. simpl total.
      change (transactions (data (addAccount randomUUID _ w))) with (transactions (data w)).
      rewrite (filter_none _ (transactions (data w))).
      * unfold reduce_amount. simpl. ring.
      * intros t Ht. specialize (Hnone t Ht). unfold opt_is.
        destruct (Tx.accountId t) as [a|]; [|reflexivity].
        destruct (String.eqb_spec a id) as [Heq|Hne]; [|reflexivity].
        exfalso. apply Hnone. now rewrite Heq.
Qed.

End Accounts.

(** ** The two date tests of the views *)

Section SameDay.

Variable tz : Z.

(** X10.  [isSameDay] compares the texts of the two days, so it also holds
    between two texts that are no dates, and between any text and itself;
    [isSameMonth] holds between a text and itself only when the text is a
    date, and never between two texts that are no dates.  For a text that
    is a date, the same day is in the same month. *)
Theorem isSameDay_isSameMonth (a b : DateString) :
  isSameDay tz a a = true
  /\ (isSameMonth tz a a = true <-> new_Date tz a <> None)
  /\ (new_Date tz a = None -> new_Date tz b = None ->
      isSameDay tz a b = true /\ isSameMonth tz a b = false)
  /\ (new_Date tz a = None -> new_Date tz b <> None -> isSameDay tz a b = false)
  /\ (new_Date tz a <> None -> isSameDay tz a b = true -> isSameMonth tz a b = true).
Proof.
  unfold isSameDay, isSameMonth, toDateString.
  destruct (new_Date tz a) as [da|], (new_Date tz b) as [db|]; simpl;
    rewrite ?Z.eqb_refl; simpl;
    repeat split; try congruence; try discriminate; try (intros; exfalso; congruence).
  all: intros _ H; apply andb_true_iff in H; destruct H as [H _];
       apply andb_true_iff in H; destruct H as [Hy Hm];
       now rewrite Hy, Hm.
Qed.

End SameDay.

(** ** Income and expense of the business *)

Lemma reduce_amount_snoc (l : list Tx.t) (t : Tx.t) :
  (reduce_amount (l ++ [t]) == reduce_amount l + Tx.amount t)%Q.
Proof. rewrite !reduce_amount_sum, sum_amounts_app. simpl. ring. Qed.

Lemma filter_snoc {A : Type} (p : A -> bool) (l : list A) (x : A) :
  filter p (l ++ [x]) = if p x then (filter p l ++ [x])%list else filter p l.
Proof. rewrite filter_app. simpl. destruct (p x); [reflexivity|apply app_nil_r]. Qed.

Lemma falsy_number_Some (a : Q) : ~ (a == 0)%Q -> falsy_number (Some a) = false.
Proof.
  intros Hnz. simpl. apply not_true_is_false. intros H. apply Hnz. now apply Qeq_bool_iff.
Qed.

Section Business.

Variable tz : Z.
Variable randomUUID : nat -> string.
Variable current : string.

Lemma isSameDay_refl (text : DateString) : isSameDay tz text text = true.
Proof.
  unfold isSameDay, toDateString. destruct (new_Date tz text); [|reflexivity].
  now rewrite !Z.eqb_refl.
Qed.

(** What one more transaction on an account does to the balance. *)
Lemma addTransaction_balance (t : Tx.t) (w : World) (id : string) :
  Tx.accountId t = Some id -> find_account id w <> None ->
  (getAccountBalance id (addTransaction randomUUID t w)
   == getAccountBalance id w
      + (if (Tx.type t =? "income")%string then Tx.amount t else 0)
      - (if (Tx.type t =? "expense")%string then Tx.amount t else 0))%Q.
Proof.
  intros Hacc Hfind. unfold getAccountBalance.
  change (find_account id (addTransaction randomUUID t w)) with (find_account id w).
  destruct (find_account id w) as [account|]; [|congruence].
  destruct (addTransaction_appends randomUUID t w) as (t' & -> & Hpay).
  assert (Hty : Tx.type t' = Tx.type t) by exact (f_equal Tx.type Hpay).
  assert (Ham : Tx.amount t' = Tx.amount t) by exact (f_equal Tx.amount Hpay).
  assert (Hid : Tx.accountId t' = Some id)
    by (rewrite <- Hacc; exact (f_equal Tx.accountId Hpay)).
  rewrite !filter_snoc, Hid, Hty. simpl opt_is. rewrite String.eqb_refl. simpl andb.
  destruct (Tx.type t =? "income")%string, (Tx.type t =? "expense")%string;
    rewrite ?reduce_amount_snoc, ?Ham; ring.
Qed.

(** What one more business transaction of the selected day does to the
    figures of the work view. *)
Lemma addTransaction_work (t : Tx.t) (w : World) :
  Tx.isHomeExpense t = false -> Tx.date t = selectedDate (data w) ->
  (work_income tz (addTransaction randomUUID t w)
   == work_income tz w + (if (Tx.type t =? "income")%string then Tx.amount t else 0))%Q
  /\ (work_expense tz (addTransaction randomUUID t w)
      == work_expense tz w
         + (if (Tx.type t =? "expense")%string then Tx.amount t else 0))%Q.
Proof.
  intros Hhome Hdate. unfold work_income, work_expense, work_daily.
  change (selectedDate (data (addTransaction randomUUID t w))) with (selectedDate (data w)).
  destruct (addTransaction_appends randomUUID t w) as (t' & -> & Hpay).
  assert (Hty : Tx.type t' = Tx.type t) by exact (f_equal Tx.type Hpay).
  assert (Ham : Tx.amount t' = Tx.amount t) by exact (f_equal Tx.amount Hpay).
  assert (Hh : Tx.isHomeExpense t' = false)
    by (rewrite <- Hhome; exact (f_equal Tx.isHomeExpense Hpay)).
  assert (Hd : Tx.date t' = selectedDate (data w))
    by (rewrite <- Hdate; exact (f_equal Tx.date Hpay)).
  rewrite filter_snoc, Hh, Hd, isSameDay_refl. simpl andb. cbv iota.
  rewrite !filter_snoc, Hty.
  destruct (Tx.type t =? "income")%string, (Tx.type t =? "expense")%string;
    rewrite ?reduce_amount_snoc, ?Ham; split; ring.
Qed.

Lemma monthly_status_of_mei (accountId : string) (w : World) (account : Acc.t) :
  find_account accountId w = Some account -> Acc.type account = "mei" ->
  exists s, getAccountMonthlyStatus tz accountId w = Some s
            /\ (total s == income_of_month tz accountId w)%Q
            /\ limitSafe s = 6750%Q /\ limitMax s = 8100%Q.
Proof.
  intros Hfind Hmei. unfold getAccountMonthlyStatus. rewrite Hfind, Hmei.
  change (negb ("mei" =? "mei")%string) with false. cbv iota zeta.
  eexists. split; [reflexivity|]. split; [|split; reflexivity].
  simpl total. rewrite reduce_amount_sum. unfold income_of_month.
  erewrite filter_ext; [reflexivity|].
  intros t. unfold of_account. now rewrite <- (month_is_received tz), !andb_assoc.
Qed.


(** The entry that the income form makes. *)
Lemma submitIncome_accepted (form : IncomeForm) (w : World) (a : Q) :
  inp_amount form = Some a -> ~ (a == 0)%Q -> inp_account form <> "" ->
  submitIncome tz randomUUID true form w
  = addTransaction randomUUID
      (Tx.mk "" NotADate "income" a (Some (text_or (inp_desc form) "Venda")) None
             (selectedDate (data w)) (Some (inp_account form)) false false None None false) w.
Proof.
  intros Hamount Hnz Hacc. unfold submitIncome.
  rewrite Hamount, (falsy_number_Some a Hnz).
  apply String.eqb_neq in Hacc. rewrite Hacc. simpl orb. cbv iota.
  destruct (find_account (inp_account form) w) as [account|] eqn:Hfind; [|reflexivity].
  destruct (String.eqb_spec (Acc.type account) "mei") as [Hmei|Hother]; [|reflexivity].
  destruct (monthly_status_of_mei _ _ _ Hfind Hmei) as (s & -> & _).
  now destruct (_ || _ || _).
Qed.


(** X12.  An income that the form accepts becomes the last transaction,
    saved with the others: a business income of the selected day on the
    chosen account, described as 'Venda' when the form gave no text.  It
    raises the balance of the account, if the account exists, and the income
    of the work view by its amount. *)
Theorem submitIncome_records (form : IncomeForm) (w : World) (a : Q) :
  inp_amount form = Some a -> ~ (a == 0)%Q -> inp_account form <> "" ->
  exists t',
    transactions (data (submitIncome tz randomUUID true form w))
    = (transactions (data w) ++ [t'])%list
    /\ st_transactions (localStorage (submitIncome tz randomUUID true form w))
       = Some (transactions (data w) ++ [t'])%list
    /\ Tx.id t' = randomUUID (drawn w)
    /\ payload t'
       = Tx.mk "" NotADate "income" a (Some (text_or (inp_desc form) "Venda")) None
               (selectedDate (data w)) (Some (inp_account form)) false false None None false
    /\ (find_account (inp_account form) w <> None ->
        (getAccountBalance (inp_account form) (submitIncome tz randomUUID true form w)
         == getAccountBalance (inp_account form) w + a)%Q)
    /\ (work_income tz (submitIncome tz randomUUID true form w) == work_income tz w + a)%Q
    /\ (work_expense tz (submitIncome tz randomUUID true form w) == work_expense tz w)%Q.
Proof.
  intros Hamount Hnz Hacc.
  rewrite (submitIncome_accepted form w a Hamount Hnz Hacc).
  set (t := Tx.mk _ _ _ _ _ _ _ _ _ _ _ _ _).
  eexists. split; [reflexivity|]. split; [reflexivity|]. split; [reflexivity|].
  split; [reflexivity|]. split; [|split].
  - intros Hfind. rewrite (addTransaction_balance t w (inp_account form) eq_refl Hfind).
    simpl. ring.
  - destruct (addTransaction_work t w eq_refl eq_refl) as [-> _]. simpl. ring.
  - destruct (addTransaction_work t w eq_refl eq_refl) as [_ ->]. simpl. ring.
Qed.

Lemma addCustomCategory_keeps (name : string) (w : World) :
  transactions (data (addCustomCategory name w)) = transactions (data w)
  /\ accounts (data (addCustomCategory name w)) = accounts (data w)
  /\ selectedDate (data (addCustomCategory name w)) = selectedDate (data w)
  /\ drawn (addCustomCategory name w) = drawn w.
Proof.
  unfold addCustomCategory. destruct (negb _); repeat split.
Qed.

Lemma view_returns_addTransaction_labelled (t : Tx.t) (c : string) (w : World) :
  Tx.category t = Some c ->
  Page.view_returns tz current (addTransaction randomUUID t w)
  = Page.view_returns tz current w.
Proof.
  intros Hc. unfold Page.view_returns, Page.work_returns, work_daily.
  change (selectedDate (data (addTransaction randomUUID t w))) with (selectedDate (data w)).
  destruct (addTransaction_appends randomUUID t w) as (t' & -> & Hpay).
  assert (Hc' : Tx.category t' = Some c)
    by (rewrite <- Hc; exact (f_equal Tx.category Hpay)).
  rewrite filter_snoc.
  destruct (negb (Tx.isHomeExpense t')
            && isSameDay tz (Tx.date t') (selectedDate (data w))); [|reflexivity].
  rewrite forallb_app. simpl. now rewrite Hc', orb_true_r, !andb_true_r.
Qed.

(** The three ways of the expense form: the re-rendering after a new
    category was stored raises; the expense is refused; the expense is
    added. *)
Lemma submitExpense_cases (form : ExpenseForm) (w : World) :
  let newCat := inp_new_cat form in
  let w1 := if (newCat =? "")%string then w else addCustomCategory newCat w in
  let blocked := negb (newCat =? "")%string
                 && negb (includes (customCategories (data w)) newCat)
                 && negb (Page.view_returns tz current w) in
  Page.submitExpense tz randomUUID current form w
  = if blocked then Throw "TypeError" w1
    else if falsy_number (inp_exp_amount form) || (inp_exp_account form =? "")%string
         then Normal w1
         else Page.addTransaction tz randomUUID current
                (Tx.mk "" NotADate "expense"
                       match inp_exp_amount form with Some a => a | None => 0%Q end None
                       (Some (text_or (if (newCat =? "")%string then inp_category form
                                       else newCat) "Outros"))
                       (selectedDate (data w1)) (Some (inp_exp_account form))
                       false false None None false) w1.
Proof.
  intros newCat w1 blocked. unfold Page.submitExpense. fold newCat.
  subst w1 blocked.
  destruct (newCat =? "")%string; [reflexivity|].
  unfold Page.addCustomCategory, addCustomCategory, Page.save.
  destruct (includes (customCategories (data w)) newCat); [reflexivity|].
  simpl negb. cbv iota. simpl andb.
  set (stored := save (with_data w _)).
  assert (Hview : Page.view_returns tz current stored = Page.view_returns tz current w)
    by (now apply view_returns_business).
  unfold Page.renderResults at 1. rewrite Hview.
  now destruct (Page.view_returns tz current w).
Qed.

(** X13.  The expense form stores a new category first, and when the
    re-rendering after that raises (the category is new and the current view
    does not render on the store), the handler ends there and no expense is
    added.  A new category is stored in any case, also when the form then
    refuses the expense for its amount or its account.  Otherwise an expense
    that the form accepts becomes the last transaction: a business expense
    of the selected day under the new category, else the chosen one, else
    'Outros'; it lowers the balance of the account, if the account exists,
    and raises the expense of the work view by its amount; and the call
    returns when the current view renders on the store. *)
Theorem submitExpense_records (form : ExpenseForm) (w : World) :
  let call := Page.submitExpense tz randomUUID current form w in
  let newCat := inp_new_cat form in
  let blocked := newCat <> "" /\ ~ In newCat (customCategories (data w))
                 /\ ~ renders tz current w in
  (newCat <> "" -> In newCat (customCategories (data (world_of call))))
  /\ (falsy_number (inp_exp_amount form) = true \/ inp_exp_account form = "" ->
      transactions (data (world_of call)) = transactions (data w))
  /\ (blocked ->
      call = Throw "TypeError" (addCustomCategory newCat w)
      /\ transactions (data (world_of call)) = transactions (data w))
  /\ (forall a,
        inp_exp_amount form = Some a -> ~ (a == 0)%Q -> inp_exp_account form <> "" ->
        ~ blocked ->
        exists t',
          transactions (data (world_of call)) = (transactions (data w) ++ [t'])%list
          /\ payload t'
             = Tx.mk "" NotADate "expense" a None
                     (Some (text_or (if (newCat =? "")%string
                                     then inp_category form else newCat) "Outros"))
                     (selectedDate (data w)) (Some (inp_exp_account form))
                     false false None None false
          /\ (find_account (inp_exp_account form) w <> None ->
              (getAccountBalance (inp_exp_account form) (world_of call)
               == getAccountBalance (inp_exp_account form) w - a)%Q)
          /\ (work_expense tz (world_of call) == work_expense tz w + a)%Q
          /\ (returns call = true <-> renders tz current w)).
Proof.
  intros call newCat said.
  set (blocked := negb (newCat =? "")%string
                  && negb (includes (customCategories (data w)) newCat)
                  && negb (Page.view_returns tz current w)).
  assert (Hsaid : blocked = true <-> said).
  { unfold blocked, said.
    rewrite !andb_true_iff, !negb_true_iff, String.eqb_neq, view_returns_not_renders.
    rewrite <- includes_In.
    destruct (includes (customCategories (data w)) newCat); intuition congruence. }
  clearbody said.
  pose proof (submitExpense_cases form w) as Hcases. cbv zeta in Hcases.
  fold newCat blocked call in Hcases.
  set (w1 := if (newCat =? "")%string then w else addCustomCategory newCat w) in *.
  assert (Hkeep : transactions (data w1) = transactions (data w)
                  /\ accounts (data w1) = accounts (data w)
                  /\ selectedDate (data w1) = selectedDate (data w)
                  /\ drawn w1 = drawn w).
  { unfold w1. destruct (newCat =? "")%string; [repeat split|].
    apply addCustomCategory_keeps. }
  destruct Hkeep as (Htxs & Haccs & Hsel & Hdrawn).
  assert (Hbalance : forall id, getAccountBalance id w1 = getAccountBalance id w).
  { intros id. unfold getAccountBalance, find_account. now rewrite Htxs, Haccs. }
  assert (Hwork : work_expense tz w1 = work_expense tz w).
  { unfold work_expense, work_daily. now rewrite Htxs, Hsel. }
  assert (Hview : Page.view_returns tz current w1 = Page.view_returns tz current w).
  { apply view_returns_business; [|exact Hsel]. unfold business. now rewrite Htxs. }
  assert (Hcat : newCat <> "" -> In newCat (customCategories (data w1))).
  { intros Hne. apply String.eqb_neq in Hne. unfold w1. rewrite Hne.
    unfold addCustomCategory.
    destruct (includes (customCategories (data w)) newCat) eqn:E; simpl.
    - now apply includes_In.
    - apply in_or_app. right. now left. }
  assert (Hworld : world_of call = w1
                   \/ (blocked = false
                       /\ falsy_number (inp_exp_amount form)
                          || (inp_exp_account form =? "")%string = false
                       /\ exists t, world_of call = addTransaction randomUUID t w1)).
  { rewrite Hcases. destruct blocked; [now left|].
    destruct (_ || _); [now left|]. right. split; [reflexivity|]. split; [reflexivity|].
    eexists. apply world_of_addTransaction. }
  split; [|split; [|split]].
  - intros Hne. destruct Hworld as [->|(_ & _ & t & ->)]; now apply Hcat.
  - intros Hrefused.
    destruct Hworld as [->|(_ & Hacc & _)]; [exact Htxs|exfalso].
    apply orb_false_iff in Hacc. destruct Hacc as [H1 H2].
    destruct Hrefused as [H|H]; [congruence|].
    rewrite H in H2. discriminate.
  - intros Hb. apply Hsaid in Hb. rewrite Hcases, Hb. simpl world_of.
    split; [|exact Htxs]. f_equal. clear - Hb. subst blocked w1.
    destruct (newCat =? "")%string; [simpl in Hb; discriminate | reflexivity].
  - intros a Hamount Hnz Hacc Hb. apply String.eqb_neq in Hacc.
    assert (Hb' : blocked = false)
      by (destruct blocked; [now contradiction Hb; apply Hsaid | reflexivity]).
    clear Hb. rename Hb' into Hb.
    rewrite Hcases, Hb, Hamount, (falsy_number_Some a Hnz), Hacc. simpl orb. cbv iota.
    set (t := Tx.mk _ _ _ _ _ _ _ _ _ _ _ _ _).
    rewrite world_of_addTransaction.
    unfold Page.addTransaction. rewrite returns_renderResults.
    rewrite (view_returns_addTransaction_labelled t _ w1 eq_refl), Hview.
    eexists. split; [simpl; rewrite Htxs; reflexivity|].
    split; [simpl; rewrite Hsel; reflexivity|].
    split; [|split; [|apply view_returns_renders]].
    + intros Hfind.
      rewrite (addTransaction_balance t w1 (inp_exp_account form) eq_refl).
      * rewrite Hbalance. simpl. ring.
      * unfold find_account in *. now rewrite Haccs.
    + destruct (addTransaction_work t w1 eq_refl eq_refl) as [_ ->].
      rewrite Hwork. simpl. ring.
Qed.

End Business.

(** ** Moving the selected day and the selected month *)

Lemma next_prev_month (y m : Z) :
  0 <= m <= 11 -> next_month (fst (prev_month y m)) (snd (prev_month y m)) = (y, m).
Proof.
  intros Hm. unfold prev_month, next_month.
  destruct (Z.eqb_spec m 0); simpl.
  - subst m. f_equal. lia.
  - destruct (Z.eqb_spec (m - 1) 11); [lia|]. f_equal. lia.
Qed.

Lemma prev_month_differs (y m : Z) : 0 <= m <= 11 -> snd (prev_month y m) <> m.
Proof. unfold prev_month. destruct (Z.eqb_spec m 0); simpl; lia. Qed.

(** The day before a date of the calendar. *)
Lemma MakeDay_prev_day (y m d : Z) :
  0 <= m <= 11 -> 1 <= d <= DaysInMonth y m ->
  MakeDay y m (d - 1) =
  if 1 <? d then (y, m, d - 1)
  else (fst (prev_month y m), snd (prev_month y m),
        DaysInMonth (fst (prev_month y m)) (snd (prev_month y m))).
Proof.
  intros Hm Hd. destruct (Z.ltb_spec 1 d).
  - apply MakeDay_in_month; lia.
  - replace (d - 1) with 0 by lia. now apply MakeDay_day_zero.
Qed.

Lemma MakeDate_in_day (y m d t : Z) :
  0 <= t < msPerDay ->
  MakeDate y m d t = let '(y', m', d') := MakeDay y m d in mkDate y' m' d' t.
Proof.
  intros Ht. unfold MakeDate.
  rewrite Z.div_small, Z.mod_small, Z.add_0_r by exact Ht. reflexivity.
Qed.

(** Months outside 0..11 carry into the year before anything else. *)
Lemma MakeDay_month_carry (y m d : Z) : MakeDay y m d = MakeDay (y + m / 12) (m mod 12) d.
Proof.
  unfold MakeDay.
  assert (Hm : 0 <= m mod 12 < 12) by (apply Z.mod_pos_bound; lia).
  now rewrite (Z.div_small (m mod 12)), (Z.mod_small (m mod 12)), Z.add_0_r by exact Hm.
Qed.

Lemma new_Date_ISOString (tz : Z) (d : Date) : valid d -> new_Date tz (ISOString d) = Some d.
Proof. intros Hd. simpl. apply validb_valid in Hd. now rewrite Hd. Qed.

Section Moving.

Variable tz : Z.
Variable randomUUID : nat -> string.
Variable current : string.

Lemma setDate_next (d : Date) :
  valid d ->
  setDate d (getDate d + 1)
  = if getDate d <? DaysInMonth (getFullYear d) (getMonth d)
    then mkDate (getFullYear d) (getMonth d) (getDate d + 1) (getTimeInDay d)
    else mkDate (fst (next_month (getFullYear d) (getMonth d)))
                (snd (next_month (getFullYear d) (getMonth d))) 1 (getTimeInDay d).
Proof.
  intros (Hm & Hd & Ht). unfold setDate.
  rewrite MakeDate_in_day, MakeDay_next_day by assumption.
  now destruct (_ <? _).
Qed.

Lemma setDate_prev (d : Date) :
  valid d ->
  setDate d (getDate d + -1)
  = if 1 <? getDate d
    then mkDate (getFullYear d) (getMonth d) (getDate d - 1) (getTimeInDay d)
    else mkDate (fst (prev_month (getFullYear d) (getMonth d)))
                (snd (prev_month (getFullYear d) (getMonth d)))
                (DaysInMonth (fst (prev_month (getFullYear d) (getMonth d)))
                             (snd (prev_month (getFullYear d) (getMonth d))))
                (getTimeInDay d).
Proof.
  intros (Hm & Hd & Ht). unfold setDate.
  replace (getDate d + -1) with (getDate d - 1) by lia.
  rewrite MakeDate_in_day, MakeDay_prev_day by assumption.
  now destruct (_ <? _).
Qed.

Lemma setDate_next_prev (d : Date) :
  valid d ->
  setDate (setDate d (getDate d + 1)) (getDate (setDate d (getDate d + 1)) + -1) = d.
Proof.
  intros Hv. pose proof Hv as (Hm & Hd & Ht).
  assert (Hv1 : valid (setDate d (getDate d + 1))) by apply MakeDate_valid.
  rewrite (setDate_prev _ Hv1). rewrite !(setDate_next d Hv).
  destruct d as [y m dd t]. cbn [getFullYear getMonth getDate getTimeInDay] in *.
  destruct (Z.ltb_spec dd (DaysInMonth y m)); cbn [getFullYear getMonth getDate getTimeInDay].
  - destruct (Z.ltb_spec 1 (dd + 1)); [|lia]. f_equal. lia.
  - change (1 <? 1) with false. cbv iota.
    rewrite prev_next_month by exact Hm. cbn [fst snd]. f_equal. lia.
Qed.

Lemma setDate_prev_next (d : Date) :
  valid d ->
  setDate (setDate d (getDate d + -1)) (getDate (setDate d (getDate d + -1)) + 1) = d.
Proof.
  intros Hv. pose proof Hv as (Hm & Hd & Ht).
  assert (Hv1 : valid (setDate d (getDate d + -1))) by apply MakeDate_valid.
  rewrite (setDate_next _ Hv1). rewrite !(setDate_prev d Hv).
  destruct d as [y m dd t]. cbn [getFullYear getMonth getDate getTimeInDay] in *.
  destruct (Z.ltb_spec 1 dd); cbn [getFullYear getMonth getDate getTimeInDay].
  - destruct (Z.ltb_spec (dd - 1) (DaysInMonth y m)); [|lia]. f_equal. lia.
  - rewrite Z.ltb_irrefl. rewrite next_prev_month by exact Hm. cbn [fst snd].
    f_equal. lia.
Qed.

Lemma isSameDay_parsed (a b : DateString) (da db : Date) :
  new_Date tz a = Some da -> new_Date tz b = Some db ->
  isSameDay tz a b
  = (getFullYear da =? getFullYear db) && (getMonth da =? getMonth db)
    && (getDate da =? getDate db).
Proof. intros Ha Hb. unfold isSameDay. now rewrite Ha, Hb. Qed.

Lemma setDate_next_other_day (d : Date) :
  valid d ->
  (getFullYear (setDate d (getDate d + 1)) =? getFullYear d)
  && (getMonth (setDate d (getDate d + 1)) =? getMonth d)
  && (getDate (setDate d (getDate d + 1)) =? getDate d) = false.
Proof.
  intros Hv. pose proof Hv as (Hm & Hd & Ht). rewrite (setDate_next d Hv).
  destruct (Z.ltb_spec (getDate d) (DaysInMonth (getFullYear d) (getMonth d)));
    cbn [getFullYear getMonth getDate getTimeInDay].
  - replace (getDate d + 1 =? getDate d) with false by (symmetry; apply Z.eqb_neq; lia).
    now rewrite !andb_false_r.
  - pose proof (next_month_differs (getFullYear d) (getMonth d) Hm) as Hne.
    apply Z.eqb_neq in Hne. rewrite Hne. now rewrite andb_false_r.
Qed.

Lemma setDate_prev_other_day (d : Date) :
  valid d ->
  (getFullYear (setDate d (getDate d + -1)) =? getFullYear d)
  && (getMonth (setDate d (getDate d + -1)) =? getMonth d)
  && (getDate (setDate d (getDate d + -1)) =? getDate d) = false.
Proof.
  intros Hv. pose proof Hv as (Hm & Hd & Ht). rewrite (setDate_prev d Hv).
  destruct (Z.ltb_spec 1 (getDate d)); cbn [getFullYear getMonth getDate getTimeInDay].
  - replace (getDate d - 1 =? getDate d) with false by (symmetry; apply Z.eqb_neq; lia).
    now rewrite !andb_false_r.
  - pose proof (prev_month_differs (getFullYear d) (getMonth d) Hm) as Hne.
    apply Z.eqb_neq in Hne. rewrite Hne. now rewrite andb_false_r.
Qed.

Lemma calendar_day_ISOString (d : Date) :
  valid d -> calendar_day tz (ISOString d) = Some (getFullYear d, getMonth d, getDate d).
Proof. intros Hv. unfold calendar_day. now rewrite (new_Date_ISOString tz d Hv). Qed.

Lemma world_of_changeDate (delta : Z) (w : World) (d : Date) :
  new_Date tz (selectedDate (data w)) = Some d ->
  world_of (Page.changeDate tz current delta w)
  = with_data w (set_selectedDate (data w) (ISOString (setDate d (getDate d + delta)))).
Proof.
  intros Hparse. unfold Page.changeDate. rewrite Hparse. apply world_of_renderResults.
Qed.

(** X14.  On a selected day that is a date, the two arrows of the work view
    undo each other: [changeDate(1)] shows another calendar day and
    [changeDate(-1)] after it shows the first calendar day again, and the
    same holds in the other order; nothing but the selected day changes, and
    that also when the re-rendering at the end raises.  The call returns
    when the current view renders on the day that it shows.  On a selected
    day that is no date, [changeDate] raises and changes nothing. *)
Theorem changeDate_back_and_forth (w : World) :
  (forall d delta,
     new_Date tz (selectedDate (data w)) = Some d ->
     delta = 1 \/ delta = -1 ->
     let there := world_of (Page.changeDate tz current delta w) in
     let back := world_of (Page.changeDate tz current (- delta) there) in
     calendar_day tz (selectedDate (data there)) <> calendar_day tz (selectedDate (data w))
     /\ calendar_day tz (selectedDate (data back)) = calendar_day tz (selectedDate (data w))
     /\ there = with_data w (set_selectedDate (data w) (selectedDate (data there)))
     /\ back = with_data w (set_selectedDate (data w) (selectedDate (data back)))
     /\ (returns (Page.changeDate tz current delta w) = true <-> renders tz current there))
  /\ (new_Date tz (selectedDate (data w)) = None ->
      forall delta, exists e, Page.changeDate tz current delta w = Throw e w).
Proof.
  split.
  - intros d delta Hparse Hdelta there back.
    pose proof (new_Date_valid tz _ _ Hparse) as Hv.
    assert (Hv1 : valid (setDate d (getDate d + delta))) by apply MakeDate_valid.
    assert (Hthere : there = with_data w (set_selectedDate (data w)
                                  (ISOString (setDate d (getDate d + delta)))))
      by (apply world_of_changeDate; exact Hparse).
    assert (Hback : back = with_data w (set_selectedDate (data w) (ISOString d))).
    { unfold back.
      rewrite (world_of_changeDate (- delta) there (setDate d (getDate d + delta)))
        by (rewrite Hthere; exact (new_Date_ISOString tz _ Hv1)).
      rewrite Hthere. cbn [data with_data set_selectedDate].
      destruct Hdelta as [-> | ->].
      - change (- (1)) with (-1). now rewrite (setDate_next_prev d Hv).
      - change (- (-1)) with 1. now rewrite (setDate_prev_next d Hv). }
    assert (Hday : calendar_day tz (selectedDate (data w))
                   = Some (getFullYear d, getMonth d, getDate d))
      by (unfold calendar_day; now rewrite Hparse).
    split; [|split; [|split; [|split]]].
    + rewrite Hthere. cbn [data selectedDate with_data set_selectedDate].
      rewrite (calendar_day_ISOString _ Hv1), Hday. intros [= Hy Hm Hd].
      destruct Hdelta as [-> | ->].
      * pose proof (setDate_next_other_day d Hv) as Hne.
        now rewrite Hy, Hm, Hd, !Z.eqb_refl in Hne.
      * pose proof (setDate_prev_other_day d Hv) as Hne.
        now rewrite Hy, Hm, Hd, !Z.eqb_refl in Hne.
    + rewrite Hback. cbn [data selectedDate with_data set_selectedDate].
      now rewrite (calendar_day_ISOString _ Hv), Hday.
    + now rewrite Hthere.
    + now rewrite Hback.
    + unfold Page.changeDate. rewrite Hparse, returns_renderResults, Hthere.
      apply view_returns_renders.
  - intros Hparse delta. unfold Page.changeDate. rewrite Hparse. now eexists.
Qed.

Lemma materialize_rule_selectedMonth (month year : Z) (w : World) (rule : Rule.t) :
  selectedMonth (data (materialize_rule tz randomUUID month year w rule))
  = selectedMonth (data w).
Proof.
  destruct (materialize_rule_cases tz randomUUID month year w rule)
    as [->|(_ & _ & t & -> & _)]; reflexivity.
Qed.

Lemma fold_materialize_selectedMonth (month year : Z) (rules : list Rule.t) : forall w,
  selectedMonth (data (fold_left (materialize_rule tz randomUUID month year) rules w))
  = selectedMonth (data w).
Proof.
  induction rules as [|r l IH]; intros w; simpl; [reflexivity|].
  now rewrite IH, materialize_rule_selectedMonth.
Qed.

Lemma fold_materialize_extends (month year : Z) (rules : list Rule.t) : forall w,
  exists added,
    transactions (data (fold_left (materialize_rule tz randomUUID month year) rules w))
    = (transactions (data w) ++ added)%list.
Proof.
  induction rules as [|r l IH]; intros w; simpl.
  - exists []. now rewrite app_nil_r.
  - destruct (IH (materialize_rule tz randomUUID month year w r)) as (added & ->).
    destruct (materialize_rule_cases tz randomUUID month year w r)
      as [->|(_ & _ & t & -> & _)].
    + now exists added.
    + exists (t :: added). simpl. now rewrite <- app_assoc.
Qed.

(** Where [setMonth] puts the date. *)
Lemma setMonth_lands (d : Date) (delta : Z) :
  valid d ->
  let y' := getFullYear d + (getMonth d + delta) / 12 in
  let m' := (getMonth d + delta) mod 12 in
  setMonth d (getMonth d + delta)
  = if getDate d <=? DaysInMonth y' m'
    then mkDate y' m' (getDate d) (getTimeInDay d)
    else mkDate (fst (next_month y' m')) (snd (next_month y' m'))
                (getDate d - DaysInMonth y' m') (getTimeInDay d).
Proof.
  intros (Hm & Hd & Ht) y' m'. unfold setMonth.
  rewrite MakeDate_in_day, MakeDay_month_carry by exact Ht. fold y' m'.
  assert (Hm' : 0 <= m' <= 11) by (unfold m'; pose proof (Z.mod_pos_bound (getMonth d + delta) 12); lia).
  pose proof (DaysInMonth_bounds (getFullYear d) (getMonth d)).
  pose proof (DaysInMonth_bounds y' m').
  destruct (Z.leb_spec (getDate d) (DaysInMonth y' m')).
  - rewrite MakeDay_in_month by lia. reflexivity.
  - rewrite MakeDay_overflow by lia. reflexivity.
Qed.

(** [changeMonth] leaves the store that [ensureRecurringForMonth] leaves on
    the month it selected, and returns when the current view renders. *)
Lemma world_of_changeMonth (delta : Z) (w : World) (d : Date) :
  new_Date tz (selectedMonth (data w)) = Some d ->
  let d' := setMonth d (getMonth d + delta) in
  let w0 := with_data w (set_selectedMonth (data w) (ISOString d')) in
  world_of (Page.changeMonth tz randomUUID current delta w)
  = save (fold_left (materialize_rule tz randomUUID (getMonth d') (getFullYear d'))
                    (recurring (data w0)) w0)
  /\ returns (Page.changeMonth tz randomUUID current delta w)
     = Page.view_returns tz current w.
Proof.
  intros Hparse d' w0.
  assert (Hv1 : valid d') by apply MakeDate_valid.
  pose proof (ensureRecurringForMonth_parsed tz randomUUID (ISOString d') w0 d'
                (new_Date_ISOString tz d' Hv1)) as Hrun.
  pose proof (world_of_ensureRecurringForMonth tz randomUUID current (ISOString d') w0)
    as Hworld.
  pose proof (returns_ensureRecurringForMonth tz randomUUID current (ISOString d') w0)
    as Hret.
  pose proof (ensureRecurringForMonth_view tz randomUUID current (ISOString d') w0) as Hview.
  rewrite Hrun in Hworld, Hret, Hview. simpl in Hworld, Hret, Hview.
  assert (Hw0 : Page.view_returns tz current w0 = Page.view_returns tz current w)
    by (now apply view_returns_business).
  unfold Page.changeMonth. rewrite Hparse. cbv zeta. fold d'. fold w0.
  destruct (Page.ensureRecurringForMonth tz randomUUID current (ISOString d') w0)
    as [w1|e w1]; simpl in *; subst w1.
  - rewrite world_of_renderResults, returns_renderResults, Hview.
    split; [reflexivity | exact Hw0].
  - split; [reflexivity|]. now rewrite <- Hw0, <- Hret.
Qed.

(** X15.  After [changeMonth] on a selected month that is a date, the month
    shown is [delta] months on when the day of the selected date exists
    there (always for days up to the 28th), on the same day of the month;
    when the day does not exist there (from the 31st of January to
    February, say) the date runs over into the month after, so that month
    is the one shown and the one in between is skipped.  That is the
    selected month of the store also when the re-rendering raises. *)
Theorem changeMonth_lands (delta : Z) (w : World) (d : Date) :
  new_Date tz (selectedMonth (data w)) = Some d ->
  let y' := getFullYear d + (getMonth d + delta) / 12 in
  let m' := (getMonth d + delta) mod 12 in
  let w' := world_of (Page.changeMonth tz randomUUID current delta w) in
  (getDate d <= DaysInMonth y' m' ->
   calendar_day tz (selectedMonth (data w')) = Some (y', m', getDate d))
  /\ (DaysInMonth y' m' < getDate d ->
      calendar_day tz (selectedMonth (data w'))
      = Some (fst (next_month y' m'), snd (next_month y' m'),
              getDate d - DaysInMonth y' m')).
Proof.
  intros Hparse y' m' w'. pose proof (new_Date_valid tz _ _ Hparse) as Hv.
  assert (Hv1 : valid (setMonth d (getMonth d + delta))) by apply MakeDate_valid.
  assert (Hsel : selectedMonth (data w') = ISOString (setMonth d (getMonth d + delta))).
  { unfold w'. rewrite (proj1 (world_of_changeMonth delta w d Hparse)).
    change (selectedMonth (data (save ?x))) with (selectedMonth (data x)).
    now rewrite fold_materialize_selectedMonth. }
  rewrite Hsel, (calendar_day_ISOString _ Hv1).
  rewrite (setMonth_lands d delta Hv). fold y' m'. split; intros H.
  - destruct (Z.leb_spec (getDate d) (DaysInMonth y' m')); [reflexivity|lia].
  - destruct (Z.leb_spec (getDate d) (DaysInMonth y' m')); [lia|reflexivity].
Qed.

(** X16.  After [changeMonth] on a selected month that is a date, every
    active rule of the store with a day from 1 to 31 has a bill in the month
    that is then selected (for years outside 0..99, which the Date
    constructor reads as 19xx), and the transactions there were are all
    kept, in their order, in front of the new ones.  That is the store that
    the call leaves also when the re-rendering raises; the call returns when
    the current view renders on the store. *)
Theorem changeMonth_materializes (delta : Z) (w : World) (d : Date) :
  new_Date tz (selectedMonth (data w)) = Some d ->
  let call := Page.changeMonth tz randomUUID current delta w in
  exists d',
    new_Date tz (selectedMonth (data (world_of call))) = Some d'
    /\ recurring (data (world_of call)) = recurring (data w)
    /\ (exists added,
          transactions (data (world_of call)) = (transactions (data w) ++ added)%list)
    /\ (~ 0 <= getFullYear d' <= 99 ->
        forall rule,
          In rule (recurring (data w)) -> Rule.active rule = true ->
          1 <= Rule.day rule <= 31 ->
          exists t,
            In t (transactions (data (world_of call)))
            /\ is_bill tz (Rule.id rule) (getMonth d') (getFullYear d') t = true)
    /\ (returns call = true <-> renders tz current w).
Proof.
  intros Hparse call. pose proof (new_Date_valid tz _ _ Hparse) as Hv.
  assert (Hv1 : valid (setMonth d (getMonth d + delta))) by apply MakeDate_valid.
  destruct (world_of_changeMonth delta w d Hparse) as [Hworld Hret].
  cbv zeta in Hworld. fold call in Hworld, Hret. rewrite Hworld.
  set (d' := setMonth d (getMonth d + delta)) in *.
  set (w0 := with_data w (set_selectedMonth (data w) (ISOString d'))) in *.
  exists d'.
  assert (Hsel : selectedMonth (data (save (fold_left
                    (materialize_rule tz randomUUID (getMonth d') (getFullYear d'))
                    (recurring (data w0)) w0))) = ISOString d').
  { change (selectedMonth (data (save ?x))) with (selectedMonth (data x)).
    now rewrite fold_materialize_selectedMonth. }
  split; [rewrite Hsel; exact (new_Date_ISOString tz _ Hv1)|].
  split.
  { change (recurring (data (save ?x))) with (recurring (data x)).
    now rewrite fold_materialize_recurring. }
  split.
  { rewrite save_transactions.
    apply (fold_materialize_extends (getMonth d') (getFullYear d') (recurring (data w0)) w0). }
  split; [|exact (returns_renders tz current _ _ Hret)].
  intros Hyear rule Hin Hactive Hday.
  destruct Hv1 as (Hmonth & _).
  pose proof (fold_materialize_present tz randomUUID (getMonth d') (getFullYear d') rule
                (recurring (data w0)) Hmonth Hyear Hactive Hday w0 Hin) as Hpresent.
  destruct (nonempty_has_member _ Hpresent) as (t & Ht).
  apply filter_In in Ht. destruct Ht as [Ht Hmat].
  exists t. split; [rewrite save_transactions; exact Ht|].
  now rewrite <- materialized_in_is_bill.
Qed.

End Moving.

(** ** Loading and clearing the store *)

Section Loading.

Variable tz : Z.
Variable randomUUID : nat -> string.

(** The rules only add transactions, each for an active rule, and draw
    identifiers. *)
Lemma materialize_rule_added (month year : Z) (w : World) (rule : Rule.t) :
  exists added,
    data (materialize_rule tz randomUUID month year w rule)
    = set_transactions (data w) (transactions (data w) ++ added)%list
    /\ localStorage (materialize_rule tz randomUUID month year w rule) = localStorage w
    /\ forall t, In t added ->
                 Rule.active rule = true /\ Tx.recurringId t = Some (Rule.id rule).
Proof.
  destruct (materialize_rule_cases tz randomUUID month year w rule)
    as [->|(Hactive & _ & t & -> & Hrule & _)].
  - exists []. rewrite app_nil_r. split; [|split; [reflexivity|intros t []]].
    destruct w as [[] ls n c]. reflexivity.
  - exists [t]. split; [reflexivity|]. split; [reflexivity|].
    intros t' [<-|[]]. now split.
Qed.

Lemma fold_materialize_added (month year : Z) (rules : list Rule.t) : forall w,
  exists added,
    data (fold_left (materialize_rule tz randomUUID month year) rules w)
    = set_transactions (data w) (transactions (data w) ++ added)%list
    /\ localStorage (fold_left (materialize_rule tz randomUUID month year) rules w)
       = localStorage w
    /\ forall t, In t added ->
                 exists rule, In rule rules /\ Rule.active rule = true
                              /\ Tx.recurringId t = Some (Rule.id rule).
Proof.
  induction rules as [|r l IH]; intros w; simpl.
  - exists []. rewrite app_nil_r. split; [|split; [reflexivity|intros t []]].
    destruct w as [[] ls n c]. reflexivity.
  - destruct (IH (materialize_rule tz randomUUID month year w r)) as (l2 & Hd2 & Hs2 & Hin2).
    destruct (materialize_rule_added month year w r) as (l1 & Hd1 & Hs1 & Hin1).
    exists (l1 ++ l2)%list. split; [|split].
    + rewrite Hd2, Hd1. simpl. unfold set_transactions. simpl. now rewrite <- app_assoc.
    + now rewrite Hs2, Hs1.
    + intros t Ht. apply in_app_or in Ht. destruct Ht as [Ht|Ht].
      * exists r. split; [now left|]. now apply Hin1.
      * destruct (Hin2 t Ht) as (rule & Hr & Hrest). exists rule. split; [now right|exact Hrest].
Qed.

(** What [ensureRecurringForMonth] leaves, whether it returns or raises. *)
Lemma ensureRecurringForMonth_added (monthDateStr : DateString) (w : World) :
  exists added,
    data (world_of (ensureRecurringForMonth tz randomUUID monthDateStr w))
    = set_transactions (data w) (transactions (data w) ++ added)%list
    /\ forall t, In t added ->
                 exists rule, In rule (recurring (data w)) /\ Rule.active rule = true
                              /\ Tx.recurringId t = Some (Rule.id rule).
Proof.
  unfold ensureRecurringForMonth.
  destruct (new_Date tz monthDateStr) as [d|].
  - destruct (fold_materialize_added (getMonth d) (getFullYear d) (recurring (data w)) w)
      as (added & Hd & _ & Hin).
    exists added. split; [exact Hd|exact Hin].
  - exists []. rewrite app_nil_r. split; [|intros t []].
    destruct (existsb _ _); destruct w as [[] ls n c]; reflexivity.
Qed.

(** X17.  What [save] wrote, [init] reads back: on a page that starts with
    the storage that a store left, the categories, the accounts and the
    rules are those of that store, and the transactions are those of that
    store followed by the ones that [ensureRecurringForMonth] adds, each for
    an active rule; this holds also when [init] raises. *)
Theorem init_restores_saved (w w0 : World) :
  localStorage w0 = localStorage (save w) ->
  customCategories (data (world_of (init tz randomUUID w0))) = customCategories (data w)
  /\ homeCategories (data (world_of (init tz randomUUID w0))) = homeCategories (data w)
  /\ accounts (data (world_of (init tz randomUUID w0))) = accounts (data w)
  /\ recurring (data (world_of (init tz randomUUID w0))) = recurring (data w)
  /\ exists added,
       transactions (data (world_of (init tz randomUUID w0)))
       = (transactions (data w) ++ added)%list
       /\ forall t, In t added ->
                    exists rule, In rule (recurring (data w)) /\ Rule.active rule = true
                                 /\ Tx.recurringId t = Some (Rule.id rule).
Proof.
  intros Hstorage. unfold init. rewrite Hstorage.
  cbn [save localStorage st_transactions st_customCategories st_homeCategories
       st_accounts st_recurring pick].
  cbv zeta.
  match goal with
  | |- context [ensureRecurringForMonth tz randomUUID ?text ?w2] =>
      destruct (ensureRecurringForMonth_added text w2) as (added & Hd & Hin)
  end.
  rewrite Hd. repeat split. exists added. split; [reflexivity|exact Hin].
Qed.

(** X18.  [clearAllData] does not clear the rules: afterwards the store has
    the default categories and the default account, the rules it had, and
    no transaction but bills of active rules.  When the selected month is a
    date the call returns, the rules are written to the storage again, and
    every active rule with a day from 1 to 31 has its bill in the selected
    month (for years outside 0..99). *)
Theorem clearAllData_keeps_rules (w : World) :
  recurring (data (world_of (clearAllData tz randomUUID w))) = recurring (data w)
  /\ accounts (data (world_of (clearAllData tz randomUUID w))) = default_accounts
  /\ customCategories (data (world_of (clearAllData tz randomUUID w)))
     = default_customCategories
  /\ homeCategories (data (world_of (clearAllData tz randomUUID w))) = default_homeCategories
  /\ (forall t, In t (transactions (data (world_of (clearAllData tz randomUUID w)))) ->
                exists rule, In rule (recurring (data w)) /\ Rule.active rule = true
                             /\ Tx.recurringId t = Some (Rule.id rule))
  /\ (forall d,
        new_Date tz (selectedMonth (data w)) = Some d ->
        exists w',
          clearAllData tz randomUUID w = Normal w'
          /\ st_recurring (localStorage w') = Some (recurring (data w))
          /\ st_transactions (localStorage w') = Some (transactions (data w'))
          /\ (~ 0 <= getFullYear d <= 99 ->
              forall rule,
                In rule (recurring (data w)) -> Rule.active rule = true ->
                1 <= Rule.day rule <= 31 ->
                exists t, In t (transactions (data w'))
                          /\ materialized_in tz (Rule.id rule) (getMonth d) (getFullYear d) t
                             = true)).
Proof.
  assert (Hworld : forall c : Completion World,
             data (world_of match c with
                            | Normal w' => Normal (save w')
                            | Throw e w' => Throw e w'
                            end) = data (world_of c)) by (intros [w'|e w']; reflexivity).
  unfold clearAllData. rewrite Hworld. unfold init.
  cbn [data localStorage st_transactions st_customCategories st_homeCategories
       st_accounts st_recurring pick].
  cbv zeta.
  match goal with
  | |- context [ensureRecurringForMonth tz randomUUID ?text ?world] =>
      set (month := text); set (w2 := world)
  end.
  destruct (ensureRecurringForMonth_added month w2) as (added & Hd & Hin).
  rewrite Hd.
  split; [reflexivity|]. split; [reflexivity|]. split; [reflexivity|].
  split; [reflexivity|]. split.
  - intros t Ht. apply (Hin t Ht).
  - clear Hd Hin added. intros d Hparse.
    unfold ensureRecurringForMonth. change (new_Date tz month) with
      (new_Date tz (selectedMonth (data w))). rewrite Hparse.
    eexists. split; [reflexivity|]. split.
    { change (st_recurring (localStorage (save ?x))) with (Some (recurring (data x))).
      change (data (save ?x)) with (data x).
      now rewrite fold_materialize_recurring. }
    split; [reflexivity|].
    intros Hyear rule Hrule Hactive Hday.
    pose proof (new_Date_valid tz _ _ Hparse) as (Hmonth & _).
    pose proof (fold_materialize_present tz randomUUID (getMonth d) (getFullYear d) rule
                  (recurring (data w2)) Hmonth Hyear Hactive Hday w2 Hrule) as Hpresent.
    destruct (nonempty_has_member _ Hpresent) as (t & Ht).
    apply filter_In in Ht. exists t. rewrite !save_transactions. exact Ht.
Qed.

End Loading.

(** ** The report window *)

Section Window.

Variable tz : Z.

Lemma Date_leb_start (s d : Date) :
  0 <= getTimeInDay d ->
  Date_leb (mkDate (getFullYear s) (getMonth s) (getDate s) 0) d = true <-> day_le s d.
Proof.
  intros Ht. unfold Date_leb, Date_compare, day_le.
  change (day_compare (mkDate (getFullYear s) (getMonth s) (getDate s) 0) d)
    with (day_compare s d).
  cbn [getTimeInDay].
  destruct (day_compare s d); split; try congruence; try discriminate.
  - intros _. destruct (Z.compare_spec 0 (getTimeInDay d)); try reflexivity. lia.
Qed.

Lemma Date_leb_end (d e : Date) :
  getTimeInDay d < msPerDay ->
  Date_leb d (mkDate (getFullYear e) (getMonth e) (getDate e) 86399999) = true <-> day_le d e.
Proof.
  intros Ht. unfold Date_leb, Date_compare, day_le, msPerDay in *.
  change (day_compare d (mkDate (getFullYear e) (getMonth e) (getDate e) 86399999))
    with (day_compare d e).
  cbn [getTimeInDay].
  destruct (day_compare d e); split; try congruence; try discriminate.
  - intros _. destruct (Z.compare_spec (getTimeInDay d) 86399999); try reflexivity. lia.
Qed.

Lemma isWithinRange_parsed (dateStr startStr endStr : DateString) (d s e : Date) :
  new_Date tz dateStr = Some d -> new_Date tz startStr = Some s ->
  new_Date tz endStr = Some e ->
  (isWithinRange tz dateStr startStr endStr = true <-> day_le s d /\ day_le d e).
Proof.
  intros Hd Hs He.
  pose proof (new_Date_valid tz _ _ Hd) as (_ & _ & Ht).
  pose proof (new_Date_valid tz _ _ Hs) as Vs.
  pose proof (new_Date_valid tz _ _ He) as Ve.
  unfold isWithinRange. rewrite Hd, Hs, He.
  rewrite (setHours_start_of_day s Vs), (setHours_end_of_day e Ve).
  rewrite andb_true_iff, Date_leb_start, Date_leb_end by lia. reflexivity.
Qed.

(** X19.  [isWithinRange] is a test on calendar days: for three texts that
    are dates it holds exactly when the day of the date is not before the
    day of the start and not after the day of the end, as the host's clock
    reads them, whatever the times of day; it fails when one of the three
    texts is no date. *)
Theorem isWithinRange_calendar_days (dateStr startStr endStr : DateString) :
  (forall d s e,
     new_Date tz dateStr = Some d -> new_Date tz startStr = Some s ->
     new_Date tz endStr = Some e ->
     (isWithinRange tz dateStr startStr endStr = true <-> day_le s d /\ day_le d e))
  /\ (new_Date tz dateStr = None \/ new_Date tz startStr = None \/ new_Date tz endStr = None ->
      isWithinRange tz dateStr startStr endStr = false).
Proof.
  split.
  - intros d s e. apply isWithinRange_parsed.
  - unfold isWithinRange. intros [H|[H|H]]; rewrite H.
    + reflexivity.
    + now destruct (new_Date tz dateStr).
    + now destruct (new_Date tz dateStr), (new_Date tz startStr).
Qed.

End Window.

(** ** The number of a calendar day *)

Lemma year_length (y : Z) :
  y / 400 * 146097
  + ((y - y / 400 * 400) * 365 + (y - y / 400 * 400) / 4 - (y - y / 400 * 400) / 100)
  - ((y - 1) / 400 * 146097
     + ((y - 1 - (y - 1) / 400 * 400) * 365 + (y - 1 - (y - 1) / 400 * 400) / 4
        - (y - 1 - (y - 1) / 400 * 400) / 100))
  = if InLeapYear y then 366 else 365.
Proof.
  unfold InLeapYear.
  destruct (Z.eqb_spec (y mod 4) 0), (Z.eqb_spec (y mod 100) 0),
    (Z.eqb_spec (y mod 400) 0); simpl; Z.div_mod_to_equations; lia.
Qed.

Ltac month_literals :=
  try change (0 + 1) with 1; try change (1 + 1) with 2; try change (2 + 1) with 3;
  try change (3 + 1) with 4; try change (4 + 1) with 5; try change (5 + 1) with 6;
  try change (6 + 1) with 7; try change (7 + 1) with 8; try change (8 + 1) with 9;
  try change (9 + 1) with 10; try change (10 + 1) with 11.

(** The day numbers run on from a month into the next. *)
Lemma day_number_next_month (y m d : Z) :
  0 <= m <= 11 ->
  day_number (fst (next_month y m)) (snd (next_month y m)) (d - DaysInMonth y m)
  = day_number y m d.
Proof.
  intros Hm.
  assert (Hcases : m = 0 \/ m = 1 \/ m = 2 \/ m = 3 \/ m = 4 \/ m = 5 \/ m = 6 \/ m = 7
                   \/ m = 8 \/ m = 9 \/ m = 10 \/ m = 11) by lia.
  destruct Hcases as [->|[->|[->|[->|[->|[->|[->|[->|[->|[->|[->| ->]]]]]]]]]]];
    unfold next_month, DaysInMonth;
    cbn [Z.eqb Pos.eqb fst snd orb]; month_literals;
    unfold day_number;
    cbn [Z.ltb Z.compare Pos.compare Pos.compare_cont];
    try (replace (y + 1 - 1) with y by lia);
    try (Z.div_mod_to_equations; lia).
  pose proof (year_length y) as H.
  destruct (InLeapYear y); Z.div_mod_to_equations; lia.
Qed.

Lemma day_number_prev_month (y m d : Z) :
  0 <= m <= 11 ->
  day_number (fst (prev_month y m)) (snd (prev_month y m))
             (d + DaysInMonth (fst (prev_month y m)) (snd (prev_month y m)))
  = day_number y m d.
Proof.
  intros Hm.
  pose proof (day_number_next_month (fst (prev_month y m)) (snd (prev_month y m))
                (d + DaysInMonth (fst (prev_month y m)) (snd (prev_month y m)))
                (prev_month_range y m Hm)) as H.
  rewrite next_prev_month in H by exact Hm. cbn [fst snd] in H.
  rewrite <- H. f_equal. lia.
Qed.

Lemma day_number_shift (y m d k : Z) : day_number y m (d + k) = day_number y m d + k.
Proof. unfold day_number. lia. Qed.

Lemma roll_forward_day_number (fuel : nat) : forall y m d,
  0 <= m <= 11 ->
  let '(a, b, c) := roll_forward fuel y m d in day_number a b c = day_number y m d.
Proof.
  induction fuel as [|fuel IH]; intros y m d Hm; simpl.
  - now destruct (d <=? DaysInMonth y m).
  - destruct (d <=? DaysInMonth y m); [reflexivity|].
    pose proof (next_month_range y m Hm) as Hrange.
    pose proof (day_number_next_month y m d Hm) as Hnext.
    destruct (next_month y m) as [ny nm]. cbn [fst snd] in *.
    specialize (IH ny nm (d - DaysInMonth y m) Hrange).
    destruct (roll_forward fuel ny nm (d - DaysInMonth y m)) as [[a b] c]. congruence.
Qed.

Lemma roll_backward_day_number (fuel : nat) : forall y m d,
  0 <= m <= 11 ->
  let '(a, b, c) := roll_backward fuel y m d in day_number a b c = day_number y m d.
Proof.
  induction fuel as [|fuel IH]; intros y m d Hm; simpl.
  - now destruct (1 <=? d).
  - destruct (1 <=? d); [reflexivity|].
    pose proof (prev_month_range y m Hm) as Hrange.
    pose proof (day_number_prev_month y m d Hm) as Hprev.
    destruct (prev_month y m) as [py pm]. cbn [fst snd] in *.
    specialize (IH py pm (d + DaysInMonth py pm) Hrange).
    destruct (roll_backward fuel py pm (d + DaysInMonth py pm)) as [[a b] c]. congruence.
Qed.

(** [MakeDay] keeps the number of the day. *)
Lemma MakeDay_day_number (y m d : Z) :
  0 <= m <= 11 ->
  let '(a, b, c) := MakeDay y m d in day_number a b c = day_number y m d.
Proof.
  intros Hm. unfold MakeDay.
  rewrite Z.div_small, Z.mod_small, Z.add_0_r by lia.
  destruct (1 <=? d).
  - now apply roll_forward_day_number.
  - now apply roll_backward_day_number.
Qed.

(** ** The days that are written as UTC days and read back *)

Lemma first_day_of_month (y m : Z) :
  0 <= m <= 11 -> ~ 0 <= y <= 99 -> Date_of_fields y m 1 0 0 0 = mkDate y m 1 0.
Proof.
  intros Hm Hy. unfold Date_of_fields.
  replace ((0 <=? y) && (y <=? 99)) with false
    by (symmetry; apply andb_false_iff; rewrite Z.leb_gt, Z.leb_gt; lia).
  change (MakeTime 0 0 0 0) with 0.
  rewrite MakeDate_in_day by (unfold msPerDay; lia).
  pose proof (DaysInMonth_bounds y m).
  rewrite MakeDay_in_month by lia. reflexivity.
Qed.

Lemma month_carry_next (y m : Z) :
  0 <= m <= 11 -> (y + (m + 1) / 12, (m + 1) mod 12) = next_month y m.
Proof.
  intros Hm. unfold next_month. destruct (Z.eqb_spec m 11).
  - subst m. reflexivity.
  - rewrite Z.div_small, Z.mod_small by lia. f_equal. lia.
Qed.

(** Day 0 of the month after is the last day of the month. *)
Lemma MakeDay_last_day (y m : Z) :
  0 <= m <= 11 -> MakeDay y (m + 1) 0 = (y, m, DaysInMonth y m).
Proof.
  intros Hm. rewrite MakeDay_month_carry.
  pose proof (month_carry_next y m Hm) as Hnext.
  pose proof (next_month_range y m Hm) as Hrange.
  pose proof (prev_next_month y m Hm) as Hback.
  destruct (next_month y m) as [ny nm]. injection Hnext as -> ->.
  cbn [fst snd] in *. rewrite MakeDay_day_zero by exact Hrange.
  rewrite Hback. reflexivity.
Qed.

Lemma last_day_of_month (y m : Z) :
  0 <= m <= 11 -> ~ 0 <= y <= 99 ->
  Date_of_fields y (m + 1) 0 0 0 0 = mkDate y m (DaysInMonth y m) 0.
Proof.
  intros Hm Hy. unfold Date_of_fields.
  replace ((0 <=? y) && (y <=? 99)) with false
    by (symmetry; apply andb_false_iff; rewrite Z.leb_gt, Z.leb_gt; lia).
  change (MakeTime 0 0 0 0) with 0.
  rewrite MakeDate_in_day by (unfold msPerDay; lia).
  now rewrite MakeDay_last_day.
Qed.

Section WrittenDays.

Variable tz : Z.
Variable randomUUID : nat -> string.
Variable current : string.
Variable zone : Date -> Z.

(** The day that [toISOString] writes for a date, at the offset [written]
    in force at that date, and the day that the host reads back from the
    text, at the offset [read] in force at the midnight UTC that the text
    denotes. *)
Lemma written_and_read_back (written read : Z) (x : Date) :
  valid x ->
  written_day (iso_date_part written x)
  = Some (day_number_of x + utc_days_off written (getTimeInDay x))
  /\ exists r,
       new_Date read (iso_date_part written x) = Some r
       /\ day_number_of r = day_number_of x + days_off written read (getTimeInDay x).
Proof.
  intros (Hm & Hd & Ht). destruct x as [y m d t].
  cbn [getFullYear getMonth getDate getTimeInDay] in *.
  unfold iso_date_part, days_off, utc_days_off, day_number_of.
  cbn [getFullYear getMonth getDate getTimeInDay].
  unfold MakeDate.
  pose proof (MakeDay_valid y m (d + (t - written * 60000) / msPerDay)) as Hu.
  pose proof (MakeDay_day_number y m (d + (t - written * 60000) / msPerDay) Hm) as Hun.
  destruct (MakeDay y m (d + (t - written * 60000) / msPerDay)) as [[uy um] ud].
  cbn [getFullYear getMonth getDate].
  destruct Hu as [Hum Hud]. rewrite day_number_shift in Hun.
  split; [simpl; now rewrite Hun|].
  assert (Hvalid : (0 <=? um) && (um <=? 11) && (1 <=? ud) && (ud <=? 31) = true).
  { pose proof (DaysInMonth_bounds uy um).
    rewrite !andb_true_iff, !Z.leb_le. lia. }
  unfold new_Date. rewrite Hvalid. eexists. split; [reflexivity|].
  unfold MakeDate.
  pose proof (MakeDay_day_number uy um (ud + read * 60000 / msPerDay) Hum) as Hrn.
  destruct (MakeDay uy um (ud + read * 60000 / msPerDay)) as [[ry rm] rd].
  cbn [getFullYear getMonth getDate].
  rewrite day_number_shift in Hrn. lia.
Qed.

Lemma ensureRecurringForMonth_report (monthDateStr : DateString) (w : World) :
  reportStartDate (data (world_of (ensureRecurringForMonth tz randomUUID monthDateStr w)))
  = reportStartDate (data w)
  /\ reportEndDate (data (world_of (ensureRecurringForMonth tz randomUUID monthDateStr w)))
     = reportEndDate (data w).
Proof.
  destruct (ensureRecurringForMonth_added tz randomUUID monthDateStr w) as (added & -> & _).
  split; reflexivity.
Qed.

(** X20.  The report window that [init] sets on a page with saved accounts.
    The first and the last day of the current month, at midnight of the
    host's clock, are written as UTC days: each is written one day early
    when the host is ahead of UTC at that date.  Read back, each text is
    midnight UTC, which a host behind UTC at that instant reads on the day
    before.  So the window that the report shows starts and ends
    [days_off] days after the first and the last day of the month: on a
    host that is ahead of, or behind, UTC at those dates the window is one
    day early at that end.  That is the window of the store also when the
    re-rendering at the end of [init] raises.  (Years 0..99 apart, which
    the Date constructor reads as 19xx.) *)
Theorem init_report_window (w : World) (rs re : Z) :
  st_accounts (localStorage w) <> None ->
  valid (now w) -> ~ 0 <= getFullYear (now w) <= 99 ->
  let y := getFullYear (now w) in
  let m := getMonth (now w) in
  let firstDay := mkDate y m 1 0 in
  let lastDay := mkDate y m (DaysInMonth y m) 0 in
  let w' := world_of (Page.init tz randomUUID current zone w) in
  written_day (reportStartDate (data w'))
  = Some (day_number_of firstDay + utc_days_off (zone firstDay) 0)
  /\ written_day (reportEndDate (data w'))
     = Some (day_number_of lastDay + utc_days_off (zone lastDay) 0)
  /\ exists s e,
       new_Date rs (reportStartDate (data w')) = Some s
       /\ new_Date re (reportEndDate (data w')) = Some e
       /\ day_number_of s = day_number_of firstDay + days_off (zone firstDay) rs 0
       /\ day_number_of e = day_number_of lastDay + days_off (zone lastDay) re 0.
Proof.
  intros Hsaved Hnow Hyear y m firstDay lastDay w'. pose proof Hnow as (Hm & Hd & Ht).
  fold y m in Hm, Hyear.
  pose proof (DaysInMonth_bounds y m) as Hdim.
  assert (Hstart : reportStartDate (data w') = iso_date_part (zone firstDay) firstDay).
  { unfold w', Page.init. cbv zeta.
    destruct (st_accounts (localStorage w)) as [saved|]; [|congruence].
    cbn [and_then]. rewrite world_of_ensureRecurringForMonth.
    rewrite (proj1 (ensureRecurringForMonth_report _ _)).
    cbn [data with_data set_report reportStartDate].
    fold y m. now rewrite first_day_of_month. }
  assert (Hend : reportEndDate (data w') = iso_date_part (zone lastDay) lastDay).
  { unfold w', Page.init. cbv zeta.
    destruct (st_accounts (localStorage w)) as [saved|]; [|congruence].
    cbn [and_then]. rewrite world_of_ensureRecurringForMonth.
    rewrite (proj2 (ensureRecurringForMonth_report _ _)).
    cbn [data with_data set_report reportEndDate].
    fold y m. now rewrite last_day_of_month. }
  rewrite Hstart, Hend.
  destruct (written_and_read_back (zone firstDay) rs firstDay) as (Hws & s & Hs & Hsn);
    [unfold valid, msPerDay; simpl; lia|].
  destruct (written_and_read_back (zone lastDay) re lastDay) as (Hwe & e & He & Hen);
    [unfold valid, msPerDay; simpl; lia|].
  split; [exact Hws|]. split; [exact Hwe|].
  exists s, e. repeat split; assumption.
Qed.

(** X21.  [setReportFilter] records the filter and, for 'custom', leaves
    the two dates.  For 'monthly' and 'yearly' it writes the first and the
    last day of the current month, or year, at the time of day of the call,
    as UTC days: each is the day after, or before, when the UTC day is the
    day after, or before, the local day at that time of that date.  Read
    back, each text is midnight UTC, which a host behind UTC at that instant
    reads on the day before: the window starts and ends [days_off] days
    after the first and the last day of the month, or year. *)
Theorem setReportFilter_window (type : string) (w : World) (rs re : Z) :
  valid (now w) ->
  let y := getFullYear (now w) in
  let m := getMonth (now w) in
  let t := getTimeInDay (now w) in
  let w' := setReportFilter zone type w in
  let window := fun first last : Date =>
    written_day (reportStartDate (data w'))
    = Some (day_number_of first + utc_days_off (zone first) t)
    /\ written_day (reportEndDate (data w'))
       = Some (day_number_of last + utc_days_off (zone last) t)
    /\ exists s e,
         new_Date rs (reportStartDate (data w')) = Some s
         /\ new_Date re (reportEndDate (data w')) = Some e
         /\ day_number_of s = day_number_of first + days_off (zone first) rs t
         /\ day_number_of e = day_number_of last + days_off (zone last) re t in
  reportFilter (data w') = type
  /\ (type = "custom" ->
      reportStartDate (data w') = reportStartDate (data w)
      /\ reportEndDate (data w') = reportEndDate (data w))
  /\ (type = "monthly" -> window (mkDate y m 1 t) (mkDate y m (DaysInMonth y m) t))
  /\ (type = "yearly" -> window (mkDate y 0 1 t) (mkDate y 11 31 t)).
Proof.
  intros Hnow y m t w' window. pose proof Hnow as (Hm & Hd & Ht).
  fold y m t in Hm, Ht.
  pose proof (DaysInMonth_bounds y m) as Hdim.
  assert (Hwindow : forall first last : Date,
            valid first -> valid last ->
            getTimeInDay first = t -> getTimeInDay last = t ->
            reportStartDate (data w') = iso_date_part (zone first) first ->
            reportEndDate (data w') = iso_date_part (zone last) last ->
            window first last).
  { intros first last Hf Hl Hft Hlt Hstart Hend. unfold window.
    rewrite Hstart, Hend.
    destruct (written_and_read_back (zone first) rs first Hf) as (Hws & s & Hs & Hsn).
    destruct (written_and_read_back (zone last) re last Hl) as (Hwe & e & He & Hen).
    rewrite Hft in Hws, Hsn. rewrite Hlt in Hwe, Hen.
    split; [exact Hws|]. split; [exact Hwe|].
    exists s, e. repeat split; assumption. }
  split; [|split; [|split]].
  - unfold w', setReportFilter.
    destruct (type =? "weekly")%string, (type =? "monthly")%string,
      (type =? "yearly")%string, (type =? "custom")%string; reflexivity.
  - intros ->. split; reflexivity.
  - intros ->.
    assert (Hfirst : setDate (now w) 1 = mkDate y m 1 t).
    { unfold setDate. fold y m t. rewrite MakeDate_in_day by exact Ht.
      now rewrite MakeDay_in_month by lia. }
    assert (Hlast : setMonthDate (now w) (getMonth (now w) + 1) 0
                    = mkDate y m (DaysInMonth y m) t).
    { unfold setMonthDate. fold y m t. rewrite MakeDate_in_day by exact Ht.
      now rewrite MakeDay_last_day by exact Hm. }
    apply Hwindow; try reflexivity.
    + unfold valid. simpl. lia.
    + unfold valid. simpl. lia.
    + unfold w', setReportFilter.
      change ("monthly" =? "weekly")%string with false.
      change ("monthly" =? "monthly")%string with true.
      change ("monthly" =? "custom")%string with false.
      cbn [negb data with_data set_report reportStartDate]. now rewrite Hfirst.
    + unfold w', setReportFilter.
      change ("monthly" =? "weekly")%string with false.
      change ("monthly" =? "monthly")%string with true.
      change ("monthly" =? "custom")%string with false.
      cbn [negb data with_data set_report reportEndDate]. now rewrite Hlast.
  - intros ->.
    assert (Hfirst : setMonthDate (now w) 0 1 = mkDate y 0 1 t).
    { unfold setMonthDate. fold y t. rewrite MakeDate_in_day by exact Ht.
      rewrite (MakeDay_in_month y 0 1); [reflexivity|lia|].
      pose proof (DaysInMonth_bounds y 0). lia. }
    assert (Hlast : setMonthDate (now w) 11 31 = mkDate y 11 31 t).
    { unfold setMonthDate. fold y t. rewrite MakeDate_in_day by exact Ht.
      rewrite (MakeDay_in_month y 11 31); [reflexivity|lia|].
      change (DaysInMonth y 11) with 31. lia. }
    apply Hwindow; try reflexivity.
    + unfold valid. simpl. pose proof (DaysInMonth_bounds y 0). lia.
    + unfold valid. cbn [getFullYear getMonth getDate getTimeInDay].
      change (DaysInMonth y 11) with 31. lia.
    + unfold w', setReportFilter.
      change ("yearly" =? "weekly")%string with false.
      change ("yearly" =? "monthly")%string with false.
      change ("yearly" =? "yearly")%string with true.
      change ("yearly" =? "custom")%string with false.
      cbn [negb data with_data set_report reportStartDate]. now rewrite Hfirst.
    + unfold w', setReportFilter.
      change ("yearly" =? "weekly")%string with false.
      change ("yearly" =? "monthly")%string with false.
      change ("yearly" =? "yearly")%string with true.
      change ("yearly" =? "custom")%string with false.
      cbn [negb data with_data set_report reportEndDate]. now rewrite Hlast.
Qed.

(** What [setDate] does to the number of the day and to the time of day. *)
Lemma setDate_day_number (x : Date) (date : Z) :
  valid x ->
  valid (setDate x date)
  /\ getTimeInDay (setDate x date) = getTimeInDay x
  /\ day_number_of (setDate x date) = day_number (getFullYear x) (getMonth x) date.
Proof.
  intros (Hm & Hd & Ht). split; [apply MakeDate_valid|].
  unfold setDate. rewrite MakeDate_in_day by exact Ht.
  pose proof (MakeDay_day_number (getFullYear x) (getMonth x) date Hm) as Hnumber.
  destruct (MakeDay (getFullYear x) (getMonth x) date) as [[a b] c].
  split; [reflexivity | exact Hnumber].
Qed.

(** X22.  The 'weekly' filter takes the Sunday on or before today and the
    Saturday after it, six days on, at the time of day of the call, and
    writes both as UTC days.  Read back, each text is midnight UTC, which a
    host behind UTC at that instant reads on the day before: the window
    starts [days_off] days after that Sunday and ends [days_off] days after
    that Saturday, on the days of the week that follow from it. *)
Theorem setReportFilter_weekly (w : World) (rs re : Z) :
  valid (now w) ->
  let t := getTimeInDay (now w) in
  let sunday := setDate (now w) (getDate (now w) - getDay (now w)) in
  let saturday := setDate (now w) (getDate (now w) - getDay (now w) + 6) in
  let w' := setReportFilter zone "weekly" w in
  0 <= getDay (now w) <= 6
  /\ day_number_of sunday = day_number_of (now w) - getDay (now w)
  /\ day_number_of saturday = day_number_of sunday + 6
  /\ getDay sunday = 0
  /\ getDay saturday = 6
  /\ written_day (reportStartDate (data w'))
     = Some (day_number_of sunday + utc_days_off (zone sunday) t)
  /\ written_day (reportEndDate (data w'))
     = Some (day_number_of saturday + utc_days_off (zone saturday) t)
  /\ exists s e,
       new_Date rs (reportStartDate (data w')) = Some s
       /\ new_Date re (reportEndDate (data w')) = Some e
       /\ day_number_of s = day_number_of sunday + days_off (zone sunday) rs t
       /\ day_number_of e = day_number_of saturday + days_off (zone saturday) re t
       /\ getDay s = days_off (zone sunday) rs t mod 7
       /\ getDay e = (6 + days_off (zone saturday) re t) mod 7.
Proof.
  intros Hnow t sunday saturday w'.
  destruct (setDate_day_number (now w) (getDate (now w) - getDay (now w)) Hnow)
    as (Hvs & Hts & Hns).
  destruct (setDate_day_number (now w) (getDate (now w) - getDay (now w) + 6) Hnow)
    as (Hve & Hte & Hne).
  fold sunday in Hvs, Hts, Hns. fold saturday in Hve, Hte, Hne. fold t in Hts, Hte.
  assert (Hstart : reportStartDate (data w') = iso_date_part (zone sunday) sunday)
    by reflexivity.
  assert (Hend : reportEndDate (data w') = iso_date_part (zone saturday) saturday)
    by reflexivity.
  rewrite Hstart, Hend.
  destruct (written_and_read_back (zone sunday) rs sunday Hvs) as (Hws & s & Hs & Hsn).
  destruct (written_and_read_back (zone saturday) re saturday Hve) as (Hwe & e & He & Hen).
  rewrite Hts in Hws, Hsn. rewrite Hte in Hwe, Hen.
  replace (getDate (now w) - getDay (now w)) with (getDate (now w) + - getDay (now w))
    in Hns, Hne by lia.
  rewrite <- Z.add_assoc in Hne. rewrite day_number_shift in Hns, Hne.
  fold (day_number_of (now w)) in Hns, Hne.
  assert (Hg : getDay (now w) = (day_number_of (now w) + 4) mod 7) by reflexivity.
  assert (Hgu : getDay sunday = (day_number_of sunday + 4) mod 7) by reflexivity.
  assert (Hga : getDay saturday = (day_number_of saturday + 4) mod 7) by reflexivity.
  assert (Hgs : getDay s = (day_number_of s + 4) mod 7) by reflexivity.
  assert (Hge : getDay e = (day_number_of e + 4) mod 7) by reflexivity.
  assert (Hweek : 0 <= getDay (now w) <= 6
                  /\ day_number_of sunday = day_number_of (now w) - getDay (now w)
                  /\ day_number_of saturday = day_number_of sunday + 6
                  /\ getDay sunday = 0 /\ getDay saturday = 6).
  { rewrite Hgu, Hga, Hns, Hne, Hg.
    set (n := day_number_of (now w)). clearbody n.
    repeat split; Z.div_mod_to_equations; lia. }
  destruct Hweek as (H1 & H2 & H3 & H4 & H5).
  do 5 (split; [assumption|]).
  split; [exact Hws|]. split; [exact Hwe|].
  exists s, e. split; [exact Hs|]. split; [exact He|].
  split; [exact Hsn|]. split; [exact Hen|].
  rewrite Hgs, Hge, Hsn, Hen. rewrite Hgu in H4. rewrite Hga in H5.
  set (a := day_number_of sunday) in *. set (b := day_number_of saturday) in *.
  set (ks := days_off (zone sunday) rs t). set (ke := days_off (zone saturday) re t).
  clearbody a b ks ke. clear - H4 H5.
  split; Z.div_mod_to_equations; lia.
Qed.

End WrittenDays.

(** ** The report window on a host that keeps one offset

    On a host without daylight saving time the offset in force is the same
    [tz] at every date, and the days that are read back can be written out. *)

Section OneOffset.

Variable tz : Z.
Variable randomUUID : nat -> string.
Variable current : string.

Hypothesis tz_within_a_day : - msPerDay < tz * 60000 < msPerDay.

(** The day that the host reads back from the text of a date. *)
Lemma read_back_day (x : Date) :
  valid x ->
  exists r,
    new_Date tz (iso_date_part tz x) = Some r
    /\ (getFullYear r, getMonth r, getDate r)
       = if reads_back_same_day tz (getTimeInDay x)
         then (getFullYear x, getMonth x, getDate x)
         else MakeDay (getFullYear x) (getMonth x) (getDate x - 1).
Proof.
  intros (Hm & Hd & Ht). destruct x as [y m d t].
  cbn [getFullYear getMonth getDate getTimeInDay] in *.
  unfold iso_date_part, reads_back_same_day.
  cbn [getFullYear getMonth getDate getTimeInDay].
  unfold MakeDate at 1 2 3.
  destruct (MakeDay y m (d + (t - tz * 60000) / msPerDay)) as [[uy um] ud] eqn:E.
  cbn [getFullYear getMonth getDate].
  pose proof (MakeDay_valid y m (d + (t - tz * 60000) / msPerDay)) as Hu.
  rewrite E in Hu. destruct Hu as [Hum Hud].
  assert (Hvalid : (0 <=? um) && (um <=? 11) && (1 <=? ud) && (ud <=? 31) = true).
  { pose proof (DaysInMonth_bounds uy um).
    rewrite !andb_true_iff, !Z.leb_le. lia. }
  unfold new_Date. rewrite Hvalid. eexists. split; [reflexivity|].
  unfold MakeDate. unfold msPerDay in *.
  destruct (Z.leb_spec 0 (tz * 60000)) as [Hpos|Hneg].
  - replace (tz * 60000 / 86400000) with 0 by (symmetry; apply Z.div_small; lia).
    rewrite Z.add_0_r, (MakeDay_in_month uy um ud) by assumption.
    cbn [getFullYear getMonth getDate].
    replace (tz * 60000 <? 0) with false by (symmetry; apply Z.ltb_ge; lia).
    rewrite andb_false_l, orb_false_r, andb_true_l.
    destruct (Z.leb_spec (tz * 60000) t).
    + replace ((t - tz * 60000) / 86400000) with 0 in E
        by (symmetry; apply Z.div_small; lia).
      rewrite Z.add_0_r, MakeDay_in_month in E by assumption. now injection E as <- <- <-.
    + replace ((t - tz * 60000) / 86400000) with (-1) in E
        by (Z.div_mod_to_equations; lia).
      replace (d + -1) with (d - 1) in E by lia. now rewrite E.
  - replace (tz * 60000 / 86400000) with (-1) by (Z.div_mod_to_equations; lia).
    replace (ud + -1) with (ud - 1) by lia.
    replace (0 <=? tz * 60000) with false by (symmetry; apply Z.leb_gt; lia).
    replace (tz * 60000 <? 0) with true by (symmetry; apply Z.ltb_lt; lia).
    rewrite andb_false_l, orb_false_l, andb_true_l.
    destruct (Z.leb_spec 86400000 (t - tz * 60000)).
    + replace ((t - tz * 60000) / 86400000) with 1 in E
        by (Z.div_mod_to_equations; lia).
      rewrite MakeDay_next_day in E by assumption.
      destruct (Z.ltb_spec d (DaysInMonth y m)); injection E as <- <- <-.
      * rewrite MakeDay_prev_day by lia.
        destruct (Z.ltb_spec 1 (d + 1)); [|lia].
        cbn [getFullYear getMonth getDate]. f_equal; lia.
      * replace (1 - 1) with 0 by lia.
        rewrite MakeDay_day_zero by (now apply next_month_range).
        rewrite prev_next_month by exact Hm. cbn [fst snd getFullYear getMonth getDate].
        f_equal. lia.
    + replace ((t - tz * 60000) / 86400000) with 0 in E
        by (symmetry; apply Z.div_small; lia).
      rewrite Z.add_0_r, MakeDay_in_month in E by assumption. injection E as <- <- <-.
      now destruct (MakeDay y m (d - 1)) as [[a b] c].
Qed.

Lemma reads_back_at_midnight : reads_back_same_day tz 0 = (tz =? 0).
Proof.
  unfold reads_back_same_day, msPerDay in *.
  destruct (Z.eqb_spec tz 0) as [->|Hne]; [reflexivity|].
  destruct (Z.leb_spec 0 (tz * 60000)), (Z.leb_spec (tz * 60000) 0),
    (Z.ltb_spec (tz * 60000) 0), (Z.leb_spec 86400000 (0 - tz * 60000));
    simpl; try reflexivity; lia.
Qed.

Lemma day_le_previous (y m d : Z) (x e : Date) :
  (getFullYear x, getMonth x, getDate x) = (y, m, d) ->
  (getFullYear e, getMonth e, getDate e) = (y, m, d - 1) ->
  ~ day_le x e.
Proof.
  intros Hx He. injection Hx as Hxy Hxm Hxd. injection He as Hey Hem Hed.
  unfold day_le, day_compare. rewrite Hxy, Hxm, Hxd, Hey, Hem, Hed, !Z.compare_refl.
  intros H. apply H. apply Z.compare_gt_iff. lia.
Qed.

(** The report window that [init] sets on a page with saved accounts is the
    current month only when the offset is 0.  With any other offset within
    a day of UTC, the two texts it writes are read back one day early: the
    window then runs from the last day of the month before to the day
    before the last of the current month, and a transaction of the last day
    of the current month is outside it.  (Years 0..99 apart.) *)
Lemma init_report_window_one_offset (w : World) :
  st_accounts (localStorage w) <> None ->
  valid (now w) -> ~ 0 <= getFullYear (now w) <= 99 ->
  let y := getFullYear (now w) in
  let m := getMonth (now w) in
  let w' := world_of (Page.init tz randomUUID current (fun _ => tz) w) in
  exists s e,
    new_Date tz (reportStartDate (data w')) = Some s
    /\ new_Date tz (reportEndDate (data w')) = Some e
    /\ (tz = 0 ->
        (getFullYear s, getMonth s, getDate s) = (y, m, 1)
        /\ (getFullYear e, getMonth e, getDate e) = (y, m, DaysInMonth y m))
    /\ (tz <> 0 ->
        (getFullYear s, getMonth s, getDate s)
        = (fst (prev_month y m), snd (prev_month y m),
           DaysInMonth (fst (prev_month y m)) (snd (prev_month y m)))
        /\ (getFullYear e, getMonth e, getDate e) = (y, m, DaysInMonth y m - 1)
        /\ forall time,
             0 <= time < msPerDay ->
             isWithinRange tz (ISOString (mkDate y m (DaysInMonth y m) time))
                           (reportStartDate (data w')) (reportEndDate (data w')) = false).
Proof.
  intros Hsaved Hnow Hyear y m w'. pose proof Hnow as (Hm & Hd & Ht).
  fold y m in Hm, Hyear.
  pose proof (DaysInMonth_bounds y m) as Hdim.
  assert (Hstart : reportStartDate (data w') = iso_date_part tz (mkDate y m 1 0)).
  { unfold w', Page.init. cbv zeta.
    destruct (st_accounts (localStorage w)) as [saved|]; [|congruence].
    cbn [and_then]. rewrite world_of_ensureRecurringForMonth.
    rewrite (proj1 (ensureRecurringForMonth_report _ _ _ _)).
    cbn [data with_data set_report reportStartDate].
    fold y m. now rewrite first_day_of_month. }
  assert (Hend : reportEndDate (data w') = iso_date_part tz (mkDate y m (DaysInMonth y m) 0)).
  { unfold w', Page.init. cbv zeta.
    destruct (st_accounts (localStorage w)) as [saved|]; [|congruence].
    cbn [and_then]. rewrite world_of_ensureRecurringForMonth.
    rewrite (proj2 (ensureRecurringForMonth_report _ _ _ _)).
    cbn [data with_data set_report reportEndDate].
    fold y m. now rewrite last_day_of_month. }
  rewrite Hstart, Hend.
  destruct (read_back_day (mkDate y m 1 0)) as (s & Hs & Hsday);
    [unfold valid, msPerDay; simpl; lia|].
  destruct (read_back_day (mkDate y m (DaysInMonth y m) 0)) as (e & He & Heday);
    [unfold valid, msPerDay; simpl; lia|].
  cbn [getFullYear getMonth getDate getTimeInDay] in Hsday, Heday.
  rewrite reads_back_at_midnight in Hsday, Heday.
  exists s, e. split; [exact Hs|]. split; [exact He|]. split.
  - intros ->. now split.
  - intros Hne. apply Z.eqb_neq in Hne. rewrite Hne in Hsday, Heday.
    replace (1 - 1) with 0 in Hsday by lia.
    rewrite MakeDay_day_zero in Hsday by exact Hm.
    rewrite MakeDay_in_month in Heday by lia.
    split; [exact Hsday|]. split; [exact Heday|].
    intros time Htime.
    assert (Hx : new_Date tz (ISOString (mkDate y m (DaysInMonth y m) time))
                 = Some (mkDate y m (DaysInMonth y m) time)).
    { apply new_Date_ISOString. unfold valid. simpl. lia. }
    apply not_true_is_false. intros Hin.
    apply (isWithinRange_parsed tz _ _ _ _ _ _ Hx Hs He) in Hin.
    destruct Hin as [_ Hin]. revert Hin.
    now apply (day_le_previous y m (DaysInMonth y m)).
Qed.

(** For 'monthly' and 'yearly' the host reads both days back as the first
    and the last day of the month, or year, only when the UTC day and the
    local day agree at the time of the call in the way of
    [reads_back_same_day], and otherwise as the days before them. *)
Lemma setReportFilter_window_one_offset (type : string) (w : World) :
  valid (now w) ->
  let y := getFullYear (now w) in
  let m := getMonth (now w) in
  let same := reads_back_same_day tz (getTimeInDay (now w)) in
  let w' := setReportFilter (fun _ => tz) type w in
  reportFilter (data w') = type
  /\ (type = "custom" ->
      reportStartDate (data w') = reportStartDate (data w)
      /\ reportEndDate (data w') = reportEndDate (data w))
  /\ (type = "monthly" ->
      exists s e,
        new_Date tz (reportStartDate (data w')) = Some s
        /\ new_Date tz (reportEndDate (data w')) = Some e
        /\ (getFullYear s, getMonth s, getDate s)
           = (if same then (y, m, 1)
              else (fst (prev_month y m), snd (prev_month y m),
                    DaysInMonth (fst (prev_month y m)) (snd (prev_month y m))))
        /\ (getFullYear e, getMonth e, getDate e)
           = (if same then (y, m, DaysInMonth y m) else (y, m, DaysInMonth y m - 1)))
  /\ (type = "yearly" ->
      exists s e,
        new_Date tz (reportStartDate (data w')) = Some s
        /\ new_Date tz (reportEndDate (data w')) = Some e
        /\ (getFullYear s, getMonth s, getDate s)
           = (if same then (y, 0, 1) else (y - 1, 11, 31))
        /\ (getFullYear e, getMonth e, getDate e)
           = (if same then (y, 11, 31) else (y, 11, 30))).
Proof.
  intros Hnow y m same w'. pose proof Hnow as (Hm & Hd & Ht).
  fold y m in Hm.
  pose proof (DaysInMonth_bounds y m) as Hdim.
  split; [|split; [|split]].
  - unfold w', setReportFilter.
    destruct (type =? "weekly")%string, (type =? "monthly")%string,
      (type =? "yearly")%string, (type =? "custom")%string; reflexivity.
  - intros ->. split; reflexivity.
  - intros ->. unfold w', setReportFilter.
    change ("monthly" =? "weekly")%string with false.
    change ("monthly" =? "monthly")%string with true.
    change ("monthly" =? "custom")%string with false.
    cbn [negb data with_data set_report reportStartDate reportEndDate].
    unfold setDate, setMonthDate. fold y m.
    rewrite !MakeDate_in_day by exact Ht.
    rewrite MakeDay_last_day by exact Hm. rewrite MakeDay_in_month by lia.
    destruct (read_back_day (mkDate y m 1 (getTimeInDay (now w)))) as (s & Hs & Hsday);
      [unfold valid; simpl; lia|].
    destruct (read_back_day (mkDate y m (DaysInMonth y m) (getTimeInDay (now w))))
      as (e & He & Heday); [unfold valid; simpl; lia|].
    cbn [getFullYear getMonth getDate getTimeInDay] in Hsday, Heday.
    exists s, e. split; [exact Hs|]. split; [exact He|].
    fold same in Hsday, Heday. rewrite Hsday, Heday.
    replace (1 - 1) with 0 by lia.
    rewrite MakeDay_day_zero by exact Hm. rewrite MakeDay_in_month by lia.
    split; reflexivity.
  - intros ->. unfold w', setReportFilter.
    change ("yearly" =? "weekly")%string with false.
    change ("yearly" =? "monthly")%string with false.
    change ("yearly" =? "yearly")%string with true.
    change ("yearly" =? "custom")%string with false.
    cbn [negb data with_data set_report reportStartDate reportEndDate].
    unfold setMonthDate. fold y.
    rewrite !MakeDate_in_day by exact Ht.
    rewrite (MakeDay_in_month y 0 1), (MakeDay_in_month y 11 31)
      by (try lia; pose proof (DaysInMonth_bounds y 0); change (DaysInMonth y 11) with 31; lia).
    destruct (read_back_day (mkDate y 0 1 (getTimeInDay (now w)))) as (s & Hs & Hsday);
      [unfold valid; simpl; pose proof (DaysInMonth_bounds y 0); lia|].
    destruct (read_back_day (mkDate y 11 31 (getTimeInDay (now w))))
      as (e & He & Heday);
      [unfold valid; cbn [getFullYear getMonth getDate getTimeInDay];
       change (DaysInMonth y 11) with 31; lia|].
    cbn [getFullYear getMonth getDate getTimeInDay] in Hsday, Heday.
    exists s, e. split; [exact Hs|]. split; [exact He|].
    fold same in Hsday, Heday. rewrite Hsday, Heday.
    replace (1 - 1) with 0 by lia. replace (31 - 1) with 30 by lia.
    rewrite MakeDay_day_zero by lia.
    rewrite (MakeDay_in_month y 11 30) by (change (DaysInMonth y 11) with 31; lia).
    split; reflexivity.
Qed.

(** The day that is read back from what [setDate] wrote. *)
Lemma setDate_read_back (x : Date) (date : Z) :
  valid x ->
  exists r,
    new_Date tz (iso_date_part tz (setDate x date)) = Some r
    /\ day_number_of r
       = day_number (getFullYear x) (getMonth x) date
         - (if reads_back_same_day tz (getTimeInDay x) then 0 else 1).
Proof.
  intros (Hm & Hd & Ht). unfold setDate. rewrite MakeDate_in_day by exact Ht.
  pose proof (MakeDay_valid (getFullYear x) (getMonth x) date) as Hvalid.
  pose proof (MakeDay_day_number (getFullYear x) (getMonth x) date Hm) as Hnumber.
  destruct (MakeDay (getFullYear x) (getMonth x) date) as [[a b] c].
  destruct Hvalid as [Hb Hc].
  destruct (read_back_day (mkDate a b c (getTimeInDay x)))
    as (r & Hr & Hday); [unfold valid; simpl; lia|].
  cbn [getFullYear getMonth getDate getTimeInDay] in Hday.
  exists r. split; [exact Hr|]. unfold day_number_of.
  destruct (reads_back_same_day tz (getTimeInDay x)).
  - injection Hday as -> -> ->. lia.
  - pose proof (MakeDay_day_number a b (c - 1) Hb) as Hprev.
    rewrite <- Hday in Hprev. rewrite Hprev.
    replace (c - 1) with (c + -1) by lia. rewrite day_number_shift. lia.
Qed.

(** For 'weekly' the window read back is the week from Sunday to Saturday
    when the UTC day and the local day agree at the time of the call in the
    way of [reads_back_same_day], and otherwise the seven days from the
    Saturday before to the Friday. *)
Lemma setReportFilter_weekly_one_offset (w : World) :
  valid (now w) ->
  let same := reads_back_same_day tz (getTimeInDay (now w)) in
  let w' := setReportFilter (fun _ => tz) "weekly" w in
  exists s e,
    new_Date tz (reportStartDate (data w')) = Some s
    /\ new_Date tz (reportEndDate (data w')) = Some e
    /\ day_number_of s
       = day_number_of (now w) - getDay (now w) - (if same then 0 else 1)
    /\ day_number_of e = day_number_of s + 6
    /\ getDay s = (if same then 0 else 6)
    /\ getDay e = (if same then 6 else 5)
    /\ 0 <= getDay (now w) <= 6.
Proof.
  intros Hnow same w'.
  unfold w', setReportFilter.
  change ("weekly" =? "weekly")%string with true.
  change ("weekly" =? "custom")%string with false.
  cbn [negb data with_data set_report reportStartDate reportEndDate].
  destruct (setDate_read_back (now w) (getDate (now w) - getDay (now w)) Hnow)
    as (s & Hs & Hsn).
  destruct (setDate_read_back (now w) (getDate (now w) - getDay (now w) + 6) Hnow)
    as (e & He & Hen).
  exists s, e. split; [exact Hs|]. split; [exact He|].
  fold same in Hsn, Hen.
  replace (getDate (now w) - getDay (now w)) with (getDate (now w) + - getDay (now w))
    in Hsn, Hen by lia.
  rewrite <- Z.add_assoc in Hen. rewrite day_number_shift in Hsn, Hen.
  fold (day_number_of (now w)) in Hsn, Hen.
  assert (Hg : getDay (now w) = (day_number_of (now w) + 4) mod 7) by reflexivity.
  assert (Hgs : getDay s = (day_number_of s + 4) mod 7) by reflexivity.
  assert (Hge : getDay e = (day_number_of e + 4) mod 7) by reflexivity.
  rewrite Hgs, Hge, Hsn, Hen. rewrite Hg.
  set (n := day_number_of (now w)). clearbody n.
  destruct same; repeat split; Z.div_mod_to_equations; lia.
Qed.

End OneOffset.

(** ** The figures of the report *)

Section Report.

Variable tz : Z.

Lemma own_labels_filter (f : Tx.t -> bool) (txs : list Tx.t) :
  own_labels txs -> own_labels (filter f txs).
Proof.
  unfold own_labels. induction 1 as [|t l Ht _ IH]; simpl; [constructor|].
  destruct (f t); [now constructor | exact IH].
Qed.

(** X23.  In the report of a window in which no transaction is filed under
    a name that every object inherits ('constructor', '__proto__', ...),
    the totals of the groups are numbers, the groups of the business
    expenses add up to the business expense shown, the groups of the
    household add up to the household cost shown, and the balance is the
    business income less the two.  In every report each transaction of the
    window is counted on one side only. *)
Theorem report_figures (w : World) :
  (own_labels (report_filtered tz w) ->
   Forall (fun g => is_number (Group.val g)) (workExpGroups tz w ++ homeGroups tz w)
   /\ (sum_totals (workExpGroups tz w) == workExpense tz w)%Q
   /\ (sum_totals (homeGroups tz w) == homeCost tz w)%Q
   /\ (totalBalance tz w
       == workIncome tz w - sum_totals (workExpGroups tz w)
          - sum_totals (homeGroups tz w))%Q)
  /\ Permutation (report_filtered tz w) (workTransactions tz w ++ homeTransactions tz w)
  /\ (forall t, In t (workTransactions tz w) -> ~ In t (homeTransactions tz w)).
Proof.
  split; [|split].
  - intros Hown.
    assert (Hw : own_labels (filter (fun t => (Tx.type t =? "expense")%string)
                               (workTransactions tz w)))
      by (unfold workTransactions; now do 2 apply own_labels_filter).
    assert (Hh : own_labels (homeTransactions tz w))
      by (unfold homeTransactions; now apply own_labels_filter).
    destruct (groupByCat_own_labels _ Hw) as (Hwn & Hwsum & _).
    destruct (groupByCat_own_labels _ Hh) as (Hhn & Hhsum & _).
    assert (Hwork : (sum_totals (workExpGroups tz w) == workExpense tz w)%Q).
    { unfold workExpGroups, workExpense. now rewrite Hwsum, reduce_amount_sum. }
    assert (Hhome : (sum_totals (homeGroups tz w) == homeCost tz w)%Q).
    { unfold homeGroups, homeCost. now rewrite Hhsum, reduce_amount_sum. }
    split; [apply Forall_app; split; assumption|].
    split; [exact Hwork|]. split; [exact Hhome|].
    unfold totalBalance, workProfit. rewrite Hwork, Hhome. reflexivity.
  - unfold workTransactions, homeTransactions.
    induction (report_filtered tz w) as [|t l IH]; simpl; [constructor|].
    destruct (Tx.isHomeExpense t); simpl.
    + now apply Permutation_cons_app.
    + now constructor.
  - unfold workTransactions, homeTransactions. intros t Hw Hh.
    apply filter_In in Hw. apply filter_In in Hh.
    destruct Hw as [_ Hw]. destruct Hh as [_ Hh]. rewrite Hh in Hw. discriminate.
Qed.

End Report.

(** ** Export, import and the next start of the page *)

Section BackupRoundTrip.

Variable JSON_parse : string -> option Backup.JSValue.
Variable JSON_stringify : Backup.JSValue -> string.
Variable view_body : string -> Backup.JSValue -> bool.
Variable init_rest : Backup.World -> Completion Backup.World.

(** X24.  A store that [JSON.parse] gives back from its own export, and
    whose transactions and accounts are truthy, is restored by the import
    of that export into any store: all of [Store.data] is then the
    exported one, the five keys hold its collections, and the result is
    what the re-rendering of the current view gives. *)
Theorem import_of_export (w w0 : Backup.World) :
  JSON_parse (JSON_stringify (Backup.data w)) = Some (Backup.data w) ->
  has_collection (Backup.data w) "transactions" = true ->
  has_collection (Backup.data w) "accounts" = true ->
  let result :=
    Backup.loadBackupData JSON_parse JSON_stringify view_body
      (Backup.getBackupData JSON_stringify w) w0 in
  Backup.data (snd result) = Backup.data w
  /\ Backup.current (snd result) = Backup.current w0
  /\ fst result = Backup.renderResults view_body (snd result)
  /\ exists t c h a r,
       Backup.get (Backup.data w) "transactions" = Some t
       /\ Backup.get (Backup.data w) "customCategories" = Some c
       /\ Backup.get (Backup.data w) "homeCategories" = Some h
       /\ Backup.get (Backup.data w) "accounts" = Some a
       /\ Backup.get (Backup.data w) "recurring" = Some r
       /\ getItem (Backup.localStorage (snd result)) "st_transactions"
          = Some (Backup.stored_text JSON_stringify t)
       /\ getItem (Backup.localStorage (snd result)) "st_customCategories"
          = Some (Backup.stored_text JSON_stringify c)
       /\ getItem (Backup.localStorage (snd result)) "st_homeCategories"
          = Some (Backup.stored_text JSON_stringify h)
       /\ getItem (Backup.localStorage (snd result)) "st_accounts"
          = Some (Backup.stored_text JSON_stringify a)
       /\ getItem (Backup.localStorage (snd result)) "st_recurring"
          = Some (Backup.stored_text JSON_stringify r).
Proof.
  intros Hparse Htxs Haccs result.
  unfold result, Backup.loadBackupData, Backup.getBackupData. rewrite Hparse.
  unfold has_collection in Htxs, Haccs.
  destruct (Backup.get (Backup.data w) "transactions") as [t|] eqn:Et; [|discriminate].
  destruct (Backup.get (Backup.data w) "accounts") as [a|] eqn:Ea; [|discriminate].
  rewrite Htxs, Haccs. cbn [negb orb]. cbv iota.
  unfold Backup.save. cbn [Backup.data Backup.localStorage Backup.current].
  destruct (Backup.persist JSON_stringify (Backup.data w) (Backup.localStorage w0))
    as [storage|] eqn:Hpersist.
  - destruct (persist_keys JSON_stringify _ _ _ Hpersist) as (t' & c & h & a' & r & H).
    destruct (Backup.renderResults view_body
                (Backup.mkWorld (Backup.data w) storage (Backup.current w0))) eqn:Hrender;
      cbn [fst snd Backup.data Backup.localStorage Backup.current];
      (split; [reflexivity|]); (split; [reflexivity|]);
      (split; [now rewrite Hrender|]); exists t', c, h, a', r;
      rewrite ?Et, ?Ea in H; exact H.
  - exfalso. unfold Backup.persist in Hpersist.
    destruct (Backup.data w); simpl in *; discriminate.
Qed.

End BackupRoundTrip.

Section BrokenStart.

Variable JSON_parse : string -> option Backup.JSValue.
Variable JSON_stringify : Backup.JSValue -> string.
Variable view_body : string -> Backup.JSValue -> bool.
Variable init_rest : Backup.World -> Completion Backup.World.

Lemma read_saved_storage (key storageKey : string) (w w' : Backup.World) :
  Startup.read_saved JSON_parse key storageKey w = Normal w' ->
  Backup.localStorage w' = Backup.localStorage w.
Proof.
  unfold Startup.read_saved.
  destruct (getItem (Backup.localStorage w) storageKey) as [saved|]; [|now intros [= <-]].
  destruct (saved =? "")%string; [now intros [= <-]|].
  destruct (JSON_parse saved); [|discriminate].
  destruct (Backup.data w); try discriminate; now intros [= <-].
Qed.

Lemma read_saved_undefined (key storageKey : string) (w : Backup.World) :
  JSON_parse "undefined" = None ->
  getItem (Backup.localStorage w) storageKey = Some "undefined" ->
  Startup.read_saved JSON_parse key storageKey w = Throw "SyntaxError" w.
Proof.
  intros Hparse Hsaved. unfold Startup.read_saved. rewrite Hsaved.
  change ("undefined" =? "")%string with false. cbv iota. now rewrite Hparse.
Qed.

(** [init] does not return once one of the three keys holds the text
    'undefined'. *)
Lemma init_raises (w : Backup.World) :
  JSON_parse "undefined" = None ->
  getItem (Backup.localStorage w) "st_customCategories" = Some "undefined"
  \/ getItem (Backup.localStorage w) "st_homeCategories" = Some "undefined"
  \/ getItem (Backup.localStorage w) "st_recurring" = Some "undefined" ->
  exists e w', Startup.init JSON_parse init_rest w = Throw e w'.
Proof.
  intros Hparse Hkeys. unfold Startup.init, Startup.and_then.
  destruct (Startup.read_saved JSON_parse "transactions" "st_transactions" w)
    as [w1|e w1] eqn:E1; [|now exists e, w1].
  apply read_saved_storage in E1.
  destruct (Startup.read_saved JSON_parse "customCategories" "st_customCategories" w1)
    as [w2|e w2] eqn:E2; [|now exists e, w2].
  destruct Hkeys as [Hkey|Hkeys].
  { rewrite read_saved_undefined in E2; [discriminate|exact Hparse|now rewrite E1]. }
  apply read_saved_storage in E2.
  destruct (Startup.read_saved JSON_parse "homeCategories" "st_homeCategories" w2)
    as [w3|e w3] eqn:E3; [|now exists e, w3].
  destruct Hkeys as [Hkey|Hkey].
  { rewrite read_saved_undefined in E3; [discriminate|exact Hparse|now rewrite E2, E1]. }
  apply read_saved_storage in E3.
  rewrite read_saved_undefined; [now eexists; eexists|exact Hparse|now rewrite E3, E2, E1].
Qed.

(** X25.  A backup that has transactions and accounts but lacks the
    category lists or the rules (one written by a version of the
    application without recurring bills, say) passes the check of
    [loadBackupData]; [save] then stores the text 'undefined' under the
    missing key, whether or not the re-rendering raises, and since
    [JSON.parse] rejects that text, [init] raises at every later start of
    the page. *)
Theorem import_without_a_collection_breaks_init (jsonString : string)
    (props : list (string * Backup.JSValue)) (w w1 : Backup.World) :
  JSON_parse jsonString = Some (Backup.JObject props) ->
  Backup.truthy (Backup.lookup props "transactions") = true ->
  Backup.truthy (Backup.lookup props "accounts") = true ->
  Backup.lookup props "customCategories" = Backup.JUndefined
  \/ Backup.lookup props "homeCategories" = Backup.JUndefined
  \/ Backup.lookup props "recurring" = Backup.JUndefined ->
  JSON_parse "undefined" = None ->
  let imported :=
    snd (Backup.loadBackupData JSON_parse JSON_stringify view_body jsonString w) in
  Backup.data imported = Backup.JObject props
  /\ (getItem (Backup.localStorage imported) "st_customCategories" = Some "undefined"
      \/ getItem (Backup.localStorage imported) "st_homeCategories" = Some "undefined"
      \/ getItem (Backup.localStorage imported) "st_recurring" = Some "undefined")
  /\ (Backup.localStorage w1 = Backup.localStorage imported ->
      exists e w', Startup.init JSON_parse init_rest w1 = Throw e w').
Proof.
  intros Hblob Htxs Haccs Hmissing Hundefined imported.
  assert (Himported :
            Backup.data imported = Backup.JObject props
            /\ exists storage,
                 Backup.localStorage imported = storage
                 /\ Backup.persist JSON_stringify (Backup.JObject props)
                                   (Backup.localStorage w) = Some storage).
  { unfold imported, Backup.loadBackupData. rewrite Hblob.
    cbn [Backup.get]. rewrite Htxs, Haccs. cbn [negb orb]. cbv iota.
    unfold Backup.save. cbn [Backup.data Backup.localStorage Backup.current].
    destruct (Backup.persist JSON_stringify (Backup.JObject props) (Backup.localStorage w))
      as [storage|] eqn:Hpersist; [|discriminate].
    destruct (Backup.renderResults view_body _); cbn [snd Backup.data Backup.localStorage];
      (split; [reflexivity|]); exists storage; now split. }
  destruct Himported as (Hdata & storage & Hstorage & Hpersist).
  destruct (persist_keys JSON_stringify _ _ _ Hpersist)
    as (t & c & h & a & r & _ & Hc & Hh & _ & Hr & _ & Hsc & Hsh & _ & Hsr).
  cbn [Backup.get] in Hc, Hh, Hr. injection Hc as <-. injection Hh as <-. injection Hr as <-.
  assert (Hkeys :
            getItem (Backup.localStorage imported) "st_customCategories" = Some "undefined"
            \/ getItem (Backup.localStorage imported) "st_homeCategories" = Some "undefined"
            \/ getItem (Backup.localStorage imported) "st_recurring" = Some "undefined").
  { rewrite Hstorage.
    destruct Hmissing as [H|[H|H]]; rewrite H in *; [left|right; left|right; right];
      assumption. }
  split; [exact Hdata|]. split; [exact Hkeys|].
  intros Hsame. apply init_raises; [exact Hundefined|]. now rewrite Hsame.
Qed.

End BrokenStart.

(** ** Plain household expenses, paid flags and account updates *)

Lemma reduce_filter_replace (p : Tx.t -> bool) (before after : list Tx.t) (t t' : Tx.t) :
  p t' = p t -> Tx.amount t' = Tx.amount t ->
  (reduce_amount (filter p (before ++ t' :: after))
   == reduce_amount (filter p (before ++ t :: after)))%Q.
Proof.
  intros Hp Ha. rewrite !reduce_amount_sum, !filter_app, !sum_amounts_app.
  change (filter p (?x :: after)) with (if p x then x :: filter p after else filter p after).
  rewrite Hp. destruct (p t); simpl; rewrite ?Ha; reflexivity.
Qed.

Section Household.

Variable tz : Z.
Variable randomUUID : nat -> string.
Variable current : string.

Lemma isSameMonth_refl (text : DateString) :
  new_Date tz text <> None -> isSameMonth tz text text = true.
Proof.
  intros Hparse. unfold isSameMonth. destruct (new_Date tz text); [|congruence].
  now rewrite !Z.eqb_refl.
Qed.

(** X26.  The household form without an amount does nothing unless it is
    a reminder.  Its plain branch (neither 'recur' nor 'reminder' nor
    'install') leaves one more transaction, saved with the others: a
    household expense of the form's category and paid flag, dated with the
    text of the selected month and carrying no account, so that no account
    balance changes; when the selected month is a date, the total of the
    home view rises by the amount.  The call returns when the current view
    renders on the store; otherwise it raises, with the transaction stored
    and saved. *)
Theorem submitHomeExpense_single (form : HomeForm) (w : World) :
  let call := Page.submitHomeExpense tz randomUUID current form w in
  (inp_home_type form <> "reminder" -> falsy_number (inp_home_amount form) = true ->
   call = Normal w)
  /\ (forall a,
        inp_home_amount form = Some a -> ~ (a == 0)%Q ->
        inp_home_type form <> "recur" -> inp_home_type form <> "reminder" ->
        inp_home_type form <> "install" ->
        exists t',
          transactions (data (world_of call)) = (transactions (data w) ++ [t'])%list
          /\ st_transactions (localStorage (world_of call))
             = Some (transactions (data w) ++ [t'])%list
          /\ payload t'
             = Tx.mk "" NotADate "expense" a None (Some (inp_home_cat form))
                     (selectedMonth (data w)) None true (inp_is_paid form) None None false
          /\ (forall id, getAccountBalance id (world_of call) = getAccountBalance id w)
          /\ (new_Date tz (selectedMonth (data w)) <> None ->
              (home_total tz (world_of call) == home_total tz w + a)%Q)
          /\ (returns call = true <-> renders tz current w)).
Proof.
  intros call. split.
  - intros Htype Hfalsy. unfold call, Page.submitHomeExpense.
    apply String.eqb_neq in Htype. now rewrite Htype, Hfalsy.
  - intros a Hamount Hnz Hrecur Hreminder Hinstall.
    apply String.eqb_neq in Hrecur, Hreminder, Hinstall.
    assert (Hcall : call
                    = Page.addTransaction tz randomUUID current
                        (Tx.mk "" NotADate "expense" a None (Some (inp_home_cat form))
                               (selectedMonth (data w)) None true (inp_is_paid form)
                               None None false) w).
    { unfold call, Page.submitHomeExpense.
      rewrite Hamount, (falsy_number_Some a Hnz), Hrecur, Hreminder, Hinstall.
      rewrite andb_false_r. reflexivity. }
    rewrite Hcall, world_of_addTransaction.
    rewrite returns_addTransaction_household by reflexivity.
    eexists. split; [reflexivity|].
    split; [reflexivity|]. split; [reflexivity|].
    split; [|split; [|apply view_returns_renders]].
    + intros id. unfold getAccountBalance.
      change (find_account id (addTransaction randomUUID ?t w)) with (find_account id w).
      destruct (find_account id w); [|reflexivity].
      change (transactions (data (addTransaction randomUUID ?t w)))
        with (transactions (data w)
              ++ [Tx.mk (randomUUID (drawn w)) (ISOString (now w)) (Tx.type t) (Tx.amount t)
                        (Tx.description t) (Tx.category t) (Tx.date t) (Tx.accountId t)
                        (Tx.isHomeExpense t) (Tx.isPaid t) (Tx.recurringId t)
                        (Tx.installmentId t) (Tx.isReminder t)])%list.
      now rewrite !filter_snoc.
    + intros Hparse. unfold home_total, home_monthly.
      change (selectedMonth (data (addTransaction randomUUID ?t w)))
        with (selectedMonth (data w)).
      change (transactions (data (addTransaction randomUUID ?t w)))
        with (transactions (data w)
              ++ [Tx.mk (randomUUID (drawn w)) (ISOString (now w)) (Tx.type t) (Tx.amount t)
                        (Tx.description t) (Tx.category t) (Tx.date t) (Tx.accountId t)
                        (Tx.isHomeExpense t) (Tx.isPaid t) (Tx.recurringId t)
                        (Tx.installmentId t) (Tx.isReminder t)])%list.
      rewrite filter_snoc. cbn [Tx.isHomeExpense Tx.date andb].
      rewrite (isSameMonth_refl _ Hparse), reduce_amount_snoc. reflexivity.
Qed.

(** X27.  [togglePaid] changes no figure: the total of the home view, the
    income and the expense of the work view and the balance of every
    account are what they were, and no transaction is added or removed. *)
Theorem togglePaid_keeps_totals (id : string) (w : World) :
  (home_total tz (togglePaid id w) == home_total tz w)%Q
  /\ (work_income tz (togglePaid id w) == work_income tz w)%Q
  /\ (work_expense tz (togglePaid id w) == work_expense tz w)%Q
  /\ (forall accountId,
        (getAccountBalance accountId (togglePaid id w) == getAccountBalance accountId w)%Q)
  /\ List.length (transactions (data (togglePaid id w)))
     = List.length (transactions (data w)).
Proof.
  unfold togglePaid.
  destruct (find (fun item => (Tx.id item =? id)%string) (transactions (data w)))
    as [t|] eqn:Hfind; [|repeat split; reflexivity].
  destruct (find_place _ _ _ Hfind) as (before & after & Hl & Hb & Hx).
  apply String.eqb_eq in Hx.
  rewrite (updateTransaction_at id _ w before after t Hl Hb Hx).
  set (t' := merge_transaction t _).
  assert (Hamount : Tx.amount t' = Tx.amount t) by reflexivity.
  split; [|split; [|split; [|split]]].
  - unfold home_total, home_monthly.
    change (selectedMonth (data (save ?x))) with (selectedMonth (data x)).
    change (transactions (data (save (with_data w (set_transactions (data w) ?l)))))
      with l.
    change (selectedMonth (data (with_data w (set_transactions (data w) ?l))))
      with (selectedMonth (data w)).
    rewrite Hl. now apply reduce_filter_replace.
  - unfold work_income, work_daily.
    change (selectedDate (data (save (with_data w (set_transactions (data w) ?l)))))
      with (selectedDate (data w)).
    change (transactions (data (save (with_data w (set_transactions (data w) ?l)))))
      with l.
    rewrite Hl, !filter_twice. now apply reduce_filter_replace.
  - unfold work_expense, work_daily.
    change (selectedDate (data (save (with_data w (set_transactions (data w) ?l)))))
      with (selectedDate (data w)).
    change (transactions (data (save (with_data w (set_transactions (data w) ?l)))))
      with l.
    rewrite Hl, !filter_twice. now apply reduce_filter_replace.
  - intros accountId. unfold getAccountBalance.
    change (find_account accountId (save (with_data w (set_transactions (data w) ?l))))
      with (find_account accountId w).
    destruct (find_account accountId w); [|reflexivity].
    change (transactions (data (save (with_data w (set_transactions (data w) ?l)))))
      with l.
    rewrite Hl.
    rewrite (reduce_filter_replace
               (fun t0 => opt_is (Tx.accountId t0) accountId && (Tx.type t0 =? "income")%string)
               before after t t' eq_refl Hamount).
    rewrite (reduce_filter_replace
               (fun t0 => opt_is (Tx.accountId t0) accountId && (Tx.type t0 =? "expense")%string)
               before after t t' eq_refl Hamount).
    reflexivity.
  - change (transactions (data (save (with_data w (set_transactions (data w) ?l)))))
      with l.
    rewrite Hl, !length_app. reflexivity.
Qed.

End Household.

(** X28.  [updateAccount] on an identifier that no account has changes
    nothing and saves nothing.  Otherwise it merges the updates into the
    first account that has the identifier, leaves the other accounts and
    every transaction, and saves the accounts. *)
Theorem updateAccount_first_match (id : string) (updates : AccPatch.t) (w : World) :
  ((forall a, In a (accounts (data w)) -> Acc.id a <> id) ->
   updateAccount id updates w = w)
  /\ (forall a,
        In a (accounts (data w)) -> Acc.id a = id ->
        exists before old after,
          accounts (data w) = (before ++ old :: after)%list
          /\ (forall x, In x before -> Acc.id x <> id)
          /\ Acc.id old = id
          /\ accounts (data (updateAccount id updates w))
             = (before ++ merge_account old updates :: after)%list
          /\ transactions (data (updateAccount id updates w)) = transactions (data w)
          /\ st_accounts (localStorage (updateAccount id updates w))
             = Some (before ++ merge_account old updates :: after)%list).
Proof.
  split.
  - intros Hnone. unfold updateAccount.
    replace (findIndex (fun a => (Acc.id a =? id)%string) (accounts (data w))) with (@None nat);
      [reflexivity|].
    symmetry. apply findIndex_None. apply Forall_forall.
    intros a Ha. apply String.eqb_neq. now apply Hnone.
  - intros a Hin Hid.
    assert (Hfind : exists i, findIndex (fun x => (Acc.id x =? id)%string)
                                (accounts (data w)) = Some i).
    { destruct (findIndex _ (accounts (data w))) as [i|] eqn:E; [now exists i|].
      apply findIndex_None in E. rewrite Forall_forall in E.
      specialize (E a Hin). simpl in E. apply String.eqb_neq in E. contradiction. }
    destruct Hfind as [i Hfind].
    destruct (findIndex_Some _ _ _ Hfind) as (before & old & after & Hl & Hb & Hx & Hnth & Hassign).
    apply String.eqb_eq in Hx.
    exists before, old, after. split; [exact Hl|]. split.
    { intros x Hxin. rewrite Forall_forall in Hb. apply String.eqb_neq. now apply Hb. }
    split; [exact Hx|].
    unfold updateAccount. rewrite Hfind, Hnth. simpl. rewrite Hassign.
    repeat split.
Qed.

(** ** The limit bars of the account view *)

Section Bars.

Variable tz : Z.

(** X29.  The colour of a limit bar of the account view agrees with the
    status that the store reports, for the annual and for the monthly
    limit: red exactly for 'critical', orange exactly for 'warning', and
    for 'safe' yellow above nine tenths of the safe limit and green up to
    there. *)
Theorem getBarColor_agrees_with_status (accountId : string) (w : World) (s : LimitStatus) :
  getAccountLimitStatus tz accountId w = Some s
  \/ getAccountMonthlyStatus tz accountId w = Some s ->
  (getBarColor (total s) (limitSafe s) (limitMax s) = "bg-red-600"
   <-> status s = "critical")
  /\ (getBarColor (total s) (limitSafe s) (limitMax s) = "bg-orange-500"
      <-> status s = "warning")
  /\ (getBarColor (total s) (limitSafe s) (limitMax s) = "bg-yellow-400"
      <-> status s = "safe" /\ (limitSafe s * (9 # 10) < total s)%Q)
  /\ (getBarColor (total s) (limitSafe s) (limitMax s) = "bg-green-500"
      <-> status s = "safe" /\ (total s <= limitSafe s * (9 # 10))%Q).
Proof.
  intros Hstatus.
  assert (Hshape : status s = limit_status (total s) (limitSafe s) (limitMax s)).
  { destruct Hstatus as [H|H]; revert H;
      unfold getAccountLimitStatus, getAccountMonthlyStatus;
      destruct (find_account accountId w) as [account|]; try discriminate;
      destruct (negb _); try discriminate; now intros [= <-]. }
  rewrite Hshape. unfold getBarColor, limit_status.
  destruct (Qgtb (total s) (limitMax s)).
  { repeat split; try discriminate; intros [H _]; discriminate. }
  destruct (Qgtb (total s) (limitSafe s)).
  { repeat split; try discriminate; intros [H _]; discriminate. }
  destruct (Qgtb (total s) (limitSafe s * (9 # 10))) eqn:E.
  - apply Qgtb_true in E.
    repeat split; try discriminate; try assumption.
    intros [_ H]. exfalso. now apply (Qlt_not_le _ _ E).
  - apply Qgtb_false in E.
    repeat split; try discriminate; try assumption.
    intros [_ H]. exfalso. now apply (Qlt_not_le _ _ H).
Qed.

End Bars.

(** ** A report window chosen by hand *)

Section CustomWindow.

Variable tz : Z.

Hypothesis tz_within_a_day : - msPerDay < tz * 60000 < msPerDay.

(** The day that the host reads from a date-only text. *)
Lemma new_Date_date_only (y m d : Z) :
  0 <= m <= 11 -> 1 <= d <= DaysInMonth y m ->
  exists r,
    new_Date tz (DateOnly y m d) = Some r
    /\ (getFullYear r, getMonth r, getDate r)
       = if 0 <=? tz * 60000 then (y, m, d) else MakeDay y m (d - 1).
Proof.
  intros Hm Hd.
  assert (Hvalid : (0 <=? m) && (m <=? 11) && (1 <=? d) && (d <=? 31) = true).
  { pose proof (DaysInMonth_bounds y m).
    rewrite !andb_true_iff, !Z.leb_le. lia. }
  unfold new_Date. rewrite Hvalid. eexists. split; [reflexivity|].
  unfold MakeDate. unfold msPerDay in *.
  destruct (Z.leb_spec 0 (tz * 60000)).
  - replace (tz * 60000 / 86400000) with 0 by (symmetry; apply Z.div_small; lia).
    rewrite Z.add_0_r, MakeDay_in_month by assumption. reflexivity.
  - replace (tz * 60000 / 86400000) with (-1) by (Z.div_mod_to_equations; lia).
    replace (d + -1) with (d - 1) by lia.
    now destruct (MakeDay y m (d - 1)) as [[a b] c].
Qed.

(** X30.  A report window entered by hand as two days (the form of the two
    date fields) is applied as written on a host at or ahead of UTC, and one
    day early at both ends on a host behind UTC: a transaction is in the
    report exactly when its day lies between the days that the host reads
    from the two texts, which are then the days before the ones entered. *)
Theorem custom_report_window (w : World) (ys ms ds ye me de : Z) :
  0 <= ms <= 11 -> 1 <= ds <= DaysInMonth ys ms ->
  0 <= me <= 11 -> 1 <= de <= DaysInMonth ye me ->
  let w' := changeReportDate "end" (DateOnly ye me de)
              (changeReportDate "start" (DateOnly ys ms ds) w) in
  exists s e,
    (getFullYear s, getMonth s, getDate s)
    = (if 0 <=? tz * 60000 then (ys, ms, ds) else MakeDay ys ms (ds - 1))
    /\ (getFullYear e, getMonth e, getDate e)
       = (if 0 <=? tz * 60000 then (ye, me, de) else MakeDay ye me (de - 1))
    /\ transactions (data w') = transactions (data w)
    /\ forall t x,
         Tx.date t = ISOString x -> valid x ->
         (In t (report_filtered tz w')
          <-> In t (transactions (data w)) /\ day_le s x /\ day_le x e).
Proof.
  intros Hms Hds Hme Hde w'.
  destruct (new_Date_date_only ys ms ds Hms Hds) as (s & Hs & Hsday).
  destruct (new_Date_date_only ye me de Hme Hde) as (e & He & Heday).
  exists s, e. split; [exact Hsday|]. split; [exact Heday|]. split; [reflexivity|].
  intros t x Hdate Hx. unfold report_filtered.
  change (reportStartDate (data w')) with (DateOnly ys ms ds).
  change (reportEndDate (data w')) with (DateOnly ye me de).
  change (transactions (data w')) with (transactions (data w)).
  rewrite filter_In, Hdate.
  rewrite (isWithinRange_parsed tz _ _ _ x s e (new_Date_ISOString tz x Hx) Hs He).
  reflexivity.
Qed.

End CustomWindow.

(** * Instances of the further properties *)

Lemma updateTransaction_unknown_id_witness :
  updateTransaction "tx-9" raise_sale business_world = business_world.
Proof.
  apply (updateTransaction_unknown_id "tx-9" raise_sale business_world).
  intros t Ht. simpl in Ht. destruct Ht as [<-|[<-|[]]]; discriminate.
Defined.

Lemma updateTransaction_first_match_witness :
  exists before old after,
    transactions (data business_world) = (before ++ old :: after)%list
    /\ (forall x, In x before -> Tx.id x <> "tx-3")
    /\ Tx.id old = "tx-3"
    /\ transactions (data (updateTransaction "tx-3" raise_sale business_world))
       = (before ++ merge_transaction old raise_sale :: after)%list
    /\ accounts (data (updateTransaction "tx-3" raise_sale business_world))
       = accounts (data business_world)
    /\ recurring (data (updateTransaction "tx-3" raise_sale business_world))
       = recurring (data business_world)
    /\ st_transactions (localStorage (updateTransaction "tx-3" raise_sale business_world))
       = Some (before ++ merge_transaction old raise_sale :: after)%list.
Proof.
  apply (updateTransaction_first_match "tx-3" raise_sale business_world sale).
  - simpl. now left.
  - reflexivity.
Defined.

Lemma updateReminder_resolves_witness :
  exists before old after,
    transactions (data reminder_world) = (before ++ old :: after)%list
    /\ (forall x, In x before -> Tx.id x <> "tx-reminder")
    /\ Tx.id old = "tx-reminder"
    /\ exists resolved,
         transactions (data (updateReminder (Some 95%Q) "tx-reminder" reminder_world))
         = (before ++ resolved :: after)%list
         /\ Tx.amount resolved = 95%Q
         /\ Tx.isReminder resolved = false
         /\ Tx.isPaid resolved = false
         /\ Tx.recurringId resolved = Tx.recurringId old
         /\ Tx.date resolved = Tx.date old
         /\ forall ruleId month year,
              List.length (materializations brasilia ruleId month year
                             (transactions
                                (data (updateReminder (Some 95%Q) "tx-reminder"
                                         reminder_world))))
              = List.length (materializations brasilia ruleId month year
                               (transactions (data reminder_world))).
Proof.
  apply (proj2 (updateReminder_resolves brasilia (Some 95%Q) "tx-reminder" reminder_world)
               95%Q reminder_bill).
  - reflexivity.
  - unfold Qeq. simpl. lia.
  - simpl. now left.
  - reflexivity.
Defined.

Lemma deleted_materialization_returns_witness :
  let deleted := world_of (Page.deleteTransaction brasilia "home" true "tx-rent"
                             rent_paid_world) in
  let again := world_of (Page.ensureRecurringForMonth brasilia sample_uuid "home"
                           march_2024 deleted) in
  bills brasilia "rule-rent" 2 2024 (transactions (data deleted)) = []
  /\ List.length (bills brasilia "rule-rent" 2 2024 (transactions (data again))) = 1%nat.
Proof.
  apply (deleted_materialization_returns brasilia sample_uuid "home" "tx-rent" rent
           march_2024 mid_march_2024 rent_paid_world).
  - reflexivity.
  - simpl. lia.
  - simpl. now left.
  - reflexivity.
  - simpl. lia.
  - intros t Ht _. simpl in Ht. destruct Ht as [<-|[]]. reflexivity.
Defined.

Lemma addCustomCategory_once_witness :
  In "Pets" (customCategories (data (addCustomCategory "Pets" empty_world)))
  /\ NoDup (customCategories (data (addCustomCategory "Pets" empty_world))).
Proof.
  destruct (addCustomCategory_once "Pets" empty_world) as (Hin & _ & Hnodup & _).
  split; [exact Hin|]. apply Hnodup. simpl. constructor.
Defined.

Lemma deleteAccount_orphans_witness :
  getAccountBalance "acc-mei" (deleteAccount "acc-mei" business_world) = 0%Q
  /\ getAccountBalance "cash-1" (deleteAccount "acc-mei" business_world)
     = getAccountBalance "cash-1" business_world.
Proof.
  destruct (deleteAccount_orphans brasilia "acc-mei" business_world)
    as (_ & _ & Hzero & _ & _ & Hothers).
  split; [exact Hzero|]. apply (Hothers "cash-1"). discriminate.
Defined.

Lemma createAccount_opens_mei_account_witness :
  accounts (data (createAccount sample_uuid shop_form business_world))
  = [mei_account; Acc.mk "uuid-0" "Loja" "mei" (Some 500%Q)]
  /\ (getAccountBalance "uuid-0" (createAccount sample_uuid shop_form business_world)
      == 500)%Q.
Proof.
  destruct (createAccount_opens_mei_account brasilia sample_uuid shop_form business_world)
    as [_ H].
  destruct H as (Haccounts & _ & _ & _ & Hbalance & _).
  - discriminate.
  - intros a Ha. simpl in Ha. destruct Ha as [<-|[]]. discriminate.
  - intros t Ht. simpl in Ht. destruct Ht as [<-|[<-|[]]]; discriminate.
  - split; [exact Haccounts|exact Hbalance].
Defined.

Lemma isSameDay_isSameMonth_witness :
  isSameDay brasilia NotADate NotADate = true
  /\ isSameMonth brasilia NotADate NotADate = false.
Proof.
  apply (proj1 (proj2 (proj2 (isSameDay_isSameMonth brasilia NotADate NotADate))));
    reflexivity.
Defined.


Lemma submitIncome_records_witness :
  exists t',
    transactions (data (submitIncome brasilia sample_uuid true large_sale_form business_world))
    = (transactions (data business_world) ++ [t'])%list
    /\ st_transactions
         (localStorage (submitIncome brasilia sample_uuid true large_sale_form business_world))
       = Some (transactions (data business_world) ++ [t'])%list
    /\ Tx.id t' = sample_uuid (drawn business_world)
    /\ payload t'
       = Tx.mk "" NotADate "income" 5000 (Some (text_or (inp_desc large_sale_form) "Venda"))
               None (selectedDate (data business_world))
               (Some (inp_account large_sale_form)) false false None None false
    /\ (find_account (inp_account large_sale_form) business_world <> None ->
        (getAccountBalance (inp_account large_sale_form)
           (submitIncome brasilia sample_uuid true large_sale_form business_world)
         == getAccountBalance (inp_account large_sale_form) business_world + 5000)%Q)
    /\ (work_income brasilia
          (submitIncome brasilia sample_uuid true large_sale_form business_world)
        == work_income brasilia business_world + 5000)%Q
    /\ (work_expense brasilia
          (submitIncome brasilia sample_uuid true large_sale_form business_world)
        == work_expense brasilia business_world)%Q.
Proof.
  apply (submitIncome_records brasilia sample_uuid large_sale_form business_world 5000%Q).
  - reflexivity.
  - unfold Qeq. simpl. lia.
  - discriminate.
Defined.

Lemma submitExpense_records_witness :
  let call := Page.submitExpense brasilia sample_uuid "work" pets_form business_world in
  In "Pets" (customCategories (data (world_of call)))
  /\ returns call = true
  /\ exists t',
       transactions (data (world_of call))
       = (transactions (data business_world) ++ [t'])%list
       /\ Tx.category t' = Some "Pets".
Proof.
  intros call.
  destruct (submitExpense_records brasilia sample_uuid "work" pets_form business_world)
    as (Hcat & _ & _ & Hadd).
  split; [apply Hcat; discriminate|].
  destruct (Hadd 30%Q) as (t' & Htxs & Hpay & _ & _ & Hret).
  - reflexivity.
  - unfold Qeq. simpl. lia.
  - discriminate.
  - intros (_ & _ & Hraises). apply Hraises, view_returns_renders. reflexivity.
  - split; [apply Hret, view_returns_renders; reflexivity|].
    exists t'. split; [exact Htxs|]. exact (f_equal Tx.category Hpay).
Defined.

(** The same form on a store on which the work view raises: the category is
    stored, the call raises and the expense is not added. *)
Example submitExpense_on_a_view_that_raises :
  exists w',
    Page.submitExpense brasilia sample_uuid "work" pets_form uncategorised_world
    = Throw "TypeError" w'
    /\ customCategories (data w') = ["Pets"]
    /\ transactions (data w') = transactions (data uncategorised_world).
Proof. eexists. repeat split. Qed.

Lemma changeDate_back_and_forth_witness :
  let there := world_of (Page.changeDate brasilia "work" 1 business_world) in
  let back := world_of (Page.changeDate brasilia "work" (-1) there) in
  calendar_day brasilia (selectedDate (data there))
  <> calendar_day brasilia (selectedDate (data business_world))
  /\ calendar_day brasilia (selectedDate (data back))
     = calendar_day brasilia (selectedDate (data business_world)).
Proof.
  destruct (proj1 (changeDate_back_and_forth brasilia "work" business_world)
              mid_march_2024 1) as (Hthere & Hback & _).
  - reflexivity.
  - now left.
  - exact (conj Hthere Hback).
Defined.

Lemma changeMonth_lands_witness :
  calendar_day brasilia
    (selectedMonth (data (world_of (Page.changeMonth brasilia sample_uuid "home" 1
                                      end_of_january_world))))
  = Some (2024, 2, 2).
Proof.
  destruct (changeMonth_lands brasilia sample_uuid "home" 1 end_of_january_world
              (mkDate 2024 0 31 noon) eq_refl) as [_ Hskips].
  rewrite Hskips; [reflexivity|]. vm_compute. reflexivity.
Defined.

Lemma changeMonth_materializes_witness :
  let call := Page.changeMonth brasilia sample_uuid "home" 1 rent_due_world in
  exists d',
    new_Date brasilia (selectedMonth (data (world_of call))) = Some d'
    /\ recurring (data (world_of call)) = recurring (data rent_due_world)
    /\ (exists added,
          transactions (data (world_of call))
          = (transactions (data rent_due_world) ++ added)%list)
    /\ (~ 0 <= getFullYear d' <= 99 ->
        forall rule,
          In rule (recurring (data rent_due_world)) -> Rule.active rule = true ->
          1 <= Rule.day rule <= 31 ->
          exists t,
            In t (transactions (data (world_of call)))
            /\ is_bill brasilia (Rule.id rule) (getMonth d') (getFullYear d') t = true)
    /\ (returns call = true <-> renders brasilia "home" rent_due_world).
Proof.
  apply (changeMonth_materializes brasilia sample_uuid "home" 1 rent_due_world
           mid_march_2024).
  reflexivity.
Defined.

Lemma init_restores_saved_witness :
  customCategories (data (world_of (init brasilia sample_uuid restarted_world)))
  = customCategories (data business_world)
  /\ homeCategories (data (world_of (init brasilia sample_uuid restarted_world)))
     = homeCategories (data business_world)
  /\ accounts (data (world_of (init brasilia sample_uuid restarted_world)))
     = accounts (data business_world)
  /\ recurring (data (world_of (init brasilia sample_uuid restarted_world)))
     = recurring (data business_world)
  /\ exists added,
       transactions (data (world_of (init brasilia sample_uuid restarted_world)))
       = (transactions (data business_world) ++ added)%list
       /\ forall t, In t added ->
                    exists rule, In rule (recurring (data business_world))
                                 /\ Rule.active rule = true
                                 /\ Tx.recurringId t = Some (Rule.id rule).
Proof.
  apply (init_restores_saved brasilia sample_uuid business_world restarted_world).
  reflexivity.
Defined.

Lemma clearAllData_keeps_rules_witness :
  exists w',
    clearAllData brasilia sample_uuid rent_paid_world = Normal w'
    /\ st_recurring (localStorage w') = Some (recurring (data rent_paid_world))
    /\ st_transactions (localStorage w') = Some (transactions (data w'))
    /\ (~ 0 <= getFullYear mid_march_2024 <= 99 ->
        forall rule,
          In rule (recurring (data rent_paid_world)) -> Rule.active rule = true ->
          1 <= Rule.day rule <= 31 ->
          exists t, In t (transactions (data w'))
                    /\ materialized_in brasilia (Rule.id rule) (getMonth mid_march_2024)
                                       (getFullYear mid_march_2024) t = true).
Proof.
  destruct (clearAllData_keeps_rules brasilia sample_uuid rent_paid_world)
    as (_ & _ & _ & _ & _ & Hreturns).
  apply (Hreturns mid_march_2024). reflexivity.
Defined.

Lemma isWithinRange_calendar_days_witness :
  isWithinRange brasilia march_10_noon march_1_evening march_20_noon = true
  <-> day_le (mkDate 2024 2 1 70000000) (mkDate 2024 2 10 noon)
      /\ day_le (mkDate 2024 2 10 noon) (mkDate 2024 2 20 noon).
Proof.
  apply (proj1 (isWithinRange_calendar_days brasilia march_10_noon march_1_evening
                  march_20_noon));
    reflexivity.
Defined.

Lemma init_report_window_witness :
  let firstDay := mkDate 2024 2 1 0 in
  let lastDay := mkDate 2024 2 31 0 in
  let w' := world_of (Page.init brasilia sample_uuid "work" (fun _ => brasilia)
                        restarted_world) in
  written_day (reportStartDate (data w'))
  = Some (day_number_of firstDay + utc_days_off brasilia 0)
  /\ written_day (reportEndDate (data w'))
     = Some (day_number_of lastDay + utc_days_off brasilia 0)
  /\ exists s e,
       new_Date brasilia (reportStartDate (data w')) = Some s
       /\ new_Date brasilia (reportEndDate (data w')) = Some e
       /\ day_number_of s = day_number_of firstDay + days_off brasilia brasilia 0
       /\ day_number_of e = day_number_of lastDay + days_off brasilia brasilia 0.
Proof.
  apply (init_report_window brasilia sample_uuid "work" (fun _ => brasilia) restarted_world
           brasilia brasilia).
  - discriminate.
  - vm_compute. repeat split; try reflexivity; discriminate.
  - simpl. lia.
Defined.

(** The same start of the page, with the days written out: on a host three
    hours behind UTC the window of March 2024 runs from 29 February to 30
    March. *)
Example init_report_window_brasilia :
  let w' := world_of (Page.init brasilia sample_uuid "work" (fun _ => brasilia)
                        restarted_world) in
  reportStartDate (data w') = DateOnly 2024 2 1
  /\ reportEndDate (data w') = DateOnly 2024 2 31
  /\ new_Date brasilia (reportStartDate (data w')) = Some (mkDate 2024 1 29 75600000)
  /\ new_Date brasilia (reportEndDate (data w')) = Some (mkDate 2024 2 30 75600000)
  /\ isWithinRange brasilia (ISOString (mkDate 2024 2 31 noon))
       (reportStartDate (data w')) (reportEndDate (data w')) = false.
Proof. repeat split. Qed.

Lemma setReportFilter_window_witness :
  let first := mkDate 2024 2 1 noon in
  let last := mkDate 2024 2 31 noon in
  let w' := setReportFilter (fun _ => brasilia) "monthly" business_world in
  written_day (reportStartDate (data w'))
  = Some (day_number_of first + utc_days_off brasilia noon)
  /\ written_day (reportEndDate (data w'))
     = Some (day_number_of last + utc_days_off brasilia noon)
  /\ exists s e,
       new_Date brasilia (reportStartDate (data w')) = Some s
       /\ new_Date brasilia (reportEndDate (data w')) = Some e
       /\ day_number_of s = day_number_of first + days_off brasilia brasilia noon
       /\ day_number_of e = day_number_of last + days_off brasilia brasilia noon.
Proof.
  destruct (setReportFilter_window (fun _ => brasilia) "monthly" business_world
              brasilia brasilia) as (_ & _ & Hmonthly & _).
  - vm_compute. repeat split; try reflexivity; discriminate.
  - exact (Hmonthly eq_refl).
Defined.

(** A host on summer time: on a host five hours behind UTC in winter and
    four in summer, the 'yearly' filter chosen at 19:30 of 10 July 2024
    writes the two days at the offset of the winter, when that time of day
    is already the next day in UTC: the texts are '2024-01-02' and
    '2025-01-01', which the host reads back as 1 January and 31 December
    2024. *)
Example setReportFilter_yearly_summer_time :
  let w' := setReportFilter summer_time_host "yearly" july_evening_world in
  reportStartDate (data w') = DateOnly 2024 0 2
  /\ reportEndDate (data w') = DateOnly 2025 0 1
  /\ new_Date (-300) (reportStartDate (data w')) = Some (mkDate 2024 0 1 68400000)
  /\ new_Date (-300) (reportEndDate (data w')) = Some (mkDate 2024 11 31 68400000).
Proof. repeat split. Qed.

Lemma setReportFilter_weekly_witness :
  let sunday := mkDate 2024 2 10 noon in
  let saturday := mkDate 2024 2 16 noon in
  let w' := setReportFilter (fun _ => brasilia) "weekly" business_world in
  written_day (reportStartDate (data w'))
  = Some (day_number_of sunday + utc_days_off brasilia noon)
  /\ written_day (reportEndDate (data w'))
     = Some (day_number_of saturday + utc_days_off brasilia noon)
  /\ exists s e,
       new_Date brasilia (reportStartDate (data w')) = Some s
       /\ new_Date brasilia (reportEndDate (data w')) = Some e
       /\ day_number_of s = day_number_of sunday + days_off brasilia brasilia noon
       /\ day_number_of e = day_number_of saturday + days_off brasilia brasilia noon
       /\ getDay s = days_off brasilia brasilia noon mod 7
       /\ getDay e = (6 + days_off brasilia brasilia noon) mod 7.
Proof.
  destruct (setReportFilter_weekly (fun _ => brasilia) business_world brasilia brasilia)
    as (_ & _ & _ & _ & _ & Hwindow).
  - vm_compute. repeat split; try reflexivity; discriminate.
  - exact Hwindow.
Defined.

Lemma report_figures_witness :
  (sum_totals (workExpGroups brasilia report_world) == workExpense brasilia report_world)%Q
  /\ (sum_totals (homeGroups brasilia report_world) == homeCost brasilia report_world)%Q.
Proof.
  destruct (proj1 (report_figures brasilia report_world)) as (_ & Hwork & Hhome & _).
  - unfold own_labels. vm_compute. repeat constructor.
  - exact (conj Hwork Hhome).
Defined.

Lemma import_of_export_witness :
  Backup.data (snd (Backup.loadBackupData (parse_as (Some old_data)) stringify_sample
                      views_return
                      (Backup.getBackupData stringify_sample account_view_world)
                      work_view_world))
  = old_data
  /\ fst (Backup.loadBackupData (parse_as (Some old_data)) stringify_sample views_return
            (Backup.getBackupData stringify_sample account_view_world) work_view_world)
     = true.
Proof.
  destruct (import_of_export (parse_as (Some old_data)) stringify_sample views_return
              account_view_world work_view_world eq_refl eq_refl eq_refl)
    as (Hdata & _ & Hresult & _).
  split; [exact Hdata|]. rewrite Hresult. reflexivity.
Defined.

Lemma import_without_a_collection_breaks_init_witness :
  getItem (Backup.localStorage
             (snd (Backup.loadBackupData parse_old_backup stringify_sample views_return
                     "{}" work_view_world))) "st_recurring" = Some "undefined"
  /\ exists e w',
       Startup.init parse_old_backup rest_returns
         (snd (Backup.loadBackupData parse_old_backup stringify_sample views_return
                 "{}" work_view_world))
       = Throw e w'.
Proof.
  destruct (import_without_a_collection_breaks_init parse_old_backup stringify_sample
              views_return rest_returns "{}"
              [("transactions", Backup.JArray []); ("accounts", Backup.JArray [])]
              work_view_world
              (snd (Backup.loadBackupData parse_old_backup stringify_sample views_return
                      "{}" work_view_world)))
    as (_ & _ & Hinit).
  - reflexivity.
  - reflexivity.
  - reflexivity.
  - right. right. reflexivity.
  - reflexivity.
  - split; [reflexivity|]. apply Hinit. reflexivity.
Defined.

Lemma submitHomeExpense_single_witness :
  let call := Page.submitHomeExpense brasilia sample_uuid "home" market_form empty_world in
  exists t',
    transactions (data (world_of call)) = (transactions (data empty_world) ++ [t'])%list
    /\ st_transactions (localStorage (world_of call))
       = Some (transactions (data empty_world) ++ [t'])%list
    /\ payload t'
       = Tx.mk "" NotADate "expense" 50 None (Some (inp_home_cat market_form))
               (selectedMonth (data empty_world)) None true (inp_is_paid market_form)
               None None false
    /\ (forall id, getAccountBalance id (world_of call) = getAccountBalance id empty_world)
    /\ (new_Date brasilia (selectedMonth (data empty_world)) <> None ->
        (home_total brasilia (world_of call) == home_total brasilia empty_world + 50)%Q)
    /\ (returns call = true <-> renders brasilia "home" empty_world).
Proof.
  apply (proj2 (submitHomeExpense_single brasilia sample_uuid "home" market_form
                  empty_world) 50%Q).
  - reflexivity.
  - unfold Qeq. simpl. lia.
  - discriminate.
  - discriminate.
  - discriminate.
Defined.

Lemma updateAccount_first_match_witness :
  exists before old after,
    accounts (data business_world) = (before ++ old :: after)%list
    /\ (forall x, In x before -> Acc.id x <> "acc-mei")
    /\ Acc.id old = "acc-mei"
    /\ accounts (data (updateAccount "acc-mei" rename_account business_world))
       = (before ++ merge_account old rename_account :: after)%list
    /\ transactions (data (updateAccount "acc-mei" rename_account business_world))
       = transactions (data business_world)
    /\ st_accounts (localStorage (updateAccount "acc-mei" rename_account business_world))
       = Some (before ++ merge_account old rename_account :: after)%list.
Proof.
  apply (proj2 (updateAccount_first_match "acc-mei" rename_account business_world)
               mei_account).
  - simpl. now left.
  - reflexivity.
Defined.

Lemma getBarColor_agrees_with_status_witness :
  exists s,
    getAccountLimitStatus brasilia "acc-mei" near_limit_world = Some s
    /\ getBarColor (total s) (limitSafe s) (limitMax s) = "bg-orange-500"
    /\ status s = "warning".
Proof.
  eexists. split; [reflexivity|].
  assert (Hcolour : getBarColor (82000 # 1) 81000 97200 = "bg-orange-500") by reflexivity.
  split; [exact Hcolour|].
  apply (proj1 (proj2 (getBarColor_agrees_with_status brasilia "acc-mei" near_limit_world _
                         (or_introl eq_refl)))).
  exact Hcolour.
Defined.

Lemma custom_report_window_witness :
  exists s e,
    (getFullYear s, getMonth s, getDate s) = (2023, 11, 31)
    /\ (getFullYear e, getMonth e, getDate e) = (2024, 0, 30)
    /\ ~ In january_sale
           (report_filtered brasilia
              (changeReportDate "end" (DateOnly 2024 0 31)
                 (changeReportDate "start" (DateOnly 2024 0 1) january_sale_world))).
Proof.
  destruct (custom_report_window brasilia) with
    (w := january_sale_world) (ys := 2024) (ms := 0) (ds := 1)
    (ye := 2024) (me := 0) (de := 31)
    as (s & e & Hs & He & _ & Hin).
  - vm_compute. split; reflexivity.
  - lia.
  - vm_compute. split; discriminate.
  - lia.
  - vm_compute. split; discriminate.
  - exists s, e. split; [exact Hs|]. split; [exact He|].
    intros Hsale. apply (Hin january_sale (mkDate 2024 0 31 noon)) in Hsale.
    + destruct Hsale as (_ & _ & Hle). apply Hle.
      injection He as Hy Hm Hd. unfold day_compare. rewrite Hy, Hm, Hd. reflexivity.
    + reflexivity.
    + vm_compute. repeat split; try reflexivity; discriminate.
Defined.
